(** * WebSocketService: a shallow embedding of the connection manager

    The class [WebSocketService] (services/websocket) is embedded as a record
    of its fields together with the part of the browser it talks to: the
    sockets it has created, the pending timers, the clock and the console.
    Every method becomes a function on that world; [send], which can raise,
    returns a [Result]. *)

From Stdlib Require Import String Ascii.
From Stdlib Require Import List Bool Arith ZArith QArith Qpower Qround Qminmax Lia.
Import ListNotations.
Open Scope Z_scope.

(** ** The underlying transport *)

(** [WebSocket.readyState]: CONNECTING = 0, OPEN = 1, CLOSING = 2, CLOSED = 3. *)
Inductive ReadyState : Type := CONNECTING | OPEN | CLOSING | CLOSED.

(** One [WebSocket] object.  [sent] lists, oldest first, the frames handed to
    [ws.send] by calls that returned normally. *)
Record Socket : Type := {
  readyState : ReadyState;
  sent : list string
}.

(** What one call of [ws.send] does; the environment decides.
    [SendOk]: the frame is accepted.  [SendCloses]: the frame is accepted and
    the transport leaves OPEN right away (a user agent closes the connection
    when its buffer is full).  [SendThrows]: the call raises, which is what the
    [catch] clause of [send] is written for. *)
Inductive SendOutcome : Type := SendOk | SendCloses | SendThrows.

(** ** Messages *)

(** A structured payload is represented by what [JSON.stringify] makes of it:
    its JSON text, or nothing when [JSON.stringify] raises a TypeError (an
    object holding a BigInt or a reference cycle). *)
Inductive JsObject : Type :=
| JsonObject (text : string)
| Unserializable.

(** [string | object], the argument of [send] and the element type of the
    outbound queue. *)
Inductive Message : Type :=
| MText (s : string)
| MObject (o : JsObject).

Inductive Exn : Type :=
| TypeError        (* raised by JSON.stringify *)
| TransportError.  (* raised by ws.send *)

Definition JSON_stringify (o : JsObject) : option string :=
  match o with
  | JsonObject text => Some text
  | Unserializable => None
  end.

(** JavaScript truthiness of a queue element: an object is always truthy, a
    string is truthy unless it is empty. *)
Definition truthy (m : Message) : bool :=
  match m with
  | MText EmptyString => false
  | MText (String _ _) => true
  | MObject _ => true
  end.

Definition dquote : string := String (ascii_of_nat 34) EmptyString.

(** The text of [{ action: "ping" }]. *)
Definition ping_json : string :=
  ("{" ++ dquote ++ "action" ++ dquote ++ ":" ++ dquote ++ "ping" ++ dquote ++ "}")%string.

Definition ping : Message := MObject (JsonObject ping_json).

(** An inbound [MessageEvent], classified by the branch of [handleMessage] it
    takes: an ArrayBuffer, a text whose parsed [action] is "pong", any other
    text that parses, and a text on which [JSON.parse] or the look-up of
    [action] raises. *)
Inductive Inbound : Type :=
| InBinary (byteLength : Z)
| InPong (raw : string)
| InJson (raw : string)
| InMalformed (raw : string).

(** ** The console *)

Inductive LogLevel : Type := info | warn | error.

(** One constructor per call of [this.log], with the interpolated values. *)
Inductive LogMsg : Type :=
| LogDebugMemory (queueItems : nat) (listenerCount : nat) (lastMessage : Z) (connectedFor : Z)
| LogPeriodicCleanup (listenerCount : nat)
| LogLeak (increasing : nat)
| LogMemoryExceeded
| LogQueueTrimmed
| LogTooManyListeners
| LogPerformanceReport (queueLength : nat) (listenerCount : nat)
| LogNetworkQuality
| LogPoorConnection
| LogGoodConnection
| LogNetworkOnline
| LogNetworkOffline
| LogWindowFocused
| LogZombie
| LogRateLimit
| LogConstructionFailed
| LogEstablished
| LogClosed (duration : Z)
| LogConnectionError
| LogLargeMessage
| LogProcessingError
| LogBinary (byteLength : Z)
| LogPong
| LogMissedPing (strike : nat)
| LogDegraded
| LogSendingPing
| LogReconnecting (attempt : nat)
| LogTooLarge
| LogSendError
| LogQueueOverflow.

Definition LogEntry : Type := LogLevel * LogMsg.

(** ** Timers *)

(** The two timers the class keeps a handle of: the one-shot [reconnectTimer]
    of [attemptReconnect] and the repeating [healthCheckTimer] of
    [startHealthChecks].  The telemetry intervals of the constructor are events
    of the environment ([PerformanceTick], [CleanupTick] below). *)
Inductive TimerKind : Type := ReconnectTimeout | HealthInterval.

Record Timer : Type := {
  timerId : nat;
  timerKind : TimerKind;
  due : Z;
  period : option Z
}.

(** ** The fields of the class *)

Inductive Quality : Type := good | poor | degraded.

Record RateLimitCounter : Type := {
  timestamp : Z;
  count : nat
}.

Record PerformanceMetrics : Type := {
  failureRate : nat;
  memoryUsage : Z
}.

Record MemoryLeakDetection : Type := {
  lastMemoryUsage : Z;
  checkCount : nat;
  increasingCount : nat
}.

(** A socket and a timer are held by name: [ws] is the index of the socket
    in the world's [sockets], the two timer fields are timer ids.  The fields
    that only feed the performance report ([messagesSent], [messagesReceived],
    [bytesTransferred], [lastPerformanceCheck], [performanceMonitor], the
    latency and message-rate figures and the memory breakdown) are left
    out. *)
Record WebSocketService : Type := {
  ws : option nat;
  reconnectTimer : option nat;
  healthCheckTimer : option nat;
  messageQueue : list Message;
  listeners : list nat;
  reconnectCount : nat;
  missedPings : nat;
  lastPongTime : Z;
  lastMessageTime : Z;
  connectionStartTime : Z;
  isInitialized : bool;
  isReconnecting : bool;
  connectionQuality : Quality;
  HEALTH_CHECK_INTERVAL : Z;
  HEALTH_CHECK_TIMEOUT : Z;
  rateLimitCounter : RateLimitCounter;
  txBytes : Z;
  rxBytes : Z;
  txCount : nat;
  rxCount : nat;
  performanceMetrics : PerformanceMetrics;
  memoryLeakDetection : MemoryLeakDetection
}.

Definition MAX_RECONNECT_ATTEMPTS : nat := 5.
Definition RECONNECT_INTERVAL : Q := 3000 # 1.
Definition MAX_MISSED_PINGS : nat := 2.
Definition MAX_QUEUE_SIZE : nat := 100.
Definition MAX_MESSAGE_SIZE : Z := 1024 * 1024.
Definition MAX_BACKOFF_DELAY : Q := 30000 # 1.
Definition ZOMBIE_CONNECTION_TIMEOUT : Z := 90000.
Definition RATE_LIMIT_RESET : Z := 60000.
Definition MAX_RATE_LIMIT_ATTEMPTS : nat := 10.
Definition MAX_MEMORY_USAGE : Z := 230 * 1024 * 1024.

(** ** The world: the service and its environment *)

(** A socket is named by its index in [sockets] (they are created in order
    and never removed); a timer by its id, counted from 1 as a browser does,
    so that a handle is always truthy.  [sendScript] holds the outcomes of the
    coming [ws.send] calls (once it is used up every call is accepted, so a
    transport on which [ws.send] raises without end is not among the worlds);
    [constructorThrows] says whether [new WebSocket] raises; [hasWindow] is
    [typeof window !== "undefined"]; [usedJSHeapSize] is
    [performance.memory.usedJSHeapSize] where the host has it. *)
Record World : Type := {
  svc : WebSocketService;
  sockets : list Socket;
  timers : list Timer;
  nextTimerId : nat;
  now : Z;
  sendScript : list SendOutcome;
  constructorThrows : bool;
  hasWindow : bool;
  usedJSHeapSize : option Z;
  console : list LogEntry
}.

Definition set_ws v (s : WebSocketService) : WebSocketService :=
  Build_WebSocketService v (reconnectTimer s) (healthCheckTimer s) (messageQueue s)
    (listeners s) (reconnectCount s) (missedPings s) (lastPongTime s)
    (lastMessageTime s) (connectionStartTime s) (isInitialized s) (isReconnecting s)
    (connectionQuality s) (HEALTH_CHECK_INTERVAL s) (HEALTH_CHECK_TIMEOUT s)
    (rateLimitCounter s) (txBytes s) (rxBytes s) (txCount s) (rxCount s)
    (performanceMetrics s) (memoryLeakDetection s).
Definition set_reconnectTimer v (s : WebSocketService) : WebSocketService :=
  Build_WebSocketService (ws s) v (healthCheckTimer s) (messageQueue s) (listeners s)
    (reconnectCount s) (missedPings s) (lastPongTime s) (lastMessageTime s)
    (connectionStartTime s) (isInitialized s) (isReconnecting s) (connectionQuality s)
    (HEALTH_CHECK_INTERVAL s) (HEALTH_CHECK_TIMEOUT s) (rateLimitCounter s) (txBytes s)
    (rxBytes s) (txCount s) (rxCount s) (performanceMetrics s) (memoryLeakDetection s).
Definition set_healthCheckTimer v (s : WebSocketService) : WebSocketService :=
  Build_WebSocketService (ws s) (reconnectTimer s) v (messageQueue s) (listeners s)
    (reconnectCount s) (missedPings s) (lastPongTime s) (lastMessageTime s)
    (connectionStartTime s) (isInitialized s) (isReconnecting s) (connectionQuality s)
    (HEALTH_CHECK_INTERVAL s) (HEALTH_CHECK_TIMEOUT s) (rateLimitCounter s) (txBytes s)
    (rxBytes s) (txCount s) (rxCount s) (performanceMetrics s) (memoryLeakDetection s).
Definition set_messageQueue v (s : WebSocketService) : WebSocketService :=
  Build_WebSocketService (ws s) (reconnectTimer s) (healthCheckTimer s) v (listeners s)
    (reconnectCount s) (missedPings s) (lastPongTime s) (lastMessageTime s)
    (connectionStartTime s) (isInitialized s) (isReconnecting s) (connectionQuality s)
    (HEALTH_CHECK_INTERVAL s) (HEALTH_CHECK_TIMEOUT s) (rateLimitCounter s) (txBytes s)
    (rxBytes s) (txCount s) (rxCount s) (performanceMetrics s) (memoryLeakDetection s).
Definition set_listeners v (s : WebSocketService) : WebSocketService :=
  Build_WebSocketService (ws s) (reconnectTimer s) (healthCheckTimer s) (messageQueue s)
    v (reconnectCount s) (missedPings s) (lastPongTime s) (lastMessageTime s)
    (connectionStartTime s) (isInitialized s) (isReconnecting s) (connectionQuality s)
    (HEALTH_CHECK_INTERVAL s) (HEALTH_CHECK_TIMEOUT s) (rateLimitCounter s) (txBytes s)
    (rxBytes s) (txCount s) (rxCount s) (performanceMetrics s) (memoryLeakDetection s).
Definition set_reconnectCount v (s : WebSocketService) : WebSocketService :=
  Build_WebSocketService (ws s) (reconnectTimer s) (healthCheckTimer s) (messageQueue s)
    (listeners s) v (missedPings s) (lastPongTime s) (lastMessageTime s)
    (connectionStartTime s) (isInitialized s) (isReconnecting s) (connectionQuality s)
    (HEALTH_CHECK_INTERVAL s) (HEALTH_CHECK_TIMEOUT s) (rateLimitCounter s) (txBytes s)
    (rxBytes s) (txCount s) (rxCount s) (performanceMetrics s) (memoryLeakDetection s).
Definition set_missedPings v (s : WebSocketService) : WebSocketService :=
  Build_WebSocketService (ws s) (reconnectTimer s) (healthCheckTimer s) (messageQueue s)
    (listeners s) (reconnectCount s) v (lastPongTime s) (lastMessageTime s)
    (connectionStartTime s) (isInitialized s) (isReconnecting s) (connectionQuality s)
    (HEALTH_CHECK_INTERVAL s) (HEALTH_CHECK_TIMEOUT s) (rateLimitCounter s) (txBytes s)
    (rxBytes s) (txCount s) (rxCount s) (performanceMetrics s) (memoryLeakDetection s).
Definition set_lastPongTime v (s : WebSocketService) : WebSocketService :=
  Build_WebSocketService (ws s) (reconnectTimer s) (healthCheckTimer s) (messageQueue s)
    (listeners s) (reconnectCount s) (missedPings s) v (lastMessageTime s)
    (connectionStartTime s) (isInitialized s) (isReconnecting s) (connectionQuality s)
    (HEALTH_CHECK_INTERVAL s) (HEALTH_CHECK_TIMEOUT s) (rateLimitCounter s) (txBytes s)
    (rxBytes s) (txCount s) (rxCount s) (performanceMetrics s) (memoryLeakDetection s).
Definition set_lastMessageTime v (s : WebSocketService) : WebSocketService :=
  Build_WebSocketService (ws s) (reconnectTimer s) (healthCheckTimer s) (messageQueue s)
    (listeners s) (reconnectCount s) (missedPings s) (lastPongTime s) v
    (connectionStartTime s) (isInitialized s) (isReconnecting s) (connectionQuality s)
    (HEALTH_CHECK_INTERVAL s) (HEALTH_CHECK_TIMEOUT s) (rateLimitCounter s) (txBytes s)
    (rxBytes s) (txCount s) (rxCount s) (performanceMetrics s) (memoryLeakDetection s).
Definition set_connectionStartTime v (s : WebSocketService) : WebSocketService :=
  Build_WebSocketService (ws s) (reconnectTimer s) (healthCheckTimer s) (messageQueue s)
    (listeners s) (reconnectCount s) (missedPings s) (lastPongTime s)
    (lastMessageTime s) v (isInitialized s) (isReconnecting s) (connectionQuality s)
    (HEALTH_CHECK_INTERVAL s) (HEALTH_CHECK_TIMEOUT s) (rateLimitCounter s) (txBytes s)
    (rxBytes s) (txCount s) (rxCount s) (performanceMetrics s) (memoryLeakDetection s).
Definition set_isInitialized v (s : WebSocketService) : WebSocketService :=
  Build_WebSocketService (ws s) (reconnectTimer s) (healthCheckTimer s) (messageQueue s)
    (listeners s) (reconnectCount s) (missedPings s) (lastPongTime s)
    (lastMessageTime s) (connectionStartTime s) v (isReconnecting s)
    (connectionQuality s) (HEALTH_CHECK_INTERVAL s) (HEALTH_CHECK_TIMEOUT s)
    (rateLimitCounter s) (txBytes s) (rxBytes s) (txCount s) (rxCount s)
    (performanceMetrics s) (memoryLeakDetection s).
Definition set_isReconnecting v (s : WebSocketService) : WebSocketService :=
  Build_WebSocketService (ws s) (reconnectTimer s) (healthCheckTimer s) (messageQueue s)
    (listeners s) (reconnectCount s) (missedPings s) (lastPongTime s)
    (lastMessageTime s) (connectionStartTime s) (isInitialized s) v
    (connectionQuality s) (HEALTH_CHECK_INTERVAL s) (HEALTH_CHECK_TIMEOUT s)
    (rateLimitCounter s) (txBytes s) (rxBytes s) (txCount s) (rxCount s)
    (performanceMetrics s) (memoryLeakDetection s).
Definition set_connectionQuality v (s : WebSocketService) : WebSocketService :=
  Build_WebSocketService (ws s) (reconnectTimer s) (healthCheckTimer s) (messageQueue s)
    (listeners s) (reconnectCount s) (missedPings s) (lastPongTime s)
    (lastMessageTime s) (connectionStartTime s) (isInitialized s) (isReconnecting s) v
    (HEALTH_CHECK_INTERVAL s) (HEALTH_CHECK_TIMEOUT s) (rateLimitCounter s) (txBytes s)
    (rxBytes s) (txCount s) (rxCount s) (performanceMetrics s) (memoryLeakDetection s).
Definition set_HEALTH_CHECK_INTERVAL v (s : WebSocketService) : WebSocketService :=
  Build_WebSocketService (ws s) (reconnectTimer s) (healthCheckTimer s) (messageQueue s)
    (listeners s) (reconnectCount s) (missedPings s) (lastPongTime s)
    (lastMessageTime s) (connectionStartTime s) (isInitialized s) (isReconnecting s)
    (connectionQuality s) v (HEALTH_CHECK_TIMEOUT s) (rateLimitCounter s) (txBytes s)
    (rxBytes s) (txCount s) (rxCount s) (performanceMetrics s) (memoryLeakDetection s).
Definition set_HEALTH_CHECK_TIMEOUT v (s : WebSocketService) : WebSocketService :=
  Build_WebSocketService (ws s) (reconnectTimer s) (healthCheckTimer s) (messageQueue s)
    (listeners s) (reconnectCount s) (missedPings s) (lastPongTime s)
    (lastMessageTime s) (connectionStartTime s) (isInitialized s) (isReconnecting s)
    (connectionQuality s) (HEALTH_CHECK_INTERVAL s) v (rateLimitCounter s) (txBytes s)
    (rxBytes s) (txCount s) (rxCount s) (performanceMetrics s) (memoryLeakDetection s).
Definition set_rateLimitCounter v (s : WebSocketService) : WebSocketService :=
  Build_WebSocketService (ws s) (reconnectTimer s) (healthCheckTimer s) (messageQueue s)
    (listeners s) (reconnectCount s) (missedPings s) (lastPongTime s)
    (lastMessageTime s) (connectionStartTime s) (isInitialized s) (isReconnecting s)
    (connectionQuality s) (HEALTH_CHECK_INTERVAL s) (HEALTH_CHECK_TIMEOUT s) v
    (txBytes s) (rxBytes s) (txCount s) (rxCount s) (performanceMetrics s)
    (memoryLeakDetection s).
Definition set_txBytes v (s : WebSocketService) : WebSocketService :=
  Build_WebSocketService (ws s) (reconnectTimer s) (healthCheckTimer s) (messageQueue s)
    (listeners s) (reconnectCount s) (missedPings s) (lastPongTime s)
    (lastMessageTime s) (connectionStartTime s) (isInitialized s) (isReconnecting s)
    (connectionQuality s) (HEALTH_CHECK_INTERVAL s) (HEALTH_CHECK_TIMEOUT s)
    (rateLimitCounter s) v (rxBytes s) (txCount s) (rxCount s) (performanceMetrics s)
    (memoryLeakDetection s).
Definition set_rxBytes v (s : WebSocketService) : WebSocketService :=
  Build_WebSocketService (ws s) (reconnectTimer s) (healthCheckTimer s) (messageQueue s)
    (listeners s) (reconnectCount s) (missedPings s) (lastPongTime s)
    (lastMessageTime s) (connectionStartTime s) (isInitialized s) (isReconnecting s)
    (connectionQuality s) (HEALTH_CHECK_INTERVAL s) (HEALTH_CHECK_TIMEOUT s)
    (rateLimitCounter s) (txBytes s) v (txCount s) (rxCount s) (performanceMetrics s)
    (memoryLeakDetection s).
Definition set_txCount v (s : WebSocketService) : WebSocketService :=
  Build_WebSocketService (ws s) (reconnectTimer s) (healthCheckTimer s) (messageQueue s)
    (listeners s) (reconnectCount s) (missedPings s) (lastPongTime s)
    (lastMessageTime s) (connectionStartTime s) (isInitialized s) (isReconnecting s)
    (connectionQuality s) (HEALTH_CHECK_INTERVAL s) (HEALTH_CHECK_TIMEOUT s)
    (rateLimitCounter s) (txBytes s) (rxBytes s) v (rxCount s) (performanceMetrics s)
    (memoryLeakDetection s).
Definition set_rxCount v (s : WebSocketService) : WebSocketService :=
  Build_WebSocketService (ws s) (reconnectTimer s) (healthCheckTimer s) (messageQueue s)
    (listeners s) (reconnectCount s) (missedPings s) (lastPongTime s)
    (lastMessageTime s) (connectionStartTime s) (isInitialized s) (isReconnecting s)
    (connectionQuality s) (HEALTH_CHECK_INTERVAL s) (HEALTH_CHECK_TIMEOUT s)
    (rateLimitCounter s) (txBytes s) (rxBytes s) (txCount s) v (performanceMetrics s)
    (memoryLeakDetection s).
Definition set_performanceMetrics v (s : WebSocketService) : WebSocketService :=
  Build_WebSocketService (ws s) (reconnectTimer s) (healthCheckTimer s) (messageQueue s)
    (listeners s) (reconnectCount s) (missedPings s) (lastPongTime s)
    (lastMessageTime s) (connectionStartTime s) (isInitialized s) (isReconnecting s)
    (connectionQuality s) (HEALTH_CHECK_INTERVAL s) (HEALTH_CHECK_TIMEOUT s)
    (rateLimitCounter s) (txBytes s) (rxBytes s) (txCount s) (rxCount s) v
    (memoryLeakDetection s).
Definition set_memoryLeakDetection v (s : WebSocketService) : WebSocketService :=
  Build_WebSocketService (ws s) (reconnectTimer s) (healthCheckTimer s) (messageQueue s)
    (listeners s) (reconnectCount s) (missedPings s) (lastPongTime s)
    (lastMessageTime s) (connectionStartTime s) (isInitialized s) (isReconnecting s)
    (connectionQuality s) (HEALTH_CHECK_INTERVAL s) (HEALTH_CHECK_TIMEOUT s)
    (rateLimitCounter s) (txBytes s) (rxBytes s) (txCount s) (rxCount s)
    (performanceMetrics s) v.

Definition set_svc v (w : World) : World :=
  Build_World v (sockets w) (timers w) (nextTimerId w) (now w) (sendScript w)
    (constructorThrows w) (hasWindow w) (usedJSHeapSize w) (console w).
Definition set_sockets v (w : World) : World :=
  Build_World (svc w) v (timers w) (nextTimerId w) (now w) (sendScript w)
    (constructorThrows w) (hasWindow w) (usedJSHeapSize w) (console w).
Definition set_timers v (w : World) : World :=
  Build_World (svc w) (sockets w) v (nextTimerId w) (now w) (sendScript w)
    (constructorThrows w) (hasWindow w) (usedJSHeapSize w) (console w).
Definition set_nextTimerId v (w : World) : World :=
  Build_World (svc w) (sockets w) (timers w) v (now w) (sendScript w)
    (constructorThrows w) (hasWindow w) (usedJSHeapSize w) (console w).
Definition set_now v (w : World) : World :=
  Build_World (svc w) (sockets w) (timers w) (nextTimerId w) v (sendScript w)
    (constructorThrows w) (hasWindow w) (usedJSHeapSize w) (console w).
Definition set_sendScript v (w : World) : World :=
  Build_World (svc w) (sockets w) (timers w) (nextTimerId w) (now w) v
    (constructorThrows w) (hasWindow w) (usedJSHeapSize w) (console w).
Definition set_constructorThrows v (w : World) : World :=
  Build_World (svc w) (sockets w) (timers w) (nextTimerId w) (now w) (sendScript w) v
    (hasWindow w) (usedJSHeapSize w) (console w).
Definition set_hasWindow v (w : World) : World :=
  Build_World (svc w) (sockets w) (timers w) (nextTimerId w) (now w) (sendScript w)
    (constructorThrows w) v (usedJSHeapSize w) (console w).
Definition set_usedJSHeapSize v (w : World) : World :=
  Build_World (svc w) (sockets w) (timers w) (nextTimerId w) (now w) (sendScript w)
    (constructorThrows w) (hasWindow w) v (console w).
Definition set_console v (w : World) : World :=
  Build_World (svc w) (sockets w) (timers w) (nextTimerId w) (now w) (sendScript w)
    (constructorThrows w) (hasWindow w) (usedJSHeapSize w) v.

Definition upd (f : WebSocketService -> WebSocketService) (w : World) : World :=
  set_svc (f (svc w)) w.

(** A call either returns or raises; either way the mutations it made stay. *)
Inductive Result : Type :=
| Returns (w : World)
| Throws (e : Exn) (w : World).

Definition andThen (r : Result) (k : World -> Result) : Result :=
  match r with
  | Returns w => k w
  | Throws e w => Throws e w
  end.

Notation "r >>= k" := (andThen r k) (at level 50, left associativity).

Definition try_catch (r : Result) (handler : Exn -> World -> Result) : Result :=
  match r with
  | Returns w => Returns w
  | Throws e w => handler e w
  end.

Definition world_of (r : Result) : World :=
  match r with
  | Returns w => w
  | Throws _ w => w
  end.

Definition returns (r : Result) : bool :=
  match r with
  | Returns _ => true
  | Throws _ _ => false
  end.

(** ** Browser primitives *)

Fixpoint list_update {A : Type} (l : list A) (n : nat) (f : A -> A) : list A :=
  match l, n with
  | [], _ => []
  | x :: l', O => f x :: l'
  | x :: l', S n' => x :: list_update l' n' f
  end.

Definition socket_state (w : World) (sid : nat) : option ReadyState :=
  option_map readyState (nth_error (sockets w) sid).

(** [this.ws?.readyState] *)
Definition ws_readyState (w : World) : option ReadyState :=
  match ws (svc w) with
  | Some sid => socket_state w sid
  | None => None
  end.

(** The socket behind [this.ws] when [this.ws?.readyState === WebSocket.OPEN]. *)
Definition open_socket (w : World) : option nat :=
  match ws (svc w) with
  | Some sid =>
      match socket_state w sid with
      | Some OPEN => Some sid
      | _ => None
      end
  | None => None
  end.

(** [this.ws?.readyState === WebSocket.OPEN] *)
Definition ws_is_open (w : World) : bool :=
  match open_socket w with
  | Some _ => true
  | None => false
  end.

(** [new WebSocket(url)]: a fresh socket in state CONNECTING. *)
Definition new_WebSocket (w : World) : nat * World :=
  (length (sockets w),
   set_sockets (sockets w ++ [{| readyState := CONNECTING; sent := [] |}]) w).

(** [ws.close()]: starts the closing handshake unless it has started already. *)
Definition ws_close (sid : nat) (w : World) : World :=
  set_sockets
    (list_update (sockets w) sid
       (fun k => match readyState k with
                 | CONNECTING | OPEN => {| readyState := CLOSING; sent := sent k |}
                 | CLOSING | CLOSED => k
                 end))
    w.

Definition accept_frame (data : string) (after : option ReadyState) (k : Socket) : Socket :=
  {| readyState := match after with Some st => st | None => readyState k end;
     sent := sent k ++ [data] |}.

(** [ws.send(data)] *)
Definition ws_send (sid : nat) (data : string) (w : World) : Result :=
  match sendScript w with
  | [] => Returns (set_sockets (list_update (sockets w) sid (accept_frame data None)) w)
  | SendOk :: rest =>
      Returns (set_sockets (list_update (sockets w) sid (accept_frame data None))
                 (set_sendScript rest w))
  | SendCloses :: rest =>
      Returns (set_sockets (list_update (sockets w) sid (accept_frame data (Some CLOSING)))
                 (set_sendScript rest w))
  | SendThrows :: rest => Throws TransportError (set_sendScript rest w)
  end.

(** [setTimeout] ([every = None]) and [setInterval] ([every = Some interval]). *)
Definition set_timer (kind : TimerKind) (delay : Z) (every : option Z) (w : World)
  : nat * World :=
  let id := nextTimerId w in
  (id,
   set_nextTimerId (S id)
     (set_timers
        (timers w ++ [{| timerId := id; timerKind := kind; due := now w + delay;
                         period := every |}])
        w)).

(** [clearTimeout] / [clearInterval] *)
Definition clear_timer (id : nat) (w : World) : World :=
  set_timers (filter (fun t => negb (Nat.eqb (timerId t) id)) (timers w)) w.

Definition log (message : LogMsg) (type : LogLevel) (w : World) : World :=
  set_console (console w ++ [(type, message)]) w.

(** ** The methods of [WebSocketService] *)

Definition debugMemoryUsage (w : World) : World :=
  log (LogDebugMemory (length (messageQueue (svc w))) (length (listeners (svc w)))
         (lastMessageTime (svc w)) (now w - connectionStartTime (svc w)))
      info w.

Definition periodicCleanup (w : World) : World :=
  let w := upd (set_txBytes 0) w in
  let w := upd (set_rxBytes 0) w in
  let w := upd (set_txCount 0%nat) w in
  let w := upd (set_rxCount 0%nat) w in
  let w := upd (set_performanceMetrics {| failureRate := 0; memoryUsage := 0 |}) w in
  log (LogPeriodicCleanup (length (listeners (svc w)))) info w.

Definition getMemoryUsage (w : World) : Z :=
  match usedJSHeapSize w with
  | Some used => used
  | None => 0
  end.

Definition checkForMemoryLeaks (w : World) : World :=
  let currentMemory := getMemoryUsage w in
  let mld := memoryLeakDetection (svc w) in
  let w :=
    if currentMemory >? lastMemoryUsage mld then
      let increasing := S (increasingCount mld) in
      let w := upd (set_memoryLeakDetection
                      {| lastMemoryUsage := lastMemoryUsage mld;
                         checkCount := checkCount mld;
                         increasingCount := increasing |}) w in
      if (5 <=? increasing)%nat then
        debugMemoryUsage (log (LogLeak increasing) warn w)
      else w
    else
      upd (set_memoryLeakDetection
             {| lastMemoryUsage := lastMemoryUsage mld;
                checkCount := checkCount mld;
                increasingCount := 0 |}) w in
  let mld := memoryLeakDetection (svc w) in
  upd (set_memoryLeakDetection
         {| lastMemoryUsage := currentMemory;
            checkCount := S (checkCount mld);
            increasingCount := increasingCount mld |}) w.

(** [this.messageQueue.slice(-this.MAX_QUEUE_SIZE / 2)] keeps the last 50. *)
Definition cleanupResources (w : World) : World :=
  let q := messageQueue (svc w) in
  let w :=
    if (MAX_QUEUE_SIZE / 2 <? length q)%nat then
      log LogQueueTrimmed warn
        (upd (set_messageQueue (skipn (length q - MAX_QUEUE_SIZE / 2) q)) w)
    else w in
  if (100 <? length (listeners (svc w)))%nat then log LogTooManyListeners warn w else w.

(** The report is one console entry; its text, the memory breakdown it
    prints and the "high unaccounted memory" warning computed from that
    breakdown are not modelled. *)
Definition logPerformanceReport (w : World) : World :=
  log (LogPerformanceReport (length (messageQueue (svc w))) (length (listeners (svc w))))
      info w.

Definition checkPerformance (w : World) : World :=
  let used := getMemoryUsage w in
  let w := upd (fun s => set_performanceMetrics
                  {| failureRate := failureRate (performanceMetrics s);
                     memoryUsage := used |} s) w in
  let w :=
    if memoryUsage (performanceMetrics (svc w)) >? MAX_MEMORY_USAGE then
      cleanupResources (log LogMemoryExceeded warn w)
    else w in
  let w := upd (set_txCount 0%nat) w in
  let w := upd (set_rxCount 0%nat) w in
  logPerformanceReport w.

Definition adjustForPoorConnection (w : World) : World :=
  let w := upd (set_connectionQuality poor) w in
  let w := upd (set_HEALTH_CHECK_INTERVAL 45000) w in
  let w := upd (set_HEALTH_CHECK_TIMEOUT 10000) w in
  log LogPoorConnection warn w.

Definition adjustForGoodConnection (w : World) : World :=
  let w := upd (set_connectionQuality good) w in
  let w := upd (set_HEALTH_CHECK_INTERVAL 30000) w in
  let w := upd (set_HEALTH_CHECK_TIMEOUT 5000) w in
  log LogGoodConnection info w.

Definition Qltb (a b : Q) : bool := negb (Qle_bool b a).

(** [effectiveType] and [downlink] are [None] where the host leaves them
    undefined; a comparison with undefined is false. *)
Definition handleNetworkQualityChange
  (effectiveType : option string) (downlink : option Q) (w : World) : World :=
  let w := log LogNetworkQuality info w in
  let typeIs t := match effectiveType with Some e => String.eqb e t | None => false end in
  let below := match downlink with Some d => Qltb d (1 # 2) | None => false end in
  let above := match downlink with Some d => Qltb (3 # 2) d | None => false end in
  if typeIs "slow-2g"%string || typeIs "2g"%string || below then
    adjustForPoorConnection w
  else if above then adjustForGoodConnection w
  else w.

Definition stopHealthChecks (w : World) : World :=
  match healthCheckTimer (svc w) with
  | Some id => upd (set_healthCheckTimer None) (clear_timer id w)
  | None => w
  end.

Definition disconnect (w : World) : World :=
  let w := stopHealthChecks w in
  let w :=
    match reconnectTimer (svc w) with
    | Some id => upd (set_reconnectTimer None) (clear_timer id w)
    | None => w
    end in
  match ws (svc w) with
  | Some sid => upd (set_ws None) (ws_close sid w)
  | None => w
  end.

(** [Math.pow(base, n)] for a counter [n].  The class only calls it with base
    1.5, where the double result is exact up to n = 33; from n = 6 on the
    product with 3000 is above the cap and [Math.min] returns the cap, so the
    rational computation and the floating-point one give the same delay. *)
Fixpoint Math_pow (base : Q) (n : nat) : Q :=
  match n with
  | O => 1
  | S n' => base * Math_pow base n'
  end.

Definition calculateBackoffDelay (s : WebSocketService) : Q :=
  Qmin (RECONNECT_INTERVAL * Math_pow (3 # 2) (reconnectCount s)) MAX_BACKOFF_DELAY.

Definition checkRateLimit (w : World) : bool * World :=
  let w :=
    if now w - timestamp (rateLimitCounter (svc w)) >? RATE_LIMIT_RESET then
      upd (set_rateLimitCounter {| timestamp := now w; count := 0 |}) w
    else w in
  let rl := rateLimitCounter (svc w) in
  if (MAX_RATE_LIMIT_ATTEMPTS <=? count rl)%nat then
    (false, log LogRateLimit error w)
  else
    (true, upd (set_rateLimitCounter {| timestamp := timestamp rl; count := S (count rl) |}) w).

Definition handleError (w : World) : World :=
  upd (set_isReconnecting false) (log LogConnectionError error w).

Definition connect (w : World) : World :=
  if isReconnecting (svc w) || ws_is_open w then w
  else if negb (hasWindow w) then w
  else
    let (permitted, w) := checkRateLimit w in
    if negb permitted then w
    else if constructorThrows w then
      handleError (log LogConstructionFailed error w)
    else
      let (sid, w) := new_WebSocket w in
      let w := upd (set_ws (Some sid)) w in
      let w := upd (set_connectionStartTime (now w)) w in
      let w := upd (set_isReconnecting true) w in
      upd (set_isInitialized true) w.

Definition startHealthChecks (w : World) : World :=
  let w := stopHealthChecks w in
  let interval := HEALTH_CHECK_INTERVAL (svc w) in
  let (id, w) := set_timer HealthInterval interval (Some interval) w in
  upd (set_healthCheckTimer (Some id)) w.

Definition attemptReconnect (w : World) : World :=
  if (reconnectCount (svc w) <? MAX_RECONNECT_ATTEMPTS)%nat then
    let w := upd (fun s => set_reconnectCount (S (reconnectCount s)) s) w in
    let delay := calculateBackoffDelay (svc w) in
    (* setTimeout keeps the integer part of a fractional delay *)
    let (id, w) := set_timer ReconnectTimeout (Qfloor delay) None w in
    upd (set_reconnectTimer (Some id)) w
  else w.

Definition reconnect (w : World) : World :=
  let w := disconnect w in
  let w := upd (set_reconnectCount 0%nat) w in
  connect w.

Definition handleClose (w : World) : World :=
  let w := log (LogClosed (now w - connectionStartTime (svc w))) warn w in
  let w := stopHealthChecks w in
  let w := upd (set_isReconnecting false) w in
  attemptReconnect w.

Definition handleNetworkChange (isOnline : bool) (w : World) : World :=
  if isOnline then reconnect (log LogNetworkOnline info w)
  else disconnect (log LogNetworkOffline warn w).

Definition checkZombieConnection (w : World) : World :=
  if ws_is_open w && (now w - lastMessageTime (svc w) >? ZOMBIE_CONNECTION_TIMEOUT) then
    reconnect (log LogZombie warn w)
  else w.

(** [!this.ws || this.ws.readyState !== WebSocket.OPEN] is the negation of
    [this.ws?.readyState === WebSocket.OPEN]. *)
Definition handleWindowFocus (w : World) : World :=
  if negb (ws_is_open w) then checkZombieConnection (log LogWindowFocused info w)
  else w.

(** [visible] is [document.visibilityState === "visible"]. *)
Definition handleVisibilityChange (visible : bool) (w : World) : World :=
  if visible then checkZombieConnection w else w.

Definition queueMessage (message : Message) (w : World) : World :=
  if (length (messageQueue (svc w)) <? MAX_QUEUE_SIZE)%nat then
    upd (fun s => set_messageQueue (messageQueue s ++ [message]) s) w
  else log LogQueueOverflow warn w.

(** [typeof message === "string" ? message : JSON.stringify(message)];
    [None] when [JSON.stringify] raises. *)
Definition stringify (message : Message) : option string :=
  match message with
  | MText s => Some s
  | MObject o => JSON_stringify o
  end.

(** [getMessageSize] of a string: two bytes per UTF-16 code unit. *)
Definition getMessageSize (data : string) : Z := Z.of_nat (String.length data) * 2.

Definition send (message : Message) (w : World) : Result :=
  match stringify message with
  | None => Throws TypeError w
  | Some messageStr =>
      if Z.of_nat (String.length messageStr) >? MAX_MESSAGE_SIZE then
        Returns (log LogTooLarge error w)
      else
        match open_socket w with
        | Some sid =>
            try_catch
              (ws_send sid messageStr w >>= fun w =>
               let w := upd (fun s => set_txCount (S (txCount s)) s) w in
               Returns (upd (fun s => set_txBytes (txBytes s + getMessageSize messageStr) s) w))
              (fun _ w => Returns (queueMessage message (log LogSendError error w)))
        | None => Returns (queueMessage message w)
        end
  end.

(** The [while] loop of [processMessageQueue], unrolled [fuel] times. *)
Fixpoint processMessageQueue_loop (fuel : nat) (w : World) : Result :=
  match fuel with
  | O => Returns w
  | S fuel' =>
      match messageQueue (svc w) with
      | [] => Returns w
      | message :: rest =>
          if ws_is_open w then
            let w := upd (set_messageQueue rest) w in
            if truthy message then send message w >>= processMessageQueue_loop fuel'
            else processMessageQueue_loop fuel' w
          else Returns w
      end
  end.

(** Every turn of the loop either shortens the queue or uses up one scripted
    outcome of [ws.send], so on the transports of this embedding, where only
    scripted calls raise, this many turns are enough
    ([processMessageQueue_exits] below). *)
Definition processMessageQueue (w : World) : Result :=
  processMessageQueue_loop (length (messageQueue (svc w)) + length (sendScript w)) w.

Definition handleOpen (w : World) : Result :=
  let w := log LogEstablished info w in
  let w := upd (set_isReconnecting false) w in
  let w := upd (set_reconnectCount 0%nat) w in
  let w := upd (set_missedPings 0%nat) w in
  let w := upd (set_lastPongTime (now w)) w in
  let w := upd (set_lastMessageTime (now w)) w in
  let w := startHealthChecks w in
  processMessageQueue w.

Definition handlePong (w : World) : World :=
  let w := upd (set_lastPongTime (now w)) w in
  let w := upd (set_missedPings 0%nat) w in
  log LogPong info w.

Definition handleBinaryMessage (byteLength : Z) (w : World) : World :=
  log (LogBinary byteLength) info w.

(** The listeners are callbacks of the collaborators; what they do is outside
    the class, and an exception of theirs is caught inside the loop.  Left
    out: the console entry that the [catch] writes for a listener that
    raises, and whatever a listener does by calling back into the service. *)
Definition notifyListeners (w : World) : World := w.

Definition inbound_size (data : Inbound) : Z :=
  match data with
  | InBinary byteLength => byteLength
  | InPong raw | InJson raw | InMalformed raw => getMessageSize raw
  end.

(** The heap figure does not move within one callback, so the memory
    bookkeeping after the [try] adds nothing and logs nothing. *)
Definition handleMessage (data : Inbound) (w : World) : World :=
  let messageSize := inbound_size data in
  let w := if messageSize >? 1024 * 1024 then log LogLargeMessage warn w else w in
  let w := upd (set_lastMessageTime (now w)) w in
  let w := upd (fun s => set_rxCount (S (rxCount s)) s) w in
  let w := upd (fun s => set_rxBytes (rxBytes s + messageSize) s) w in
  match data with
  | InBinary byteLength => handleBinaryMessage byteLength w
  | InPong _ => handlePong w
  | InJson _ => notifyListeners w
  | InMalformed _ =>
      let w := log LogProcessingError error w in
      upd (fun s => set_performanceMetrics
             {| failureRate := S (failureRate (performanceMetrics s));
                memoryUsage := memoryUsage (performanceMetrics s) |} s) w
  end.

Definition performHealthCheck (w : World) : Result :=
  let timeSinceLastPong := now w - lastPongTime (svc w) in
  let ping_if_open (w : World) : Result :=
    if ws_is_open w then send ping (log LogSendingPing info w) else Returns w in
  if timeSinceLastPong >? HEALTH_CHECK_TIMEOUT (svc w) then
    let w := upd (fun s => set_missedPings (S (missedPings s)) s) w in
    let w := log (LogMissedPing (missedPings (svc w))) warn w in
    if (MAX_MISSED_PINGS <=? missedPings (svc w))%nat then
      Returns (reconnect (log LogDegraded error w))
    else ping_if_open w
  else ping_if_open w.

Definition addMessageListener (listener : nat) (w : World) : World :=
  if existsb (Nat.eqb listener) (listeners (svc w)) then w
  else upd (fun s => set_listeners (listeners s ++ [listener]) s) w.

Definition removeMessageListener (listener : nat) (w : World) : World :=
  upd (fun s => set_listeners
         (filter (fun l => negb (Nat.eqb l listener)) (listeners s)) s) w.

Definition getConnectionState (w : World) : option ReadyState := ws_readyState w.

Definition isConnected (w : World) : bool := ws_is_open w.

(** ** Events *)

(** What can happen to the service: a call of a public method by a
    collaborator, an event of a socket it created, a timer coming due, the
    clock moving on, a lifecycle signal of the page, or a telemetry interval
    of the constructor. *)
Inductive Event : Type :=
| CallConnect
| CallDisconnect
| CallReconnect
| CallSend (message : Message)
| CallAddMessageListener (listener : nat)
| CallRemoveMessageListener (listener : nat)
| SocketOpen (sid : nat)
| SocketClose (sid : nat)
| SocketError (sid : nat)
| SocketMessage (sid : nat) (data : Inbound)
| TimerFires (id : nat)
| TimePasses (ms : Z)
| WindowOnline
| WindowOffline
| WindowFocus
| VisibilityChange (visible : bool)
| NetworkQualityChange (effectiveType : option string) (downlink : option Q)
| PerformanceTick
| CleanupTick
| HeapSize (used : option Z).

Definition set_readyState (sid : nat) (st : ReadyState) (w : World) : World :=
  set_sockets
    (list_update (sockets w) sid (fun k => {| readyState := st; sent := sent k |})) w.

(** The callback of a timer.  The [connect] and [performHealthCheck] closures
    are bound to the service, whichever socket is current when they run. *)
Definition timer_callback (kind : TimerKind) (w : World) : World :=
  match kind with
  | ReconnectTimeout =>
      connect (log (LogReconnecting (reconnectCount (svc w))) info w)
  | HealthInterval => world_of (performHealthCheck w)
  end.

(** A pending timer runs once it is due: a timeout leaves the pending set, an
    interval is re-armed one period later. *)
Definition fire_timer (id : nat) (w : World) : World :=
  match find (fun t => Nat.eqb (timerId t) id) (timers w) with
  | Some t =>
      if due t <=? now w then
        let w :=
          match period t with
          | Some p =>
              set_timers
                (map (fun t' => if Nat.eqb (timerId t') id
                                then {| timerId := id; timerKind := timerKind t';
                                        due := due t' + p; period := period t' |}
                                else t') (timers w)) w
          | None => clear_timer id w
          end in
        timer_callback (timerKind t) w
      else w
  | None => w
  end.

(** One event.  The four socket callbacks were bound to the service by
    [connect], so they run for every socket it ever created, the current one
    or not.  An exception that escapes a callback ends that callback only. *)
Definition step (e : Event) (w : World) : World :=
  match e with
  | CallConnect => connect w
  | CallDisconnect => disconnect w
  | CallReconnect => reconnect w
  | CallSend message => world_of (send message w)
  | CallAddMessageListener l => addMessageListener l w
  | CallRemoveMessageListener l => removeMessageListener l w
  | SocketOpen sid =>
      match socket_state w sid with
      | Some CONNECTING => world_of (handleOpen (set_readyState sid OPEN w))
      | _ => w
      end
  | SocketClose sid =>
      match socket_state w sid with
      | Some CONNECTING | Some OPEN | Some CLOSING =>
          handleClose (set_readyState sid CLOSED w)
      | _ => w
      end
  | SocketError sid =>
      match socket_state w sid with
      | Some CONNECTING | Some OPEN | Some CLOSING => handleError w
      | _ => w
      end
  | SocketMessage sid data =>
      match socket_state w sid with
      | Some OPEN | Some CLOSING => handleMessage data w
      | _ => w
      end
  | TimerFires id => fire_timer id w
  | TimePasses ms => set_now (now w + ms) w
  | WindowOnline => handleNetworkChange true w
  | WindowOffline => handleNetworkChange false w
  | WindowFocus => handleWindowFocus w
  | VisibilityChange visible => handleVisibilityChange visible w
  | NetworkQualityChange effectiveType downlink =>
      handleNetworkQualityChange effectiveType downlink w
  | PerformanceTick => checkForMemoryLeaks (checkPerformance w)
  | CleanupTick => periodicCleanup w
  | HeapSize used => set_usedJSHeapSize used w
  end.

Definition run (events : list Event) (w : World) : World :=
  fold_left (fun w e => step e w) events w.

(** The service as its field initialisers leave it, created at time [t0] in
    a browser whose [ws.send] calls will behave as [script] says. *)
Definition initial_service (t0 : Z) : WebSocketService :=
  {| ws := None;
     reconnectTimer := None;
     healthCheckTimer := None;
     messageQueue := [];
     listeners := [];
     reconnectCount := 0;
     missedPings := 0;
     lastPongTime := t0;
     lastMessageTime := t0;
     connectionStartTime := 0;
     isInitialized := false;
     isReconnecting := false;
     connectionQuality := good;
     HEALTH_CHECK_INTERVAL := 30000;
     HEALTH_CHECK_TIMEOUT := 5000;
     rateLimitCounter := {| timestamp := t0; count := 0 |};
     txBytes := 0;
     rxBytes := 0;
     txCount := 0;
     rxCount := 0;
     performanceMetrics := {| failureRate := 0; memoryUsage := 0 |};
     memoryLeakDetection :=
       {| lastMemoryUsage := 0; checkCount := 0; increasingCount := 0 |} |}.

Definition initial_world (t0 : Z) (script : list SendOutcome) : World :=
  {| svc := initial_service t0;
     sockets := [];
     timers := [];
     nextTimerId := 1;
     now := t0;
     sendScript := script;
     constructorThrows := false;
     hasWindow := true;
     usedJSHeapSize := None;
     console := [] |}.

(** The timers of a kind that are still pending. *)
Definition pending (kind : TimerKind) (w : World) : list Timer :=
  filter (fun t => match timerKind t, kind with
                   | ReconnectTimeout, ReconnectTimeout => true
                   | HealthInterval, HealthInterval => true
                   | _, _ => false
                   end) (timers w).

Definition transmitted (w : World) (sid : nat) : list string :=
  match nth_error (sockets w) sid with
  | Some k => sent k
  | None => []
  end.

(** The event is the open of a socket that was connecting. *)
Definition successful_open (e : Event) (w : World) : bool :=
  match e with
  | SocketOpen sid =>
      match socket_state w sid with
      | Some CONNECTING => true
      | _ => false
      end
  | _ => false
  end.

(** The test of [checkZombieConnection]. *)
Definition zombie (w : World) : bool :=
  ws_is_open w && (now w - lastMessageTime (svc w) >? ZOMBIE_CONNECTION_TIMEOUT).

(** A health check in [w] counts a missed probe and reaches the tolerance. *)
Definition strikes_out (w : World) : bool :=
  (now w - lastPongTime (svc w) >? HEALTH_CHECK_TIMEOUT (svc w)) &&
  (MAX_MISSED_PINGS <=? S (missedPings (svc w)))%nat.

Definition is_health (kind : TimerKind) : bool :=
  match kind with
  | HealthInterval => true
  | ReconnectTimeout => false
  end.

(** The event makes the service run [reconnect]: the public call, the
    network-online signal, a visibility change that finds a zombie, or a due
    health check that reaches the missed-probe tolerance. *)
Definition runs_reconnect (e : Event) (w : World) : bool :=
  match e with
  | CallReconnect | WindowOnline => true
  | VisibilityChange visible => visible && zombie w
  | TimerFires id =>
      match find (fun t => Nat.eqb (timerId t) id) (timers w) with
      | Some t => (due t <=? now w) && is_health (timerKind t) && strikes_out w
      | None => false
      end
  | _ => false
  end.

(** A run of [checkRateLimit] calls, the clock moving on by [gap] before each:
    the verdicts, oldest first, and the world they leave. *)
Fixpoint attempts_after (gaps : list Z) (w : World) : list bool * World :=
  match gaps with
  | [] => ([], w)
  | gap :: gaps' =>
      let (permitted, w1) := checkRateLimit (set_now (now w + gap) w) in
      let (verdicts, w2) := attempts_after gaps' w1 in
      (permitted :: verdicts, w2)
  end.

Definition total (gaps : list Z) : Z := fold_right Z.add 0 gaps.

(** A connection attempt that fails with an error event, [n] times over. *)
Fixpoint failed_attempts (n : nat) (first_sid : nat) : list Event :=
  match n with
  | O => []
  | S n' => CallConnect :: SocketError first_sid :: failed_attempts n' (S first_sid)
  end.

(** A message that [send] neither fails to serialise nor drops for its size:
    the only kind [send] ever passes to [queueMessage]. *)
Definition sendable (message : Message) : bool :=
  match stringify message with
  | Some messageStr => negb (Z.of_nat (String.length messageStr) >? MAX_MESSAGE_SIZE)
  | None => false
  end.

(** The text [send] hands to the transport for a message. *)
Definition frame_of (message : Message) : string :=
  match stringify message with
  | Some messageStr => messageStr
  | None => EmptyString
  end.

Definition queue_bounded (w : World) : Prop :=
  (length (messageQueue (svc w)) <= MAX_QUEUE_SIZE)%nat.

Definition queue_sendable (w : World) : Prop :=
  Forall (fun m => sendable m = true) (messageQueue (svc w)).

(** The bound on the turns of the drain loop that [processMessageQueue] uses. *)
Definition drain_budget (w : World) : nat :=
  length (messageQueue (svc w)) + length (sendScript w).


(** How many console entries satisfy [p]. *)
Definition logged (p : LogMsg -> bool) (w : World) : nat :=
  length (filter (fun entry => p (snd entry)) (console w)).

Definition is_degraded (msg : LogMsg) : bool :=
  match msg with
  | LogDegraded => true
  | _ => false
  end.

Definition is_sending_ping (msg : LogMsg) : bool :=
  match msg with
  | LogSendingPing => true
  | _ => false
  end.

(** Every pending health-check interval is the one the service holds the
    handle of. *)
Definition health_tracked (w : World) : Prop :=
  forall t, In t (timers w) -> timerKind t = HealthInterval ->
            healthCheckTimer (svc w) = Some (timerId t).

(** Timer ids are handed out in increasing order. *)
Definition timers_fresh (w : World) : Prop :=
  forall t, In t (timers w) -> (timerId t < nextTimerId w)%nat.

Definition timers_ok (w : World) : Prop := timers_fresh w /\ health_tracked w.

(** What the timer invariants speak of. *)
Definition timer_state (w : World) : list Timer * nat * option nat :=
  (timers w, nextTimerId w, healthCheckTimer (svc w)).

(** The service after [n] reconnect attempts have been counted. *)
Definition with_attempts (n : nat) : WebSocketService :=
  set_reconnectCount n (initial_service 0).

(** ** Scenarios *)

(** The heap grows by one byte before each of five telemetry ticks. *)
Definition five_growing_ticks : list Event :=
  [HeapSize (Some 1); PerformanceTick; HeapSize (Some 2); PerformanceTick;
   HeapSize (Some 3); PerformanceTick; HeapSize (Some 4); PerformanceTick;
   HeapSize (Some 5); PerformanceTick].

(** A connection opens at time 0 and nothing arrives for 100 seconds. *)
Definition silent_connection : World :=
  run [CallConnect; SocketOpen 0; TimePasses 100000] (initial_world 0 []).

(** The timer a reconnect attempt leaves pending. *)
Definition reconnect_timeout (id : nat) (at_ms : Z) : Timer :=
  {| timerId := id; timerKind := ReconnectTimeout; due := at_ms; period := None |}.

Definition readyStates (w : World) : list ReadyState := map readyState (sockets w).

(** The world in which the open event of socket 0 finds the service: A, B
    and C were sent while it was connecting. *)
Definition three_queued (script : list SendOutcome) : World :=
  set_readyState 0 OPEN
    (run [CallConnect; CallSend (MText "A"); CallSend (MText "B"); CallSend (MText "C")]
         (initial_world 0 script)).

(** A connection opens at time 0 and no pong ever arrives: the first health
    check (30 s) counts one missed probe and pings; the world below is the one
    the second health check (60 s) finds. *)
Definition two_silent_ticks : World :=
  run [CallConnect; SocketOpen 0; TimePasses 30000; TimerFires 1; TimePasses 30000]
      (initial_world 0 []).

(** ** The collaborators *)

(** The effect of [WebSocketProvider] (providers/websocket): on mount it
    connects unless the service reports itself connected; its cleanup
    disconnects. *)
Definition provider_mount (w : World) : World :=
  if isConnected w then w else connect w.

Definition provider_unmount (w : World) : World := disconnect w.

(** The effect of [ExampleComponent] (app/component): it subscribes its
    memoised [handleMessage] callback on mount and unsubscribes it in the
    cleanup. *)
Definition component_mount (handleMessage : nat) (w : World) : World :=
  addMessageListener handleMessage w.

Definition component_unmount (handleMessage : nat) (w : World) : World :=
  removeMessageListener handleMessage w.

(** The events that can change the outbound queue: a [send], an open (the
    drain), a timer (the health check's ping may fall back to the queue) and
    the telemetry tick (the memory trim). *)
Definition touches_queue (e : Event) : bool :=
  match e with
  | CallSend _ | SocketOpen _ | TimerFires _ | PerformanceTick => true
  | _ => false
  end.

(** The socket can still deliver a close or an error event. *)
Definition alive (st : option ReadyState) : bool :=
  match st with
  | Some CONNECTING | Some OPEN | Some CLOSING => true
  | _ => false
  end.

(** A connection was replaced by [reconnect], the replacement has opened, and
    the close event of the old socket has not arrived yet. *)
Definition replaced_connection : World :=
  run [CallConnect; SocketOpen 0; CallReconnect; SocketOpen 1] (initial_world 0 []).

(** An upper bound on how far the clock moves forward during the events. *)
Fixpoint elapsed (events : list Event) : Z :=
  match events with
  | [] => 0
  | TimePasses ms :: rest => Z.max 0 ms + elapsed rest
  | _ :: rest => elapsed rest
  end.

(** What the rate limiter reads and what it guards. *)
Definition rate_view (w : World) : Z * RateLimitCounter * nat :=
  (now w, rateLimitCounter (svc w), length (sockets w)).

(** The rate window of [w] is still running and holds at most the limit. *)
Definition in_window (w : World) : Prop :=
  now w - timestamp (rateLimitCounter (svc w)) <= RATE_LIMIT_RESET /\
  (count (rateLimitCounter (svc w)) <= MAX_RATE_LIMIT_ATTEMPTS)%nat.

(** From [w] to [w'] the clock and the window stayed, and every socket
    created was counted by the limiter. *)
Definition rate_step (w w' : World) : Prop :=
  now w' = now w /\
  timestamp (rateLimitCounter (svc w')) = timestamp (rateLimitCounter (svc w)) /\
  (count (rateLimitCounter (svc w')) <= MAX_RATE_LIMIT_ATTEMPTS)%nat /\
  (length (sockets w') + count (rateLimitCounter (svc w))
   <= length (sockets w) + count (rateLimitCounter (svc w')))%nat.

(** The timer invariants, and at most one health-check interval pending. *)
Definition health_single (w : World) : Prop :=
  timers_ok w /\ (length (pending HealthInterval w) <= 1)%nat.

(** The interval [startHealthChecks] arms in [w]. *)
Definition health_interval_of (w : World) : Timer :=
  {| timerId := nextTimerId w; timerKind := HealthInterval;
     due := now w + HEALTH_CHECK_INTERVAL (svc w);
     period := Some (HEALTH_CHECK_INTERVAL (svc w)) |}.

(** A connection opened at time 0 whose first probe, sent at 30 s, has just
    been answered. *)
Definition answered_probe : World :=
  run [CallConnect; SocketOpen 0; TimePasses 30000; TimerFires 1;
       SocketMessage 0 (InPong "pong")]
      (initial_world 0 []).

(** The adaptive cadence: the quality label with the interval and the
    timeout of the health check. *)
Definition cadence (s : WebSocketService) : Quality * Z * Z :=
  (connectionQuality s, HEALTH_CHECK_INTERVAL s, HEALTH_CHECK_TIMEOUT s).

(** What only the network-quality signal and the subscription calls change. *)
Definition settings (w : World) : Quality * Z * Z * list nat :=
  (cadence (svc w), listeners (svc w)).

(** A connection that has opened. *)
Definition open_connection : World :=
  run [CallConnect; SocketOpen 0] (initial_world 0 []).

(** The missed probes are within the tolerance, and below it while a
    health-check interval is pending. *)
Definition probes_ok (w : World) : Prop :=
  timers_ok w /\
  (missedPings (svc w) <= MAX_MISSED_PINGS)%nat /\
  (pending HealthInterval w <> [] -> (missedPings (svc w) < MAX_MISSED_PINGS)%nat).

(** A connection attempt that has not opened yet. *)
Definition connecting : World := run [CallConnect] (initial_world 0 []).

(** How many of the coming [ws.send] calls raise. *)
Definition raises (script : list SendOutcome) : nat :=
  length (filter (fun outcome => match outcome with
                                 | SendThrows => true
                                 | _ => false
                                 end) script).

(** The turns the drain loop can still take: one for each queued message and
    one more for each [ws.send] call that raises, whose message is queued
    again. *)
Definition drain_turns (w : World) : nat :=
  length (messageQueue (svc w)) + raises (sendScript w).

(** The event resets the count of missed probes: the open of a connecting
    socket, or a pong. *)
Definition resets_probes (e : Event) (w : World) : bool :=
  successful_open e w ||
  match e with
  | SocketMessage _ (InPong _) => true
  | _ => false
  end.

(** No event of the run, at the moment it happens, resets the count of
    missed probes. *)
Fixpoint quiet (events : list Event) (w : World) : bool :=
  match events with
  | [] => true
  | e :: rest => negb (resets_probes e w) && quiet rest (step e w)
  end.

(** No health-check interval is among the timers. *)
Definition no_health (w : World) : Prop :=
  forall t, In t (timers w) -> timerKind t = ReconnectTimeout.

(** From [w] to [w'] no health-check interval was armed, no "initiating
    reconnect" entry was logged and the count of missed probes stayed. *)
Definition calm (w w' : World) : Prop :=
  (no_health w -> no_health w') /\
  logged is_degraded w' = logged is_degraded w /\
  missedPings (svc w') = missedPings (svc w).

(** * Properties *)

(** ** Backoff delay *)

Section BackoffDelay.
Local Open Scope Q_scope.

Lemma Math_pow_Qpower (base : Q) (n : nat) :
  Math_pow base n == Qpower base (Z.of_nat n).
Proof.
  induction n as [|n IH].
  - reflexivity.
  - cbn [Math_pow]. rewrite IH, Nat2Z.inj_succ.
    unfold Z.succ. destruct (Qeq_dec base 0) as [E|E].
    + rewrite E. rewrite Qmult_0_l.
      destruct (Z.of_nat n + 1)%Z eqn:K; try lia.
      symmetry. apply Qpower_0. discriminate.
    + rewrite Qpower_plus by assumption. cbn. ring.
Qed.

Lemma Math_pow_ge_1 (n : nat) : 1 <= Math_pow (3 # 2) n.
Proof.
  induction n as [|n IH]; cbn [Math_pow].
  - apply Qle_refl.
  - apply Qle_trans with (1 * Math_pow (3 # 2) n).
    + rewrite Qmult_1_l. exact IH.
    + apply Qmult_le_compat_r; [discriminate|].
      apply Qle_trans with 1; [discriminate | exact IH].
Qed.

Lemma Math_pow_step (n : nat) : Math_pow (3 # 2) n <= Math_pow (3 # 2) (S n).
Proof.
  cbn [Math_pow].
  apply Qle_trans with (1 * Math_pow (3 # 2) n).
  - rewrite Qmult_1_l. apply Qle_refl.
  - apply Qmult_le_compat_r; [discriminate|].
    apply Qle_trans with 1; [discriminate | apply Math_pow_ge_1].
Qed.

Lemma Math_pow_mono (n m : nat) :
  (n <= m)%nat -> Math_pow (3 # 2) n <= Math_pow (3 # 2) m.
Proof.
  induction 1 as [|m _ IH].
  - apply Qle_refl.
  - eapply Qle_trans; [exact IH | apply Math_pow_step].
Qed.

Lemma calculateBackoffDelay_mono (s1 s2 : WebSocketService) :
  (reconnectCount s1 <= reconnectCount s2)%nat ->
  calculateBackoffDelay s1 <= calculateBackoffDelay s2.
Proof.
  intro H. unfold calculateBackoffDelay.
  apply Q.min_le_compat_r.
  apply Qmult_le_l; [reflexivity|].
  apply Math_pow_mono, H.
Qed.

Lemma calculateBackoffDelay_cap (s : WebSocketService) :
  calculateBackoffDelay s <= MAX_BACKOFF_DELAY.
Proof. unfold calculateBackoffDelay. apply Q.le_min_r. Qed.

Lemma attemptReconnect_timer (w : World) :
  (reconnectCount (svc w) < MAX_RECONNECT_ATTEMPTS)%nat ->
  reconnectCount (svc (attemptReconnect w)) = S (reconnectCount (svc w)) /\
  timers (attemptReconnect w) =
    (timers w ++
     [{| timerId := nextTimerId w; timerKind := ReconnectTimeout;
         due := now w + Qfloor (calculateBackoffDelay (svc (attemptReconnect w)));
         period := None |}])%list.
Proof.
  intro H. unfold attemptReconnect.
  apply Nat.ltb_lt in H. rewrite H. split; reflexivity.
Qed.

(** C4, as stated, fails: with four attempts counted the delay is 15187.5 ms,
    not 15187 ms, and with five it is 22781.25 ms, not 22781 ms. *)
Lemma backoff_delay_fourth_attempt_is_fractional :
  calculateBackoffDelay (with_attempts 4) == 30375 # 2 /\
  Qeq_bool (calculateBackoffDelay (with_attempts 4)) (15187 # 1) = false /\
  calculateBackoffDelay (with_attempts 5) == 91125 # 4 /\
  Qeq_bool (calculateBackoffDelay (with_attempts 5)) (22781 # 1) = false.
Proof. repeat split; reflexivity. Qed.

Lemma calculateBackoffDelay_counter (s : WebSocketService) :
  calculateBackoffDelay s == calculateBackoffDelay (with_attempts (reconnectCount s)).
Proof. reflexivity. Qed.

(** C4, amended: the backoff delay is min(3000 * 1.5^attempts, 30000); it is
    non-decreasing in the attempt counter and never above 30000; in every
    state of the service in which 0, 1, 2, 3, 4 or 5 attempts are counted it
    is exactly 3000, 4500, 6750, 10125, 15187.5 or 22781.25 ms. *)
Theorem backoff_delay_capped_exponential :
  (forall s, calculateBackoffDelay s ==
             Qmin ((3000 # 1) * (3 # 2) ^ Z.of_nat (reconnectCount s)) (30000 # 1)) /\
  (forall s1 s2, (reconnectCount s1 <= reconnectCount s2)%nat ->
                 calculateBackoffDelay s1 <= calculateBackoffDelay s2) /\
  (forall s, calculateBackoffDelay s <= 30000 # 1) /\
  (forall s, (reconnectCount s <= 5)%nat ->
             calculateBackoffDelay s ==
             nth (reconnectCount s)
                 [3000 # 1; 4500 # 1; 6750 # 1; 10125 # 1; 30375 # 2; 91125 # 4] 0).
Proof.
  repeat split.
  - intro s. unfold calculateBackoffDelay, RECONNECT_INTERVAL, MAX_BACKOFF_DELAY.
    rewrite Math_pow_Qpower. reflexivity.
  - apply calculateBackoffDelay_mono.
  - apply calculateBackoffDelay_cap.
  - intros s H. rewrite (calculateBackoffDelay_counter s).
    destruct (reconnectCount s) as [|[|[|[|[|[|n]]]]]]; try reflexivity; lia.
Qed.

End BackoffDelay.

(** ** send and the serialisation of its argument *)

(** C3: [JSON.stringify] runs before, and outside, the [try] of [send]; on a
    payload it cannot serialise the TypeError reaches the caller, in every
    connection state, with nothing transmitted, queued or logged. *)
Theorem send_raises_on_unserializable (w : World) :
  send (MObject Unserializable) w = Throws TypeError w /\
  returns (send (MObject Unserializable) w) = false.
Proof. split; reflexivity. Qed.

(** Any text, and any object that serialises, is sent, queued or dropped
    without an exception. *)
Lemma send_returns (message : Message) (w : World) :
  stringify message <> None -> returns (send message w) = true.
Proof.
  intro H. unfold send.
  destruct (stringify message) as [str|]; [|congruence].
  destruct (_ >? _); [reflexivity|].
  destruct (open_socket w) as [sid|]; [|reflexivity].
  unfold ws_send. destruct (sendScript w) as [|[] rest]; reflexivity.
Qed.

(** ** Leak heuristic *)

Lemma checkForMemoryLeaks_streak (w : World) :
  let mld := memoryLeakDetection (svc w) in
  let mld' := memoryLeakDetection (svc (checkForMemoryLeaks w)) in
  lastMemoryUsage mld' = getMemoryUsage w /\
  (getMemoryUsage w > lastMemoryUsage mld ->
     increasingCount mld' = S (increasingCount mld)) /\
  (getMemoryUsage w <= lastMemoryUsage mld -> increasingCount mld' = 0%nat).
Proof.
  cbn zeta. unfold checkForMemoryLeaks.
  destruct (getMemoryUsage w >? lastMemoryUsage (memoryLeakDetection (svc w))) eqn:E.
  - apply Z.gtb_lt in E.
    destruct (5 <=? S (increasingCount (memoryLeakDetection (svc w))))%nat;
      cbn; (split; [reflexivity|]); split; intros; try reflexivity; lia.
  - rewrite Z.gtb_ltb in E. apply Z.ltb_ge in E.
    cbn; (split; [reflexivity|]); split; intros; try reflexivity; lia.
Qed.

Lemma checkForMemoryLeaks_console (w : World) :
  let mld := memoryLeakDetection (svc w) in
  console (checkForMemoryLeaks w) =
    if (getMemoryUsage w >? lastMemoryUsage mld) &&
       (5 <=? S (increasingCount mld))%nat
    then console w ++
         [(warn, LogLeak (S (increasingCount mld)));
          (info, LogDebugMemory (length (messageQueue (svc w)))
                   (length (listeners (svc w))) (lastMessageTime (svc w))
                   (now w - connectionStartTime (svc w)))]
    else console w.
Proof.
  cbn zeta. unfold checkForMemoryLeaks.
  destruct (getMemoryUsage w >? lastMemoryUsage (memoryLeakDetection (svc w))); cbn.
  - destruct (increasingCount (memoryLeakDetection (svc w))) as [|[|[|[|n]]]]; cbn;
      try reflexivity.
    rewrite <- app_assoc. reflexivity.
  - reflexivity.
Qed.

(** C9, as stated, fails: after the fifth increase in a row the warning is
    logged and the streak stands at five; a sixth increase warns again. *)
Lemma leak_warning_keeps_streak :
  let w := run five_growing_ticks (initial_world 0 []) in
  let w' := run [HeapSize (Some 6); PerformanceTick] w in
  increasingCount (memoryLeakDetection (svc w)) = 5%nat /\
  In (warn, LogLeak 5) (console w) /\
  increasingCount (memoryLeakDetection (svc w')) = 6%nat /\
  In (warn, LogLeak 6) (console w').
Proof.
  vm_compute. repeat split; auto 20.
Qed.

(** C9, amended: on every telemetry tick a measurement strictly above the
    previous one lengthens the streak by one, and when that makes five or more
    in a row the leak warning and the diagnostic dump are logged (on that
    tick and on every further increase; the warning does not reset the
    streak); a measurement that is not above the previous one sets the streak
    to zero and logs no leak warning. *)
Theorem leak_heuristic_streak (w : World) :
  let mld := memoryLeakDetection (svc w) in
  let w' := checkForMemoryLeaks w in
  let mld' := memoryLeakDetection (svc w') in
  let dump := LogDebugMemory (length (messageQueue (svc w))) (length (listeners (svc w)))
                (lastMessageTime (svc w)) (now w - connectionStartTime (svc w)) in
  lastMemoryUsage mld' = getMemoryUsage w /\
  (getMemoryUsage w > lastMemoryUsage mld ->
     increasingCount mld' = S (increasingCount mld) /\
     ((5 <= S (increasingCount mld))%nat ->
        console w' = console w ++ [(warn, LogLeak (S (increasingCount mld))); (info, dump)]) /\
     ((S (increasingCount mld) < 5)%nat -> console w' = console w)) /\
  (getMemoryUsage w <= lastMemoryUsage mld ->
     increasingCount mld' = 0%nat /\ console w' = console w) /\
  step PerformanceTick w = checkForMemoryLeaks (checkPerformance w).
Proof.
  cbn zeta.
  destruct (checkForMemoryLeaks_streak w) as (Hlast & Hup & Hdown).
  pose proof (checkForMemoryLeaks_console w) as Hc. cbn zeta in Hc.
  split; [exact Hlast|]. split; [|split; [|reflexivity]].
  - intro Hgt. split; [exact (Hup Hgt)|].
    assert (E : (getMemoryUsage w >? lastMemoryUsage (memoryLeakDetection (svc w))) = true)
      by (apply Z.gtb_lt; lia).
    rewrite E in Hc. cbn [andb] in Hc. split; intro Hn.
    + apply Nat.leb_le in Hn. rewrite Hn in Hc. exact Hc.
    + apply Nat.leb_gt in Hn. rewrite Hn in Hc. exact Hc.
  - intro Hle. split; [exact (Hdown Hle)|].
    assert (E : (getMemoryUsage w >? lastMemoryUsage (memoryLeakDetection (svc w))) = false).
    { rewrite Z.gtb_ltb. apply Z.ltb_ge. lia. }
    rewrite E in Hc. exact Hc.
Qed.

(** ** Zombie detection and the lifecycle signals *)

Lemma handleWindowFocus_inert (w : World) :
  handleWindowFocus w = (if ws_is_open w then w else log LogWindowFocused info w).
Proof.
  unfold handleWindowFocus, checkZombieConnection.
  destruct (ws_is_open w) eqn:E; cbn [negb]; [reflexivity|].
  change (ws_is_open (log LogWindowFocused info w)) with (ws_is_open w).
  rewrite E. reflexivity.
Qed.

(** C10: the zombie check is wired to two signals.  On a visibility change
    it works: an open transport silent for more than 90000 ms is replaced,
    whatever the missed-probe counter.  On window focus it cannot: the handler
    runs the check only when the transport is not open, and the check acts
    only when it is, so a focus event never does more than write a log line. *)
Theorem window_focus_never_forces_reconnect (w : World) :
  (ws_is_open w = true ->
   now w - lastMessageTime (svc w) > ZOMBIE_CONNECTION_TIMEOUT ->
   step (VisibilityChange true) w = reconnect (log LogZombie warn w)) /\
  (ws_is_open w = true -> step WindowFocus w = w) /\
  (ws_is_open w = false -> step WindowFocus w = log LogWindowFocused info w) /\
  sockets (step WindowFocus w) = sockets w /\
  svc (step WindowFocus w) = svc w.
Proof.
  cbn [step]. rewrite handleWindowFocus_inert.
  split; [|destruct (ws_is_open w); repeat split; congruence].
  intros Hopen Hsilent. unfold handleVisibilityChange, checkZombieConnection.
  rewrite Hopen. apply Z.gt_lt, Z.gtb_lt in Hsilent. rewrite Hsilent. reflexivity.
Qed.

(** The failing input of C10, evaluated: the transport reports itself open,
    no inbound traffic has arrived for 100 s, no probe has been missed; the
    window gains focus and the service is left exactly as it was, while a
    visibility change replaces the socket. *)
Lemma zombie_survives_window_focus :
  isConnected silent_connection = true /\
  now silent_connection - lastMessageTime (svc silent_connection) = 100000 /\
  missedPings (svc silent_connection) = 0%nat /\
  step WindowFocus silent_connection = silent_connection /\
  ws (svc (step (VisibilityChange true) silent_connection)) = Some 1%nat.
Proof. vm_compute. repeat split. Qed.

(** ** disconnect and the timers *)

(** C1, at its failing inputs.
    First: connect, open, disconnect.  When [disconnect] returns nothing is
    pending, but the [onclose] handler is still on the socket it closed: the
    close event runs [handleClose], which schedules a reconnect, and 4500 ms
    later [connect] opens a new transport.
    Second: [attemptReconnect] overwrites the handle of a timer that is still
    pending; [disconnect] then cancels the newer timer only, and returns with
    the older one pending. *)
Theorem disconnect_does_not_stop_reconnects :
  let w0 := run [CallConnect; SocketOpen 0; CallDisconnect] (initial_world 0 []) in
  let w1 := step (SocketClose 0) w0 in
  let w2 := run [TimePasses 4500; TimerFires 2] w1 in
  let v0 := run [CallConnect; SocketOpen 0; CallReconnect; SocketClose 0; SocketClose 1;
                 CallDisconnect] (initial_world 0 []) in
  let v1 := run [TimePasses 4500; TimerFires 2] v0 in
  (timers w0 = [] /\ ws (svc w0) = None /\ readyStates w0 = [CLOSING]) /\
  (timers w1 = [reconnect_timeout 2 4500] /\ reconnectTimer (svc w1) = Some 2%nat) /\
  (readyStates w2 = [CLOSED; CONNECTING] /\ ws (svc w2) = Some 1%nat) /\
  (timers v0 = [reconnect_timeout 2 4500] /\ reconnectTimer (svc v0) = None) /\
  (readyStates v1 = [CLOSED; CLOSED; CONNECTING] /\ ws (svc v1) = Some 2%nat).
Proof. vm_compute. repeat split. Qed.

(** ** The reconnect-attempt counter *)

(** C2, as stated, fails: a close has brought the counter to 1; a call of
    [reconnect] puts it back to 0 although no socket has opened. *)
Lemma reconnect_call_resets_attempt_counter :
  let w := run [CallConnect; SocketClose 0] (initial_world 0 []) in
  let w' := step CallReconnect w in
  reconnectCount (svc w) = 1%nat /\
  reconnectCount (svc w') = 0%nat /\
  readyStates w' = [CLOSED; CONNECTING].
Proof. vm_compute. repeat split. Qed.

(** Reduce record projections over the setters, and nothing else. *)
Ltac simp :=
  cbn [
    ws reconnectTimer healthCheckTimer messageQueue listeners reconnectCount
    missedPings lastPongTime lastMessageTime connectionStartTime isInitialized
    isReconnecting connectionQuality HEALTH_CHECK_INTERVAL HEALTH_CHECK_TIMEOUT
    rateLimitCounter txBytes rxBytes txCount rxCount performanceMetrics
    memoryLeakDetection svc sockets timers nextTimerId now sendScript
    constructorThrows hasWindow usedJSHeapSize console set_ws set_reconnectTimer
    set_healthCheckTimer set_messageQueue set_listeners set_reconnectCount
    set_missedPings set_lastPongTime set_lastMessageTime set_connectionStartTime
    set_isInitialized set_isReconnecting set_connectionQuality
    set_HEALTH_CHECK_INTERVAL set_HEALTH_CHECK_TIMEOUT set_rateLimitCounter
    set_txBytes set_rxBytes set_txCount set_rxCount set_performanceMetrics
    set_memoryLeakDetection set_svc set_sockets set_timers set_nextTimerId set_now
    set_sendScript set_constructorThrows set_hasWindow set_usedJSHeapSize
    set_console timestamp count failureRate memoryUsage lastMemoryUsage checkCount
    increasingCount readyState sent timerId timerKind due period upd log world_of
    andThen try_catch returns fst snd negb andb orb
  ] in *.

(** Case split on an innermost test of the goal. *)
Ltac break_match :=
  match goal with
  | |- context [match ?x with _ => _ end] =>
      lazymatch x with
      | context [match _ with _ => _ end] => fail
      | _ => destruct x eqn:?
      end
  end.

(** Unfold the methods named, split on every test they make, and close each
    branch by computation. *)
Ltac by_cases := intros; repeat (simp; try reflexivity; try lia; break_match).

Lemma connect_attempts (w : World) :
  reconnectCount (svc (connect w)) = reconnectCount (svc w).
Proof. unfold connect, checkRateLimit, handleError, new_WebSocket. by_cases. Qed.

Lemma stopHealthChecks_attempts (w : World) :
  reconnectCount (svc (stopHealthChecks w)) = reconnectCount (svc w).
Proof. unfold stopHealthChecks. by_cases. Qed.

Lemma disconnect_attempts (w : World) :
  reconnectCount (svc (disconnect w)) = reconnectCount (svc w).
Proof. unfold disconnect, stopHealthChecks. by_cases. Qed.

Lemma reconnect_attempts (w : World) : reconnectCount (svc (reconnect w)) = 0%nat.
Proof. unfold reconnect. rewrite connect_attempts. reflexivity. Qed.

Lemma send_attempts (message : Message) (w : World) :
  reconnectCount (svc (world_of (send message w))) = reconnectCount (svc w).
Proof. unfold send, ws_send, queueMessage. by_cases. Qed.

Lemma processMessageQueue_loop_attempts (fuel : nat) (w : World) :
  reconnectCount (svc (world_of (processMessageQueue_loop fuel w))) = reconnectCount (svc w).
Proof.
  revert w. induction fuel as [|fuel IH]; intro w; [reflexivity|].
  cbn [processMessageQueue_loop].
  destruct (messageQueue (svc w)) as [|message rest]; [reflexivity|].
  destruct (ws_is_open w); [|reflexivity].
  destruct (truthy message).
  - pose proof (send_attempts message (upd (set_messageQueue rest) w)) as Hs.
    destruct (send message (upd (set_messageQueue rest) w)) as [w'|e w']; simp.
    + rewrite IH. exact Hs.
    + exact Hs.
  - rewrite IH. reflexivity.
Qed.

Lemma handleOpen_attempts (w : World) :
  reconnectCount (svc (world_of (handleOpen w))) = 0%nat.
Proof.
  unfold handleOpen, processMessageQueue.
  rewrite processMessageQueue_loop_attempts.
  unfold startHealthChecks, stopHealthChecks. by_cases.
Qed.

Lemma attemptReconnect_attempts (w : World) :
  reconnectCount (svc (attemptReconnect w)) = 0%nat -> reconnectCount (svc w) = 0%nat.
Proof.
  unfold attemptReconnect.
  destruct (reconnectCount (svc w) <? MAX_RECONNECT_ATTEMPTS)%nat; simp; [discriminate|auto].
Qed.

Lemma handleClose_attempts (w : World) :
  reconnectCount (svc (handleClose w)) = 0%nat -> reconnectCount (svc w) = 0%nat.
Proof.
  unfold handleClose. intro H. apply attemptReconnect_attempts in H.
  simp. rewrite stopHealthChecks_attempts in H. exact H.
Qed.

Lemma performHealthCheck_attempts (w : World) :
  reconnectCount (svc (world_of (performHealthCheck w))) =
    if strikes_out w then 0%nat else reconnectCount (svc w).
Proof.
  unfold performHealthCheck, strikes_out.
  destruct (now w - lastPongTime (svc w) >? HEALTH_CHECK_TIMEOUT (svc w)); cbn [andb].
  - simp. destruct (MAX_MISSED_PINGS <=? S (missedPings (svc w)))%nat; simp.
    + apply reconnect_attempts.
    + destruct (ws_is_open _); [rewrite send_attempts|]; reflexivity.
  - destruct (ws_is_open w); [rewrite send_attempts|]; reflexivity.
Qed.

Lemma checkZombieConnection_attempts (w : World) :
  reconnectCount (svc (checkZombieConnection w)) =
    if zombie w then 0%nat else reconnectCount (svc w).
Proof.
  unfold checkZombieConnection, zombie.
  destruct (_ && _); [apply reconnect_attempts | reflexivity].
Qed.

Lemma handleMessage_attempts (data : Inbound) (w : World) :
  reconnectCount (svc (handleMessage data w)) = reconnectCount (svc w).
Proof.
  unfold handleMessage, handleBinaryMessage, handlePong, notifyListeners. by_cases.
Qed.

Lemma telemetry_attempts (w : World) :
  reconnectCount (svc (checkForMemoryLeaks (checkPerformance w))) = reconnectCount (svc w).
Proof.
  unfold checkForMemoryLeaks, checkPerformance, cleanupResources, logPerformanceReport,
    debugMemoryUsage.
  by_cases.
Qed.

Lemma handleNetworkQualityChange_attempts effectiveType downlink (w : World) :
  reconnectCount (svc (handleNetworkQualityChange effectiveType downlink w)) =
  reconnectCount (svc w).
Proof.
  unfold handleNetworkQualityChange, adjustForPoorConnection, adjustForGoodConnection.
  by_cases.
Qed.

Lemma fire_timer_attempts (id : nat) (w : World) :
  reconnectCount (svc (fire_timer id w)) =
    if runs_reconnect (TimerFires id) w then 0%nat else reconnectCount (svc w).
Proof.
  unfold fire_timer, runs_reconnect.
  destruct (find _ (timers w)) as [t|]; [|reflexivity].
  destruct (due t <=? now w); [|reflexivity]. cbn [andb].
  unfold timer_callback.
  destruct (timerKind t); cbn [is_health andb].
  - rewrite connect_attempts. by_cases.
  - rewrite performHealthCheck_attempts.
    destruct (period t); reflexivity.
Qed.

Lemma addMessageListener_attempts (l : nat) (w : World) :
  reconnectCount (svc (addMessageListener l w)) = reconnectCount (svc w).
Proof. unfold addMessageListener. by_cases. Qed.

Lemma removeMessageListener_attempts (l : nat) (w : World) :
  reconnectCount (svc (removeMessageListener l w)) = reconnectCount (svc w).
Proof. unfold removeMessageListener. by_cases. Qed.

Lemma handleError_attempts (w : World) :
  reconnectCount (svc (handleError w)) = reconnectCount (svc w).
Proof. reflexivity. Qed.

Lemma periodicCleanup_attempts (w : World) :
  reconnectCount (svc (periodicCleanup w)) = reconnectCount (svc w).
Proof. reflexivity. Qed.

(** What one event does to the attempt counter. *)
Lemma step_attempts (e : Event) (w : World) :
  if successful_open e w || runs_reconnect e w
  then reconnectCount (svc (step e w)) = 0%nat
  else reconnectCount (svc (step e w)) = 0%nat -> reconnectCount (svc w) = 0%nat.
Proof.
  destruct e; cbn [step successful_open orb];
    try (rewrite fire_timer_attempts;
         destruct (runs_reconnect (TimerFires id) w); now auto);
    cbn [runs_reconnect orb].
  - rewrite connect_attempts. auto.
  - rewrite disconnect_attempts. auto.
  - apply reconnect_attempts.
  - rewrite send_attempts. auto.
  - rewrite addMessageListener_attempts. auto.
  - rewrite removeMessageListener_attempts. auto.
  - destruct (socket_state w sid) as [[]|]; cbn [orb]; auto.
    apply handleOpen_attempts.
  - destruct (socket_state w sid) as [[]|]; auto;
      intro H; apply handleClose_attempts in H; exact H.
  - destruct (socket_state w sid) as [[]|]; auto.
  - destruct (socket_state w sid) as [[]|]; auto; rewrite handleMessage_attempts; auto.
  - auto.
  - apply reconnect_attempts.
  - unfold handleNetworkChange. rewrite disconnect_attempts. auto.
  - rewrite handleWindowFocus_inert. destruct (ws_is_open w); auto.
  - unfold handleVisibilityChange. destruct visible; cbn [andb]; auto.
    rewrite checkZombieConnection_attempts. destruct (zombie w); auto.
  - rewrite handleNetworkQualityChange_attempts. auto.
  - rewrite telemetry_attempts. auto.
  - auto.
  - auto.
Qed.

(** C2, amended: the attempt counter goes back to zero from a non-zero value
    only at the open of a connecting socket or when [reconnect] runs (the
    public call, the network-online signal, zombie detection on a visibility
    change, a health check that reaches the missed-probe tolerance); every
    such open and every run of [reconnect] leaves it at zero. *)
Theorem attempt_counter_reset_points (e : Event) (w : World) :
  (successful_open e w = true -> reconnectCount (svc (step e w)) = 0%nat) /\
  (runs_reconnect e w = true -> reconnectCount (svc (step e w)) = 0%nat) /\
  (reconnectCount (svc w) <> 0%nat ->
   reconnectCount (svc (step e w)) = 0%nat ->
   successful_open e w = true \/ runs_reconnect e w = true).
Proof.
  pose proof (step_attempts e w) as H.
  destruct (successful_open e w), (runs_reconnect e w); cbn [orb] in H;
    repeat split; intros; auto; try discriminate.
Qed.

(** ** Rate limiter *)

Lemma checkRateLimit_within_window (w : World) :
  now w - timestamp (rateLimitCounter (svc w)) <= RATE_LIMIT_RESET ->
  checkRateLimit w =
    if (MAX_RATE_LIMIT_ATTEMPTS <=? count (rateLimitCounter (svc w)))%nat
    then (false, log LogRateLimit error w)
    else (true, upd (set_rateLimitCounter
                       {| timestamp := timestamp (rateLimitCounter (svc w));
                          count := S (count (rateLimitCounter (svc w))) |}) w).
Proof.
  intro H. unfold checkRateLimit.
  replace (now w - timestamp (rateLimitCounter (svc w)) >? RATE_LIMIT_RESET) with false
    by (symmetry; rewrite Z.gtb_ltb; apply Z.ltb_ge; exact H).
  reflexivity.
Qed.

Lemma checkRateLimit_after_window (w : World) :
  now w - timestamp (rateLimitCounter (svc w)) > RATE_LIMIT_RESET ->
  checkRateLimit w =
    (true, upd (set_rateLimitCounter {| timestamp := now w; count := 1 |}) w).
Proof.
  intro H. unfold checkRateLimit.
  replace (now w - timestamp (rateLimitCounter (svc w)) >? RATE_LIMIT_RESET) with true
    by (symmetry; apply Z.gtb_lt; lia).
  reflexivity.
Qed.

Lemma verdicts_beyond_limit (c n : nat) :
  (MAX_RATE_LIMIT_ATTEMPTS <= c)%nat ->
  map (fun i => (i <? MAX_RATE_LIMIT_ATTEMPTS)%nat) (seq c n) = repeat false n.
Proof.
  revert c. induction n as [|n IH]; intros c H; [reflexivity|].
  cbn [seq map repeat]. rewrite IH by lia.
  replace (c <? MAX_RATE_LIMIT_ATTEMPTS)%nat with false
    by (symmetry; apply Nat.ltb_ge; exact H).
  reflexivity.
Qed.

Lemma total_nonneg (gaps : list Z) :
  Forall (fun gap => 0 <= gap) gaps -> 0 <= total gaps.
Proof.
  induction 1 as [|gap gaps Hgap _ IH]; cbn [total fold_right]; [lia|].
  fold (total gaps). lia.
Qed.

(** Within one window the verdicts only depend on how many attempts the
    window has counted: attempt number [i] is permitted exactly when
    [i < 10]. *)
Lemma attempts_after_within_window (gaps : list Z) :
  forall w,
    Forall (fun gap => 0 <= gap) gaps ->
    now w + total gaps - timestamp (rateLimitCounter (svc w)) <= RATE_LIMIT_RESET ->
    fst (attempts_after gaps w) =
      map (fun i => (i <? MAX_RATE_LIMIT_ATTEMPTS)%nat)
          (seq (count (rateLimitCounter (svc w))) (length gaps)).
Proof.
  induction gaps as [|gap gaps IH]; intros w Hpos Hwin; [reflexivity|].
  inversion Hpos as [|? ? Hgap Hrest]; subst.
  cbn [total fold_right] in Hwin. fold (total gaps) in Hwin.
  pose proof (total_nonneg gaps Hrest) as Htot.
  cbn [attempts_after length].
  rewrite checkRateLimit_within_window by (simp; lia).
  simp.
  destruct (MAX_RATE_LIMIT_ATTEMPTS <=? count (rateLimitCounter (svc w)))%nat eqn:E.
  - specialize (IH (log LogRateLimit error (set_now (now w + gap) w)) Hrest).
    destruct (attempts_after gaps _) as [verdicts w2]. simp.
    rewrite IH by (simp; lia). simp.
    apply Nat.leb_le in E.
    rewrite !verdicts_beyond_limit by exact E. reflexivity.
  - match goal with
    | |- context [attempts_after gaps ?w1] => specialize (IH w1 Hrest)
    end.
    destruct (attempts_after gaps _) as [verdicts w2]. simp.
    rewrite IH by (simp; lia). simp.
    apply Nat.leb_gt in E. cbn [seq map].
    replace (count (rateLimitCounter (svc w)) <? MAX_RATE_LIMIT_ATTEMPTS)%nat with true
      by (symmetry; apply Nat.ltb_lt; exact E).
    reflexivity.
Qed.

Lemma connect_blocked (w : World) :
  (MAX_RATE_LIMIT_ATTEMPTS <= count (rateLimitCounter (svc w)))%nat ->
  now w - timestamp (rateLimitCounter (svc w)) <= RATE_LIMIT_RESET ->
  connect w = w \/ connect w = log LogRateLimit error w.
Proof.
  intros Hfull Hwin. unfold connect.
  destruct (isReconnecting (svc w) || ws_is_open w); [left; reflexivity|].
  destruct (negb (hasWindow w)); [left; reflexivity|].
  rewrite checkRateLimit_within_window by exact Hwin.
  apply Nat.leb_le in Hfull. rewrite Hfull. right. reflexivity.
Qed.

Lemma connect_permitted (w : World) (rl : RateLimitCounter) :
  isReconnecting (svc w) = false -> ws_is_open w = false ->
  hasWindow w = true -> constructorThrows w = false ->
  checkRateLimit w = (true, upd (set_rateLimitCounter rl) w) ->
  sockets (connect w) = sockets w ++ [{| readyState := CONNECTING; sent := [] |}] /\
  ws (svc (connect w)) = Some (length (sockets w)) /\
  isReconnecting (svc (connect w)) = true /\
  rateLimitCounter (svc (connect w)) = rl /\
  timers (connect w) = timers w.
Proof.
  intros Hr Ho Hw Hc Hrl. unfold connect.
  rewrite Hr, Ho, Hw, Hrl. simp. rewrite Hc. repeat split.
Qed.

(** C5: within one rate-limit window the first ten attempts are permitted and
    every later one is refused; a [connect] that finds ten attempts counted in
    the current window creates no transport and sets no timer; once more than
    60000 ms have passed since the window began, [connect] is permitted again
    and opens a new window with this attempt as its first. *)
Theorem rate_limiter_blocks_eleventh_attempt :
  (forall gaps w,
     Forall (fun gap => 0 <= gap) gaps ->
     count (rateLimitCounter (svc w)) = 0%nat ->
     now w + total gaps - timestamp (rateLimitCounter (svc w)) <= RATE_LIMIT_RESET ->
     fst (attempts_after gaps w) =
       map (fun i => (i <? 10)%nat) (seq 0 (length gaps))) /\
  (forall w,
     (count (rateLimitCounter (svc w)) < MAX_RATE_LIMIT_ATTEMPTS)%nat ->
     now w - timestamp (rateLimitCounter (svc w)) <= RATE_LIMIT_RESET ->
     isReconnecting (svc w) = false -> ws_is_open w = false ->
     hasWindow w = true -> constructorThrows w = false ->
     length (sockets (connect w)) = S (length (sockets w)) /\
     count (rateLimitCounter (svc (connect w))) = S (count (rateLimitCounter (svc w)))) /\
  (forall w,
     (MAX_RATE_LIMIT_ATTEMPTS <= count (rateLimitCounter (svc w)))%nat ->
     now w - timestamp (rateLimitCounter (svc w)) <= RATE_LIMIT_RESET ->
     svc (connect w) = svc w /\
     sockets (connect w) = sockets w /\
     timers (connect w) = timers w) /\
  (forall w,
     now w - timestamp (rateLimitCounter (svc w)) > RATE_LIMIT_RESET ->
     isReconnecting (svc w) = false -> ws_is_open w = false ->
     hasWindow w = true -> constructorThrows w = false ->
     sockets (connect w) = sockets w ++ [{| readyState := CONNECTING; sent := [] |}] /\
     ws (svc (connect w)) = Some (length (sockets w)) /\
     rateLimitCounter (svc (connect w)) = {| timestamp := now w; count := 1 |}).
Proof.
  split; [|split; [|split]].
  - intros gaps w Hpos Hzero Hwin.
    rewrite attempts_after_within_window by assumption.
    rewrite Hzero. reflexivity.
  - intros w Hroom Hwin Hr Ho Hw Hc.
    pose proof (checkRateLimit_within_window w Hwin) as E.
    apply Nat.leb_gt in Hroom. rewrite Hroom in E.
    destruct (connect_permitted w _ Hr Ho Hw Hc E) as (Hs & _ & _ & Hrl & _).
    rewrite Hs, Hrl, length_app. cbn [length]. split; [lia|reflexivity].
  - intros w Hfull Hwin.
    destruct (connect_blocked w Hfull Hwin) as [E|E]; rewrite E; repeat split.
  - intros w Hwin Hr Ho Hw Hc.
    destruct (connect_permitted w _ Hr Ho Hw Hc (checkRateLimit_after_window w Hwin))
      as (Hs & Hws & _ & Hrl & _).
    repeat split; assumption.
Qed.

(** Ten attempts fail one after the other within a second; the eleventh
    [connect] creates no socket; a minute later [connect] creates one. *)
Lemma rate_limit_scenario :
  let w10 := run (failed_attempts 10 0) (initial_world 0 []) in
  let w11 := run [CallConnect] w10 in
  let later := run [TimePasses 60001; CallConnect] w11 in
  length (sockets w10) = 10%nat /\
  count (rateLimitCounter (svc w10)) = 10%nat /\
  length (sockets w11) = 10%nat /\
  timers w11 = [] /\
  length (sockets later) = 11%nat /\
  rateLimitCounter (svc later) = {| timestamp := 60001; count := 1 |}.
Proof. vm_compute. repeat split. Qed.

(** ** The outbound queue *)

(** *** Methods that leave the queue alone *)

Lemma connect_queue (w : World) :
  messageQueue (svc (connect w)) = messageQueue (svc w).
Proof. unfold connect, checkRateLimit, handleError, new_WebSocket. by_cases. Qed.

Lemma stopHealthChecks_queue (w : World) :
  messageQueue (svc (stopHealthChecks w)) = messageQueue (svc w).
Proof. unfold stopHealthChecks. by_cases. Qed.

Lemma startHealthChecks_queue (w : World) :
  messageQueue (svc (startHealthChecks w)) = messageQueue (svc w).
Proof. unfold startHealthChecks, stopHealthChecks, set_timer. by_cases. Qed.

Lemma disconnect_queue (w : World) :
  messageQueue (svc (disconnect w)) = messageQueue (svc w).
Proof. unfold disconnect, stopHealthChecks. by_cases. Qed.

Lemma reconnect_queue (w : World) :
  messageQueue (svc (reconnect w)) = messageQueue (svc w).
Proof. unfold reconnect. rewrite connect_queue. simp. apply disconnect_queue. Qed.

Lemma attemptReconnect_queue (w : World) :
  messageQueue (svc (attemptReconnect w)) = messageQueue (svc w).
Proof. unfold attemptReconnect, set_timer. by_cases. Qed.

Lemma handleClose_queue (w : World) :
  messageQueue (svc (handleClose w)) = messageQueue (svc w).
Proof.
  unfold handleClose. rewrite attemptReconnect_queue. simp.
  rewrite stopHealthChecks_queue. reflexivity.
Qed.

Lemma handleMessage_queue (data : Inbound) (w : World) :
  messageQueue (svc (handleMessage data w)) = messageQueue (svc w).
Proof.
  unfold handleMessage, handleBinaryMessage, handlePong, notifyListeners. by_cases.
Qed.

Lemma checkZombieConnection_queue (w : World) :
  messageQueue (svc (checkZombieConnection w)) = messageQueue (svc w).
Proof.
  unfold checkZombieConnection. destruct (_ && _); [|reflexivity].
  rewrite reconnect_queue. reflexivity.
Qed.

Lemma handleNetworkQualityChange_queue effectiveType downlink (w : World) :
  messageQueue (svc (handleNetworkQualityChange effectiveType downlink w)) =
  messageQueue (svc w).
Proof.
  unfold handleNetworkQualityChange, adjustForPoorConnection, adjustForGoodConnection.
  by_cases.
Qed.

Lemma checkForMemoryLeaks_queue (w : World) :
  messageQueue (svc (checkForMemoryLeaks w)) = messageQueue (svc w).
Proof. unfold checkForMemoryLeaks, debugMemoryUsage. by_cases. Qed.

Lemma addMessageListener_queue (l : nat) (w : World) :
  messageQueue (svc (addMessageListener l w)) = messageQueue (svc w).
Proof. unfold addMessageListener. by_cases. Qed.

(** The trim of [cleanupResources] keeps a suffix of the queue. *)
Lemma checkPerformance_queue (w : World) :
  exists n, messageQueue (svc (checkPerformance w)) = skipn n (messageQueue (svc w)).
Proof.
  unfold checkPerformance, cleanupResources, logPerformanceReport. simp.
  destruct (getMemoryUsage w >? MAX_MEMORY_USAGE); simp; [|exists 0%nat; reflexivity].
  destruct (MAX_QUEUE_SIZE / 2 <? length (messageQueue (svc w)))%nat; simp.
  - eexists. destruct (100 <? _)%nat; simp; reflexivity.
  - exists 0%nat. destruct (100 <? _)%nat; simp; reflexivity.
Qed.

(** *** Properties of the queue that every event preserves *)

Section QueueInvariant.

(** A property of queue contents that survives dropping elements from the
    front and appending a sendable message below capacity. *)
Variable P : list Message -> Prop.
Hypothesis P_skipn : forall n q, P q -> P (skipn n q).
Hypothesis P_push :
  forall m q, sendable m = true -> (length q < MAX_QUEUE_SIZE)%nat -> P q -> P (q ++ [m]).

Let holds (w : World) : Prop := P (messageQueue (svc w)).

Lemma queueMessage_inv (m : Message) (w : World) :
  sendable m = true -> holds w -> holds (queueMessage m w).
Proof.
  unfold holds, queueMessage. intros Hm Hw.
  destruct (Nat.ltb_spec (length (messageQueue (svc w))) MAX_QUEUE_SIZE); simp.
  - apply P_push; assumption.
  - exact Hw.
Qed.

Lemma send_inv (m : Message) (w : World) :
  holds w -> holds (world_of (send m w)).
Proof.
  intro Hw. unfold send.
  pose proof (queueMessage_inv m) as Hq. unfold sendable in Hq.
  destruct (stringify m) as [str|]; [|exact Hw].
  destruct (Z.of_nat (String.length str) >? MAX_MESSAGE_SIZE); [exact Hw|].
  destruct (open_socket w) as [sid|]; simp; [|apply Hq; auto].
  unfold ws_send. destruct (sendScript w) as [|[] rest]; simp; try exact Hw.
  apply Hq; auto.
Qed.

Lemma processMessageQueue_loop_inv (fuel : nat) :
  forall w, holds w -> holds (world_of (processMessageQueue_loop fuel w)).
Proof.
  induction fuel as [|fuel IH]; intros w Hw; [exact Hw|].
  cbn [processMessageQueue_loop].
  destruct (messageQueue (svc w)) as [|m rest] eqn:Hq; [exact Hw|].
  destruct (ws_is_open w); [|exact Hw].
  assert (Hrest : holds (upd (set_messageQueue rest) w)).
  { unfold holds in *. simp. rewrite Hq in Hw. apply (P_skipn 1) in Hw. exact Hw. }
  destruct (truthy m); [|apply IH; exact Hrest].
  pose proof (send_inv m _ Hrest) as Hs.
  destruct (send m _) as [w'|e w']; simp; [apply IH|]; exact Hs.
Qed.

Lemma handleOpen_inv (w : World) : holds w -> holds (world_of (handleOpen w)).
Proof.
  intro Hw. unfold handleOpen, processMessageQueue.
  apply processMessageQueue_loop_inv.
  unfold holds. rewrite startHealthChecks_queue. exact Hw.
Qed.

Lemma performHealthCheck_inv (w : World) :
  holds w -> holds (world_of (performHealthCheck w)).
Proof.
  intro Hw. unfold performHealthCheck.
  assert (Hping : forall w', holds w' ->
            holds (world_of (if ws_is_open w'
                             then send ping (log LogSendingPing info w')
                             else Returns w'))).
  { intros w' Hw'. destruct (ws_is_open w'); [apply send_inv|]; exact Hw'. }
  destruct (_ >? _); [|apply Hping; exact Hw].
  destruct (_ <=? _)%nat; [|apply Hping; exact Hw].
  unfold holds. simp. rewrite reconnect_queue. exact Hw.
Qed.

Lemma fire_timer_inv (id : nat) (w : World) : holds w -> holds (fire_timer id w).
Proof.
  intro Hw. unfold fire_timer.
  destruct (find _ (timers w)) as [t|]; [|exact Hw].
  destruct (due t <=? now w); [|exact Hw].
  assert (Hre : holds match period t with
                      | Some p =>
                          set_timers
                            (map (fun t' => if Nat.eqb (timerId t') id
                                            then {| timerId := id; timerKind := timerKind t';
                                                    due := due t' + p; period := period t' |}
                                            else t') (timers w)) w
                      | None => clear_timer id w
                      end)
    by (destruct (period t); exact Hw).
  destruct (timerKind t); cbn [timer_callback].
  - unfold holds. rewrite connect_queue. exact Hre.
  - apply performHealthCheck_inv. exact Hre.
Qed.

Lemma step_inv (e : Event) (w : World) : holds w -> holds (step e w).
Proof.
  intro Hw. destruct e; cbn [step].
  - unfold holds. rewrite connect_queue. exact Hw.
  - unfold holds. rewrite disconnect_queue. exact Hw.
  - unfold holds. rewrite reconnect_queue. exact Hw.
  - apply send_inv. exact Hw.
  - unfold holds. rewrite addMessageListener_queue. exact Hw.
  - exact Hw.
  - destruct (socket_state w sid) as [[]|]; try exact Hw.
    apply handleOpen_inv. exact Hw.
  - destruct (socket_state w sid) as [[]|]; try exact Hw;
      unfold holds; rewrite handleClose_queue; exact Hw.
  - destruct (socket_state w sid) as [[]|]; exact Hw.
  - destruct (socket_state w sid) as [[]|]; try exact Hw;
      unfold holds; rewrite handleMessage_queue; exact Hw.
  - apply fire_timer_inv. exact Hw.
  - exact Hw.
  - unfold holds, handleNetworkChange. rewrite reconnect_queue. exact Hw.
  - unfold holds, handleNetworkChange. rewrite disconnect_queue. exact Hw.
  - rewrite handleWindowFocus_inert. destruct (ws_is_open w); exact Hw.
  - unfold holds, handleVisibilityChange. destruct visible; [|exact Hw].
    rewrite checkZombieConnection_queue. exact Hw.
  - unfold holds. rewrite handleNetworkQualityChange_queue. exact Hw.
  - unfold holds. rewrite checkForMemoryLeaks_queue.
    destruct (checkPerformance_queue w) as [n ->]. apply P_skipn. exact Hw.
  - exact Hw.
  - exact Hw.
Qed.

Lemma run_inv (events : list Event) : forall w, holds w -> holds (run events w).
Proof.
  induction events as [|e events IH]; intros w Hw; [exact Hw|].
  cbn [run fold_left]. apply IH, step_inv, Hw.
Qed.

End QueueInvariant.

(** *** Capacity *)

Lemma bounded_skipn (n : nat) (q : list Message) :
  (length q <= MAX_QUEUE_SIZE)%nat -> (length (skipn n q) <= MAX_QUEUE_SIZE)%nat.
Proof. rewrite length_skipn. lia. Qed.

Lemma bounded_push (m : Message) (q : list Message) :
  sendable m = true -> (length q < MAX_QUEUE_SIZE)%nat ->
  (length q <= MAX_QUEUE_SIZE)%nat -> (length (q ++ [m]) <= MAX_QUEUE_SIZE)%nat.
Proof. intros _ H _. rewrite length_app. cbn [length]. lia. Qed.

Lemma step_queue_bounded (e : Event) (w : World) :
  queue_bounded w -> queue_bounded (step e w).
Proof. apply (step_inv _ bounded_skipn bounded_push). Qed.

Lemma reachable_queue_bounded (t0 : Z) (script : list SendOutcome) (events : list Event) :
  queue_bounded (run events (initial_world t0 script)).
Proof.
  apply (run_inv _ bounded_skipn bounded_push).
  unfold queue_bounded, MAX_QUEUE_SIZE. cbn. lia.
Qed.

Lemma queueMessage_bounded (m : Message) (w : World) :
  queue_bounded w -> queue_bounded (queueMessage m w).
Proof.
  unfold queue_bounded, queueMessage. intro H.
  destruct (Nat.ltb_spec (length (messageQueue (svc w))) MAX_QUEUE_SIZE); simp; [|exact H].
  rewrite length_app. cbn [length]. lia.
Qed.

Lemma cleanupResources_bounded (w : World) :
  queue_bounded w -> queue_bounded (cleanupResources w).
Proof.
  unfold queue_bounded, cleanupResources. intro H.
  destruct (MAX_QUEUE_SIZE / 2 <? length (messageQueue (svc w)))%nat; simp;
    destruct (100 <? _)%nat; simp; try exact H; apply bounded_skipn, H.
Qed.

(** With the transport not open and the queue full, [send] does not touch
    the queue, whatever the message. *)
Lemma send_full_queue_unchanged (m : Message) (w : World) :
  length (messageQueue (svc w)) = MAX_QUEUE_SIZE -> ws_is_open w = false ->
  messageQueue (svc (world_of (send m w))) = messageQueue (svc w).
Proof.
  intros Hfull Hclosed. unfold send, ws_is_open in *.
  destruct (stringify m) as [str|]; [|reflexivity].
  destruct (_ >? _); [reflexivity|].
  destruct (open_socket w); [discriminate|].
  unfold queueMessage. rewrite Hfull, Nat.ltb_irrefl. reflexivity.
Qed.

Lemma send_full_queue_console (m : Message) (w : World) :
  length (messageQueue (svc w)) = MAX_QUEUE_SIZE -> ws_is_open w = false ->
  stringify m <> None ->
  console (world_of (send m w)) =
    console w ++ [if sendable m then (warn, LogQueueOverflow) else (error, LogTooLarge)].
Proof.
  intros Hfull Hclosed Hser. unfold send, sendable, ws_is_open in *.
  destruct (stringify m) as [str|]; [|congruence].
  destruct (_ >? _); [reflexivity|].
  destruct (open_socket w); [discriminate|].
  unfold queueMessage. rewrite Hfull, Nat.ltb_irrefl. reflexivity.
Qed.

(** C7: the queue holds at most 100 messages after every event, and after
    each of [send], [queueMessage], the drain and the memory-pressure trim;
    with the queue full and the transport not open, [send] leaves the queue
    as it is (nothing is evicted) and, for every message it can serialise,
    writes one console entry: the overflow warning, or the size-limit error
    for a message above the size limit. *)
Theorem queue_never_exceeds_capacity :
  (forall t0 script events, queue_bounded (run events (initial_world t0 script))) /\
  (forall e w, queue_bounded w -> queue_bounded (step e w)) /\
  (forall m w, queue_bounded w ->
     queue_bounded (world_of (send m w)) /\
     queue_bounded (queueMessage m w) /\
     queue_bounded (world_of (processMessageQueue w)) /\
     queue_bounded (cleanupResources w)) /\
  (forall m w,
     length (messageQueue (svc w)) = MAX_QUEUE_SIZE -> ws_is_open w = false ->
     messageQueue (svc (world_of (send m w))) = messageQueue (svc w) /\
     (sendable m = true ->
      console (world_of (send m w)) = console w ++ [(warn, LogQueueOverflow)]) /\
     (stringify m <> None ->
      exists level text, console (world_of (send m w)) = console w ++ [(level, text)] /\
                         level <> info)).
Proof.
  split; [exact reachable_queue_bounded|].
  split; [exact step_queue_bounded|].
  split.
  - intros m w H. repeat split.
    + apply (step_queue_bounded (CallSend m)), H.
    + apply queueMessage_bounded, H.
    + apply (processMessageQueue_loop_inv _ bounded_skipn bounded_push), H.
    + apply cleanupResources_bounded, H.
  - intros m w Hfull Hclosed. split; [apply send_full_queue_unchanged; assumption|].
    split.
    + intro Hs. rewrite send_full_queue_console; try assumption.
      * rewrite Hs. reflexivity.
      * unfold sendable in Hs. destruct (stringify m); congruence.
    + intro Hser. rewrite send_full_queue_console by assumption.
      destruct (sendable m); do 2 eexists; (split; [reflexivity|discriminate]).
Qed.

(** *** The drain loop terminates *)

Lemma open_socket_inv (w : World) (sid : nat) :
  open_socket w = Some sid <-> ws (svc w) = Some sid /\ socket_state w sid = Some OPEN.
Proof.
  unfold open_socket. split.
  - destruct (ws (svc w)) as [sid'|]; [|discriminate].
    destruct (socket_state w sid') as [[]|] eqn:E; try discriminate.
    intro H. injection H as <-. auto.
  - intros [-> ->]. reflexivity.
Qed.

Lemma ws_is_open_inv (w : World) :
  ws_is_open w = true <-> exists sid, open_socket w = Some sid.
Proof.
  unfold ws_is_open. destruct (open_socket w) as [sid|]; split; intro H;
    try discriminate; eauto.
  destruct H as [? H]. discriminate.
Qed.

(** While the transport is open a [send] that returns never raises the budget:
    it uses up an outcome of the script, or leaves queue and script alone. *)
Lemma send_budget (m : Message) (w w' : World) (sid : nat) :
  open_socket w = Some sid -> send m w = Returns w' ->
  (drain_budget w' <= drain_budget w)%nat.
Proof.
  intros Hopen. unfold send, drain_budget. rewrite Hopen.
  destruct (stringify m) as [str|]; [|discriminate].
  destruct (_ >? _); [intro H; injection H as <-; simp; lia|].
  unfold ws_send, queueMessage.
  destruct (sendScript w) as [|[] rest] eqn:Hs; simp;
    intro H; injection H as <-; simp; try rewrite Hs; cbn [length]; try lia.
  destruct (_ <? _)%nat; simp; try rewrite length_app; cbn [length]; lia.
Qed.

Lemma processMessageQueue_loop_step (fuel : nat) :
  forall w, (drain_budget w <= fuel)%nat ->
            processMessageQueue_loop (S fuel) w = processMessageQueue_loop fuel w.
Proof.
  induction fuel as [|fuel IH]; intros w Hb.
  - unfold drain_budget in Hb. cbn [processMessageQueue_loop].
    destruct (messageQueue (svc w)); [reflexivity|]. cbn [length] in Hb. lia.
  - change (processMessageQueue_loop (S (S fuel)) w) with
      (match messageQueue (svc w) with
       | [] => Returns w
       | message :: rest =>
           if ws_is_open w then
             let w := upd (set_messageQueue rest) w in
             if truthy message
             then send message w >>= processMessageQueue_loop (S fuel)
             else processMessageQueue_loop (S fuel) w
           else Returns w
       end).
    cbn [processMessageQueue_loop].
    destruct (messageQueue (svc w)) as [|m rest] eqn:Hq; [reflexivity|].
    destruct (ws_is_open w) eqn:Hopen; [|reflexivity].
    apply ws_is_open_inv in Hopen. destruct Hopen as [sid Hopen].
    assert (Hb1 : (drain_budget (upd (set_messageQueue rest) w) <= fuel)%nat).
    { unfold drain_budget in *. simp. rewrite Hq in Hb. cbn [length] in Hb. lia. }
    cbn zeta. destruct (truthy m); [|apply IH, Hb1].
    destruct (send m (upd (set_messageQueue rest) w)) as [w'|e w'] eqn:Hsend;
      [|reflexivity].
    cbn [andThen]. apply IH.
    pose proof (send_budget m (upd (set_messageQueue rest) w) w' sid Hopen Hsend). lia.
Qed.

(** Any fuel from the budget upwards gives the same result. *)
Lemma processMessageQueue_enough_fuel (fuel : nat) (w : World) :
  (drain_budget w <= fuel)%nat ->
  processMessageQueue_loop fuel w = processMessageQueue w.
Proof.
  unfold processMessageQueue. fold (drain_budget w).
  induction 1 as [|fuel Hle IH]; [reflexivity|].
  rewrite processMessageQueue_loop_step by exact Hle. exact IH.
Qed.

(** The recursive equation of the [while] loop. *)
Lemma processMessageQueue_unfold (w : World) :
  processMessageQueue w =
    match messageQueue (svc w) with
    | [] => Returns w
    | message :: rest =>
        if ws_is_open w then
          let w := upd (set_messageQueue rest) w in
          if truthy message then send message w >>= processMessageQueue
          else processMessageQueue w
        else Returns w
    end.
Proof.
  destruct (messageQueue (svc w)) as [|m rest] eqn:Hq.
  - unfold processMessageQueue. rewrite Hq.
    destruct (length _ + _)%nat; cbn [processMessageQueue_loop]; rewrite ?Hq; reflexivity.
  - unfold processMessageQueue at 1. rewrite Hq.
    cbn [length Nat.add processMessageQueue_loop]. rewrite Hq.
    destruct (ws_is_open w) eqn:Hopen; [|reflexivity].
    apply ws_is_open_inv in Hopen. destruct Hopen as [sid Hopen].
    cbn zeta. destruct (truthy m).
    + destruct (send m (upd (set_messageQueue rest) w)) as [w'|e w'] eqn:Hsend;
        [|reflexivity].
      cbn [andThen]. apply processMessageQueue_enough_fuel.
      apply (send_budget m (upd (set_messageQueue rest) w) w' sid Hopen Hsend).
    + apply processMessageQueue_enough_fuel. unfold drain_budget. simp. lia.
Qed.

(** The loop is left only by its own test (or by an exception of [send]):
    when [processMessageQueue] returns, the queue is empty or the transport
    is not open. *)
Lemma processMessageQueue_exits (w : World) :
  forall w', processMessageQueue w = Returns w' ->
             messageQueue (svc w') = [] \/ ws_is_open w' = false.
Proof.
  remember (drain_budget w) as b eqn:Hb.
  assert (Hle : (drain_budget w <= b)%nat) by lia. clear Hb.
  revert w Hle. induction b as [|b IH]; intros w Hle w'.
  - rewrite processMessageQueue_unfold.
    unfold drain_budget in Hle.
    destruct (messageQueue (svc w)) eqn:Hq; [|cbn [length] in Hle; lia].
    intro H. injection H as <-. left. exact Hq.
  - rewrite processMessageQueue_unfold.
    destruct (messageQueue (svc w)) as [|m rest] eqn:Hq.
    { intro H. injection H as <-. left. exact Hq. }
    destruct (ws_is_open w) eqn:Hopen.
    2:{ intro H. injection H as <-. right. exact Hopen. }
    apply ws_is_open_inv in Hopen. destruct Hopen as [sid Hopen].
    assert (Hb1 : (drain_budget (upd (set_messageQueue rest) w) <= b)%nat).
    { unfold drain_budget in *. simp. rewrite Hq in Hle. cbn [length] in Hle. lia. }
    cbn zeta. destruct (truthy m); [|apply IH, Hb1].
    destruct (send m (upd (set_messageQueue rest) w)) as [w1|e w1] eqn:Hsend;
      [|discriminate].
    cbn [andThen]. apply IH.
    pose proof (send_budget m (upd (set_messageQueue rest) w) w1 sid Hopen Hsend). lia.
Qed.

(** *** The drain is first-in, first-out *)

Lemma nth_error_list_update_eq {A : Type} (l : list A) (n : nat) (f : A -> A) :
  nth_error (list_update l n f) n = option_map f (nth_error l n).
Proof.
  revert n. induction l as [|x l IH]; intros [|n]; cbn; auto.
Qed.

Lemma nth_error_list_update_neq {A : Type} (l : list A) (n k : nat) (f : A -> A) :
  n <> k -> nth_error (list_update l n f) k = nth_error l k.
Proof.
  revert n k. induction l as [|x l IH]; intros [|n] [|k] H; cbn; auto; congruence.
Qed.

(** What an accepted [ws.send] leaves behind. *)
Lemma send_accepted (m : Message) (w : World) (sid : nat) :
  open_socket w = Some sid -> sendable m = true ->
  hd SendOk (sendScript w) <> SendThrows ->
  exists w',
    send m w = Returns w' /\
    messageQueue (svc w') = messageQueue (svc w) /\
    sendScript w' = tl (sendScript w) /\
    ws (svc w') = ws (svc w) /\
    socket_state w' sid =
      Some (match hd SendOk (sendScript w) with SendCloses => CLOSING | _ => OPEN end) /\
    transmitted w' sid = transmitted w sid ++ [frame_of m] /\
    (forall other, other <> sid -> transmitted w' other = transmitted w other).
Proof.
  intros Hopen Hm Hscript.
  pose proof Hopen as Hinv. apply open_socket_inv in Hinv. destruct Hinv as [Hws Hst].
  unfold socket_state in Hst.
  destruct (nth_error (sockets w) sid) as [k|] eqn:Hk; [|discriminate].
  cbn [option_map] in Hst. injection Hst as Hst.
  unfold send, sendable, frame_of in *. rewrite Hopen.
  destruct (stringify m) as [str|]; [|discriminate].
  destruct (_ >? _); [discriminate|].
  unfold ws_send.
  destruct (sendScript w) as [|[] rest] eqn:Hs; cbn [hd tl] in *; try congruence;
    (eexists; split; [reflexivity|]); simp;
    unfold socket_state, transmitted; simp;
    rewrite nth_error_list_update_eq, Hk; cbn [option_map accept_frame readyState sent];
    rewrite ?Hst;
    repeat split; try reflexivity; try assumption;
    intros; rewrite nth_error_list_update_neq by congruence; reflexivity.
Qed.






(** The empty text is the one message the drain does not deliver: the test
    [if (message)] in the loop takes it for a missing element, so it leaves
    the queue without being sent. *)
Lemma drain_skips_empty_text :
  let w := run [CallSend (MText ""); CallSend (MText "A"); CallConnect]
               (initial_world 0 []) in
  let w' := step (SocketOpen 0) w in
  messageQueue (svc w) = [MText ""; MText "A"] /\
  transmitted w' 0 = ["A"%string] /\
  messageQueue (svc w') = [].
Proof. vm_compute. repeat split. Qed.

Lemma sendable_skipn (n : nat) (q : list Message) :
  Forall (fun m => sendable m = true) q ->
  Forall (fun m => sendable m = true) (skipn n q).
Proof.
  revert q. induction n as [|n IH]; intros q H; [exact H|].
  destruct H; cbn [skipn]; auto.
Qed.

Lemma sendable_push (m : Message) (q : list Message) :
  sendable m = true -> (length q < MAX_QUEUE_SIZE)%nat ->
  Forall (fun m => sendable m = true) q ->
  Forall (fun m => sendable m = true) (q ++ [m]).
Proof. intros Hm _ Hq. apply Forall_app. auto. Qed.

(** Whatever has happened, the queue holds sendable messages only. *)
Lemma reachable_queue_sendable (t0 : Z) (script : list SendOutcome) (events : list Event) :
  queue_sendable (run events (initial_world t0 script)).
Proof.
  apply (run_inv _ sendable_skipn sendable_push). constructor.
Qed.



(** ** Health monitor *)

Lemma logged_log (p : LogMsg -> bool) (msg : LogMsg) (level : LogLevel) (w : World) :
  logged p (log msg level w) = (logged p w + if p msg then 1 else 0)%nat.
Proof.
  unfold logged, log. simp. rewrite filter_app, length_app. cbn [filter snd].
  destruct (p msg); reflexivity.
Qed.

Lemma disconnect_console (w : World) : console (disconnect w) = console w.
Proof. unfold disconnect, stopHealthChecks. by_cases. Qed.

Lemma connect_logged (p : LogMsg -> bool) (w : World) :
  p LogRateLimit = false -> p LogConstructionFailed = false ->
  p LogConnectionError = false ->
  logged p (connect w) = logged p w.
Proof.
  intros H1 H2 H3. unfold connect, checkRateLimit, handleError, new_WebSocket.
  destruct (_ || _); [reflexivity|].
  destruct (negb _); [reflexivity|].
  destruct (_ >? _); simp; destruct (_ <=? _)%nat; simp;
    try destruct (constructorThrows w); simp;
    unfold logged; simp; rewrite ?filter_app; cbn [filter snd];
    rewrite ?H1, ?H2, ?H3, ?app_nil_r; reflexivity.
Qed.

Lemma reconnect_logged (p : LogMsg -> bool) (w : World) :
  p LogRateLimit = false -> p LogConstructionFailed = false ->
  p LogConnectionError = false ->
  logged p (reconnect w) = logged p w.
Proof.
  intros H1 H2 H3. unfold reconnect. rewrite connect_logged by assumption.
  unfold logged. simp. rewrite disconnect_console. reflexivity.
Qed.

Lemma transmitted_list_update (l : list Socket) (n sid : nat) (f : Socket -> Socket) :
  (forall k, sent (f k) = sent k) ->
  match nth_error (list_update l n f) sid with Some k => sent k | None => [] end =
  match nth_error l sid with Some k => sent k | None => [] end.
Proof.
  intro Hf. destruct (Nat.eq_dec n sid) as [->|Hne].
  - rewrite nth_error_list_update_eq. destruct (nth_error l sid); cbn; auto.
  - rewrite nth_error_list_update_neq by exact Hne. reflexivity.
Qed.

Lemma disconnect_sockets_shape (w : World) :
  exists n, sockets (disconnect w) = sockets w \/
            sockets (disconnect w) = sockets (ws_close n w).
Proof.
  unfold disconnect, stopHealthChecks, clear_timer, ws_close.
  by_cases; try (exists 0%nat; left; reflexivity); eexists; right; reflexivity.
Qed.

Lemma disconnect_transmitted (w : World) (sid : nat) :
  transmitted (disconnect w) sid = transmitted w sid.
Proof.
  destruct (disconnect_sockets_shape w) as [n [E|E]]; unfold transmitted; rewrite E.
  - reflexivity.
  - unfold ws_close. simp. apply transmitted_list_update.
    intro k. destruct (readyState k); reflexivity.
Qed.

Lemma connect_sockets_shape (w : World) :
  sockets (connect w) = sockets w \/
  sockets (connect w) = sockets w ++ [{| readyState := CONNECTING; sent := [] |}].
Proof.
  unfold connect, checkRateLimit, handleError, new_WebSocket.
  by_cases; auto.
Qed.

Lemma connect_transmitted (w : World) (sid : nat) :
  transmitted (connect w) sid = transmitted w sid.
Proof.
  destruct (connect_sockets_shape w) as [E|E]; unfold transmitted; rewrite E;
    [reflexivity|].
  destruct (Nat.lt_ge_cases sid (length (sockets w))) as [Hlt|Hge].
  - rewrite nth_error_app1 by exact Hlt. reflexivity.
  - rewrite nth_error_app2 by exact Hge.
    replace (nth_error (sockets w) sid) with (@None Socket)
      by (symmetry; apply nth_error_None; exact Hge).
    destruct (sid - length (sockets w))%nat as [|[|n]]; reflexivity.
Qed.

Lemma reconnect_transmitted (w : World) (sid : nat) :
  transmitted (reconnect w) sid = transmitted w sid.
Proof.
  unfold reconnect. rewrite connect_transmitted.
  change (transmitted (upd (set_reconnectCount 0%nat) (disconnect w)) sid)
    with (transmitted (disconnect w) sid).
  apply disconnect_transmitted.
Qed.

Lemma connect_timers (w : World) :
  timers (connect w) = timers w /\
  healthCheckTimer (svc (connect w)) = healthCheckTimer (svc w) /\
  nextTimerId (connect w) = nextTimerId w.
Proof.
  unfold connect, checkRateLimit, handleError, new_WebSocket. by_cases; repeat split.
Qed.

Lemma connect_sockets (w : World) :
  (length (sockets (connect w)) <= S (length (sockets w)))%nat.
Proof.
  destruct (connect_sockets_shape w) as [E|E]; rewrite E, ?length_app; cbn [length]; lia.
Qed.

Lemma length_list_update {A : Type} (l : list A) (n : nat) (f : A -> A) :
  length (list_update l n f) = length l.
Proof. revert n. induction l as [|x l IH]; intros [|n]; cbn; auto. Qed.

Lemma disconnect_sockets (w : World) :
  length (sockets (disconnect w)) = length (sockets w).
Proof.
  unfold disconnect, stopHealthChecks, ws_close.
  by_cases; apply length_list_update.
Qed.

Lemma stopHealthChecks_timers (w : World) :
  healthCheckTimer (svc (stopHealthChecks w)) = None /\
  nextTimerId (stopHealthChecks w) = nextTimerId w /\
  forall t, In t (timers (stopHealthChecks w)) ->
            In t (timers w) /\ healthCheckTimer (svc w) <> Some (timerId t).
Proof.
  unfold stopHealthChecks, clear_timer.
  destruct (healthCheckTimer (svc w)) as [id|] eqn:E; simp; repeat split; auto;
    try discriminate.
  - apply filter_In in H. tauto.
  - apply filter_In in H. destruct H as [_ H].
    intro Heq. injection Heq as ->. rewrite Nat.eqb_refl in H. discriminate.
Qed.

Lemma disconnect_timers (w : World) :
  healthCheckTimer (svc (disconnect w)) = None /\
  nextTimerId (disconnect w) = nextTimerId w /\
  forall t, In t (timers (disconnect w)) ->
            In t (timers w) /\ healthCheckTimer (svc w) <> Some (timerId t).
Proof.
  destruct (stopHealthChecks_timers w) as (Hh & Hn & Hin).
  unfold disconnect. set (w1 := stopHealthChecks w) in *.
  assert (Hstep : forall w2,
            healthCheckTimer (svc w2) = None -> nextTimerId w2 = nextTimerId w ->
            (forall t, In t (timers w2) ->
                       In t (timers w) /\ healthCheckTimer (svc w) <> Some (timerId t)) ->
            let w3 := match ws (svc w2) with
                      | Some sid => upd (set_ws None) (ws_close sid w2)
                      | None => w2
                      end in
            healthCheckTimer (svc w3) = None /\ nextTimerId w3 = nextTimerId w /\
            (forall t, In t (timers w3) ->
                       In t (timers w) /\ healthCheckTimer (svc w) <> Some (timerId t))).
  { intros w2 H1 H2 H3. destruct (ws (svc w2)); simp; auto. }
  apply Hstep.
  - destruct (reconnectTimer (svc w1)); simp; exact Hh.
  - destruct (reconnectTimer (svc w1)); simp; exact Hn.
  - intros t Ht. apply Hin.
    destruct (reconnectTimer (svc w1)); unfold clear_timer in Ht; simp; [|exact Ht].
    apply filter_In in Ht. tauto.
Qed.

Lemma filter_none {A : Type} (f : A -> bool) (l : list A) :
  (forall x, In x l -> f x = false) -> filter f l = [].
Proof.
  induction l as [|x l IH]; intro H; [reflexivity|].
  cbn [filter]. rewrite (H x) by (left; reflexivity).
  apply IH. intros y Hy. apply H. right. exact Hy.
Qed.

(** After [reconnect] no health-check interval is pending, provided the ones
    that were pending were tracked. *)
Lemma reconnect_stops_health_checks (w : World) :
  health_tracked w ->
  healthCheckTimer (svc (reconnect w)) = None /\ pending HealthInterval (reconnect w) = [].
Proof.
  intro Htracked. unfold reconnect.
  destruct (connect_timers (upd (set_reconnectCount 0%nat) (disconnect w)))
    as (Ht & Hh & _).
  destruct (disconnect_timers w) as (Hnone & _ & Hin).
  split.
  - rewrite Hh. exact Hnone.
  - unfold pending. rewrite Ht. apply filter_none.
    intros t Ht'. change (In t (timers (disconnect w))) in Ht'.
    destruct (Hin t Ht') as [Hold Huntracked].
    destruct (timerKind t) eqn:Hkind; [reflexivity|].
    exfalso. apply Huntracked, Htracked; assumption.
Qed.

Lemma send_missedPings (m : Message) (w : World) :
  missedPings (svc (world_of (send m w))) = missedPings (svc w).
Proof. unfold send, ws_send, queueMessage. by_cases. Qed.

Lemma processMessageQueue_loop_missedPings (fuel : nat) (w : World) :
  missedPings (svc (world_of (processMessageQueue_loop fuel w))) = missedPings (svc w).
Proof.
  revert w. induction fuel as [|fuel IH]; intro w; [reflexivity|].
  cbn [processMessageQueue_loop].
  destruct (messageQueue (svc w)) as [|message rest]; [reflexivity|].
  destruct (ws_is_open w); [|reflexivity].
  destruct (truthy message).
  - pose proof (send_missedPings message (upd (set_messageQueue rest) w)) as Hs.
    destruct (send message (upd (set_messageQueue rest) w)) as [w'|e w']; simp.
    + rewrite IH. exact Hs.
    + exact Hs.
  - rewrite IH. reflexivity.
Qed.

(** Every open starts from a clean probe record. *)
Lemma handleOpen_missedPings (w : World) :
  missedPings (svc (world_of (handleOpen w))) = 0%nat.
Proof.
  unfold handleOpen, processMessageQueue.
  rewrite processMessageQueue_loop_missedPings.
  unfold startHealthChecks, stopHealthChecks, set_timer. by_cases.
Qed.

(** *** The health-check interval is a single, tracked timer *)

Lemma timers_ok_same (w w' : World) :
  timer_state w' = timer_state w -> timers_ok w -> timers_ok w'.
Proof.
  unfold timer_state, timers_ok, timers_fresh, health_tracked.
  intros E [Hf Hh]. injection E as -> -> ->. auto.
Qed.

Lemma connect_timer_state (w : World) : timer_state (connect w) = timer_state w.
Proof.
  unfold timer_state. destruct (connect_timers w) as (-> & -> & ->). reflexivity.
Qed.

Lemma send_timer_state (m : Message) (w : World) :
  timer_state (world_of (send m w)) = timer_state w.
Proof. unfold timer_state, send, ws_send, queueMessage. by_cases. Qed.

Lemma processMessageQueue_loop_timer_state (fuel : nat) (w : World) :
  timer_state (world_of (processMessageQueue_loop fuel w)) = timer_state w.
Proof.
  revert w. induction fuel as [|fuel IH]; intro w; [reflexivity|].
  cbn [processMessageQueue_loop].
  destruct (messageQueue (svc w)) as [|message rest]; [reflexivity|].
  destruct (ws_is_open w); [|reflexivity].
  destruct (truthy message).
  - pose proof (send_timer_state message (upd (set_messageQueue rest) w)) as Hs.
    destruct (send message (upd (set_messageQueue rest) w)) as [w'|e w']; simp.
    + rewrite IH. exact Hs.
    + exact Hs.
  - rewrite IH. reflexivity.
Qed.

Lemma handleMessage_timer_state (data : Inbound) (w : World) :
  timer_state (handleMessage data w) = timer_state w.
Proof.
  unfold timer_state, handleMessage, handleBinaryMessage, handlePong, notifyListeners.
  by_cases.
Qed.

Lemma telemetry_timer_state (w : World) :
  timer_state (checkForMemoryLeaks (checkPerformance w)) = timer_state w.
Proof.
  unfold timer_state, checkForMemoryLeaks, checkPerformance, cleanupResources,
    logPerformanceReport, debugMemoryUsage.
  by_cases.
Qed.

Lemma handleNetworkQualityChange_timer_state effectiveType downlink (w : World) :
  timer_state (handleNetworkQualityChange effectiveType downlink w) = timer_state w.
Proof.
  unfold timer_state, handleNetworkQualityChange, adjustForPoorConnection,
    adjustForGoodConnection.
  by_cases.
Qed.

Lemma addMessageListener_timer_state (l : nat) (w : World) :
  timer_state (addMessageListener l w) = timer_state w.
Proof. unfold timer_state, addMessageListener. by_cases. Qed.

Lemma stopHealthChecks_ok (w : World) :
  timers_ok w ->
  timers_ok (stopHealthChecks w) /\ pending HealthInterval (stopHealthChecks w) = [].
Proof.
  intros [Hf Hh]. destruct (stopHealthChecks_timers w) as (Hnone & Hnext & Hin).
  assert (Hno : forall t, In t (timers (stopHealthChecks w)) ->
                          timerKind t <> HealthInterval).
  { intros t Ht Hk. destruct (Hin t Ht) as [Hold Hun]. apply Hun, Hh; assumption. }
  split; [split|].
  - intros t Ht. rewrite Hnext. apply Hf, Hin, Ht.
  - intros t Ht Hk. exfalso. exact (Hno t Ht Hk).
  - apply filter_none. intros t Ht. specialize (Hno t Ht).
    destruct (timerKind t); congruence.
Qed.

Lemma disconnect_ok (w : World) : timers_ok w -> timers_ok (disconnect w).
Proof.
  intros [Hf Hh]. destruct (disconnect_timers w) as (Hnone & Hnext & Hin).
  split.
  - intros t Ht. rewrite Hnext. apply Hf, Hin, Ht.
  - intros t Ht Hk. exfalso. destruct (Hin t Ht) as [Hold Hun].
    apply Hun, Hh; assumption.
Qed.

Lemma reconnect_ok (w : World) : timers_ok w -> timers_ok (reconnect w).
Proof.
  intro H. unfold reconnect.
  apply (timers_ok_same (upd (set_reconnectCount 0%nat) (disconnect w)));
    [apply connect_timer_state|].
  apply (timers_ok_same (disconnect w)); [reflexivity|].
  apply disconnect_ok, H.
Qed.

Lemma set_timer_ok (kind : TimerKind) (delay : Z) (every : option Z) (w : World) :
  timers_ok w ->
  let w' := snd (set_timer kind delay every w) in
  timers_fresh w' /\
  forall t, In t (timers w') -> timerKind t = HealthInterval ->
            healthCheckTimer (svc w) = Some (timerId t) \/
            (kind = HealthInterval /\ timerId t = nextTimerId w).
Proof.
  intros [Hf Hh]. unfold set_timer. cbn [snd]. split.
  - intros t Ht. simp. apply in_app_or in Ht. destruct Ht as [Ht|[<-|[]]].
    + specialize (Hf t Ht). lia.
    + cbn [timerId]. lia.
  - intros t Ht Hk. simp. apply in_app_or in Ht. destruct Ht as [Ht|[<-|[]]].
    + left. apply Hh; assumption.
    + right. cbn [timerKind timerId] in *. auto.
Qed.

Lemma startHealthChecks_ok (w : World) : timers_ok w -> timers_ok (startHealthChecks w).
Proof.
  intro H. destruct (stopHealthChecks_ok w H) as [Hok Hnone].
  destruct (stopHealthChecks_timers w) as (Hh & _ & _).
  unfold startHealthChecks. set (w1 := stopHealthChecks w) in *.
  pose proof (set_timer_ok HealthInterval (HEALTH_CHECK_INTERVAL (svc w1))
                (Some (HEALTH_CHECK_INTERVAL (svc w1))) w1 Hok) as [Hfresh Hkinds].
  unfold set_timer in *. cbn [snd] in *. split.
  - exact Hfresh.
  - intros t Ht Hk. simp. destruct (Hkinds t Ht Hk) as [Hold|[_ Hnew]].
    + rewrite Hh in Hold. discriminate.
    + rewrite Hnew. reflexivity.
Qed.

Lemma attemptReconnect_ok (w : World) : timers_ok w -> timers_ok (attemptReconnect w).
Proof.
  intro H. unfold attemptReconnect.
  destruct (_ <? _)%nat; [|exact H].
  set (w1 := upd (fun s => set_reconnectCount (S (reconnectCount s)) s) w).
  assert (H1 : timers_ok w1) by exact H.
  pose proof (set_timer_ok ReconnectTimeout (Qfloor (calculateBackoffDelay (svc w1)))
                None w1 H1) as [Hfresh Hkinds].
  unfold set_timer in *. cbn [snd] in *. split.
  - exact Hfresh.
  - intros t Ht Hk. simp. destruct (Hkinds t Ht Hk) as [Hold|[Hbad _]].
    + exact Hold.
    + discriminate.
Qed.

Lemma handleClose_ok (w : World) : timers_ok w -> timers_ok (handleClose w).
Proof.
  intro H. unfold handleClose. apply attemptReconnect_ok.
  apply (timers_ok_same
           (stopHealthChecks (log (LogClosed (now w - connectionStartTime (svc w))) warn w)));
    [reflexivity|].
  apply stopHealthChecks_ok. exact H.
Qed.

Lemma handleOpen_ok (w : World) : timers_ok w -> timers_ok (world_of (handleOpen w)).
Proof.
  intro H. unfold handleOpen, processMessageQueue.
  eapply timers_ok_same; [apply processMessageQueue_loop_timer_state|].
  apply startHealthChecks_ok. exact H.
Qed.

Lemma performHealthCheck_ok (w : World) :
  timers_ok w -> timers_ok (world_of (performHealthCheck w)).
Proof.
  intro H. unfold performHealthCheck.
  assert (Hping : forall w', timers_ok w' ->
            timers_ok (world_of (if ws_is_open w'
                                 then send ping (log LogSendingPing info w')
                                 else Returns w'))).
  { intros w' H'. destruct (ws_is_open w'); [|exact H'].
    eapply timers_ok_same; [apply send_timer_state|exact H']. }
  destruct (_ >? _); [|apply Hping; exact H].
  destruct (_ <=? _)%nat; [|apply Hping; exact H].
  cbn [world_of]. apply reconnect_ok. exact H.
Qed.

Lemma checkZombieConnection_ok (w : World) :
  timers_ok w -> timers_ok (checkZombieConnection w).
Proof.
  intro H. unfold checkZombieConnection.
  destruct (_ && _); [apply reconnect_ok|]; exact H.
Qed.

Lemma fire_timer_ok (id : nat) (w : World) : timers_ok w -> timers_ok (fire_timer id w).
Proof.
  intros [Hf Hh]. unfold fire_timer.
  destruct (find _ (timers w)) as [t|]; [|split; assumption].
  destruct (due t <=? now w); [|split; assumption].
  assert (Hre : timers_ok match period t with
                          | Some p =>
                              set_timers
                                (map (fun t' => if Nat.eqb (timerId t') id
                                                then {| timerId := id; timerKind := timerKind t';
                                                        due := due t' + p; period := period t' |}
                                                else t') (timers w)) w
                          | None => clear_timer id w
                          end).
  { destruct (period t) as [p|].
    - assert (Hmap : forall t', In t' (timers w) ->
                let t2 := if Nat.eqb (timerId t') id
                          then {| timerId := id; timerKind := timerKind t';
                                  due := due t' + p; period := period t' |}
                          else t' in
                timerId t2 = timerId t' /\ timerKind t2 = timerKind t').
      { intros t' _. cbn zeta. destruct (Nat.eqb_spec (timerId t') id); cbn; auto. }
      split; intros t2 Ht2; simp; apply in_map_iff in Ht2;
        destruct Ht2 as (t' & <- & Ht'); destruct (Hmap t' Ht') as [Hid Hkind];
        cbn zeta in Hid, Hkind; rewrite ?Hid, ?Hkind; auto.
    - unfold clear_timer. split; intros t2 Ht2; simp;
        apply filter_In in Ht2; destruct Ht2 as [Ht2 _]; auto. }
  destruct (timerKind t); cbn [timer_callback].
  - eapply timers_ok_same; [apply connect_timer_state|]. exact Hre.
  - apply performHealthCheck_ok. exact Hre.
Qed.

Lemma step_timers_ok (e : Event) (w : World) : timers_ok w -> timers_ok (step e w).
Proof.
  intro H. destruct e; cbn [step]; try exact H.
  - eapply timers_ok_same; [apply connect_timer_state|exact H].
  - apply disconnect_ok, H.
  - apply reconnect_ok, H.
  - eapply timers_ok_same; [apply send_timer_state|exact H].
  - eapply timers_ok_same; [apply addMessageListener_timer_state|exact H].
  - destruct (socket_state w sid) as [[]|]; try exact H. apply handleOpen_ok, H.
  - destruct (socket_state w sid) as [[]|]; try exact H; apply handleClose_ok, H.
  - destruct (socket_state w sid) as [[]|]; exact H.
  - destruct (socket_state w sid) as [[]|]; try exact H;
      (eapply timers_ok_same; [apply handleMessage_timer_state|exact H]).
  - apply fire_timer_ok, H.
  - apply reconnect_ok, H.
  - apply disconnect_ok, H.
  - rewrite handleWindowFocus_inert. destruct (ws_is_open w); exact H.
  - unfold handleVisibilityChange. destruct visible; [|exact H].
    apply checkZombieConnection_ok, H.
  - eapply timers_ok_same; [apply handleNetworkQualityChange_timer_state|exact H].
  - eapply timers_ok_same; [apply telemetry_timer_state|exact H].
Qed.

(** Whatever has happened, at most the tracked health-check interval is
    pending. *)
Lemma reachable_health_tracked (t0 : Z) (script : list SendOutcome) (events : list Event) :
  health_tracked (run events (initial_world t0 script)).
Proof.
  assert (H : timers_ok (run events (initial_world t0 script))).
  { assert (H0 : timers_ok (initial_world t0 script)) by (split; intros t []).
    revert H0. generalize (initial_world t0 script).
    induction events as [|e events IH]; intros w Hw; [exact Hw|].
    cbn [run fold_left]. apply IH, step_timers_ok, Hw. }
  exact (proj2 H).
Qed.

(** * Further properties of the service *)

(** ** connect, disconnect and reconnect *)

Lemma disconnect_handles (w : World) :
  ws (svc (disconnect w)) = None /\
  reconnectTimer (svc (disconnect w)) = None /\
  healthCheckTimer (svc (disconnect w)) = None.
Proof.
  unfold disconnect, stopHealthChecks, clear_timer, ws_close.
  destruct (healthCheckTimer (svc w)) eqn:Hh; simp;
    destruct (reconnectTimer (svc w)) eqn:Hr; simp;
    destruct (ws (svc w)) eqn:Hw; simp; repeat split; assumption.
Qed.

Lemma disconnect_nothing_to_do (w : World) :
  ws (svc w) = None -> reconnectTimer (svc w) = None ->
  healthCheckTimer (svc w) = None -> disconnect w = w.
Proof.
  intros Hw Hr Hh. unfold disconnect, stopHealthChecks.
  rewrite Hh. simp. rewrite Hr. simp. rewrite Hw. reflexivity.
Qed.

(** [disconnect] is idempotent, and after it the service holds no socket and
    no timer handle: [isConnected] answers false and [getConnectionState]
    answers undefined. *)
Theorem disconnect_idempotent (w : World) :
  disconnect (disconnect w) = disconnect w /\
  ws (svc (disconnect w)) = None /\
  reconnectTimer (svc (disconnect w)) = None /\
  healthCheckTimer (svc (disconnect w)) = None /\
  isConnected (disconnect w) = false /\
  getConnectionState (disconnect w) = None.
Proof.
  destruct (disconnect_handles w) as (Hw & Hr & Hh).
  split; [apply disconnect_nothing_to_do; assumption|].
  repeat split; try assumption.
  - unfold isConnected, ws_is_open, open_socket. rewrite Hw. reflexivity.
  - unfold getConnectionState, ws_readyState. rewrite Hw. reflexivity.
Qed.

Lemma connect_in_flight (w : World) :
  isReconnecting (svc w) = true -> connect w = w.
Proof. intro H. unfold connect. rewrite H. reflexivity. Qed.

Lemma connect_constructor_throws (w : World) :
  constructorThrows w = true ->
  sockets (connect w) = sockets w /\ ws (svc (connect w)) = ws (svc w) /\
  constructorThrows (connect w) = true.
Proof.
  intro H. unfold connect, checkRateLimit, handleError.
  destruct (_ || _); [auto|].
  destruct (negb _); [auto|].
  destruct (_ >? _); simp; destruct (_ <=? _)%nat; simp; rewrite ?H; simp; auto.
Qed.

Lemma connect_keeps_environment (w : World) :
  constructorThrows (connect w) = constructorThrows w /\
  hasWindow (connect w) = hasWindow w /\ now (connect w) = now w.
Proof.
  unfold connect, checkRateLimit, handleError, new_WebSocket. by_cases; auto.
Qed.

Lemma connect_outcome (w : World) :
  connect w = w \/
  (connect w = log LogRateLimit error w /\
   (MAX_RATE_LIMIT_ATTEMPTS <= count (rateLimitCounter (svc w)))%nat /\
   now w - timestamp (rateLimitCounter (svc w)) <= RATE_LIMIT_RESET) \/
  constructorThrows w = true \/
  isReconnecting (svc (connect w)) = true.
Proof.
  unfold connect.
  destruct (_ || _); [auto|].
  destruct (negb _); [auto|].
  destruct (Z_gt_le_dec (now w - timestamp (rateLimitCounter (svc w))) RATE_LIMIT_RESET)
    as [Hgt|Hle].
  - rewrite (checkRateLimit_after_window w Hgt). simp.
    destruct (constructorThrows w); simp; auto.
  - rewrite (checkRateLimit_within_window w Hle).
    destruct (Nat.leb_spec MAX_RATE_LIMIT_ATTEMPTS (count (rateLimitCounter (svc w))));
      simp; [right; left; auto|].
    destruct (constructorThrows w); simp; auto.
Qed.

(** A second [connect] right after a first creates no second transport: the
    first one either created a socket and set the "connecting" flag, or was
    turned down for a reason that still holds. *)
Theorem connect_twice_creates_one_socket (w : World) :
  sockets (connect (connect w)) = sockets (connect w) /\
  ws (svc (connect (connect w))) = ws (svc (connect w)) /\
  (length (sockets (connect (connect w))) <= S (length (sockets w)))%nat.
Proof.
  assert (H : sockets (connect (connect w)) = sockets (connect w) /\
              ws (svc (connect (connect w))) = ws (svc (connect w))).
  { destruct (connect_outcome w) as [E|[(E & Hfull & Hwin)|[Hthrows|Hflag]]].
    - rewrite !E. auto.
    - rewrite E.
      destruct (connect_blocked (log LogRateLimit error w) Hfull Hwin) as [E'|E'];
        rewrite E'; auto.
    - destruct (connect_keeps_environment w) as (Henv & _ & _).
      rewrite <- Henv in Hthrows.
      destruct (connect_constructor_throws (connect w) Hthrows) as (H1 & H2 & _). auto.
    - rewrite (connect_in_flight (connect w) Hflag). auto. }
  destruct H as [Hs Hw]. repeat split; try assumption.
  rewrite Hs. apply connect_sockets.
Qed.

(** When [new WebSocket] raises, [connect] logs the failure and clears the
    "connecting" flag, but creates no socket and sets no timer: the attempt
    has used up a slot of the rate limiter and nothing will retry it. *)
Theorem connect_construction_failure (w : World) :
  isReconnecting (svc w) = false -> ws_is_open w = false -> hasWindow w = true ->
  constructorThrows w = true -> fst (checkRateLimit w) = true ->
  sockets (connect w) = sockets w /\
  ws (svc (connect w)) = ws (svc w) /\
  timers (connect w) = timers w /\
  reconnectTimer (svc (connect w)) = reconnectTimer (svc w) /\
  isReconnecting (svc (connect w)) = false /\
  rateLimitCounter (svc (connect w)) = rateLimitCounter (svc (snd (checkRateLimit w))) /\
  (0 < count (rateLimitCounter (svc (connect w))))%nat /\
  console (connect w) =
    console w ++ [(error, LogConstructionFailed); (error, LogConnectionError)].
Proof.
  intros Hflag Hopen Hwin Hthrows Hpermit.
  unfold connect. rewrite Hflag, Hopen, Hwin. cbn [orb negb].
  unfold checkRateLimit in *.
  destruct (_ >? _); simp; destruct (_ <=? _)%nat; simp; try discriminate;
    rewrite Hthrows; unfold handleError; simp;
    rewrite <- app_assoc; repeat split; lia.
Qed.

Lemma connect_construction_failure_witness :
  let w := set_constructorThrows true (initial_world 0 []) in
  sockets (connect w) = [] /\ timers (connect w) = [] /\
  count (rateLimitCounter (svc (connect w))) = 1%nat.
Proof.
  cbn zeta.
  destruct (connect_construction_failure (set_constructorThrows true (initial_world 0 [])))
    as (Hs & _ & Ht & _ & _ & Hrl & _); try reflexivity.
  split; [exact Hs|]. split; [exact Ht|]. rewrite Hrl. reflexivity.
Defined.

(** [reconnect] while a connection attempt is in flight closes that attempt
    and creates no other: [disconnect] leaves the "connecting" flag set, and
    [connect] returns at once because of it.  The service is left without a
    socket until the close event of the abandoned attempt arrives. *)
Theorem reconnect_while_connecting (w : World) :
  isReconnecting (svc w) = true ->
  ws (svc (reconnect w)) = None /\
  length (sockets (reconnect w)) = length (sockets w) /\
  isConnected (reconnect w) = false /\
  isReconnecting (svc (reconnect w)) = true /\
  timers (reconnect w) = timers (disconnect w) /\
  forall sid, ws (svc w) = Some sid -> socket_state w sid = Some CONNECTING ->
              socket_state (reconnect w) sid = Some CLOSING.
Proof.
  intro Hflag. unfold reconnect.
  assert (Hflag' : isReconnecting (svc (upd (set_reconnectCount 0%nat) (disconnect w))) = true).
  { simp. unfold disconnect, stopHealthChecks, clear_timer, ws_close. by_cases; assumption. }
  rewrite (connect_in_flight _ Hflag'). simp.
  destruct (disconnect_handles w) as (Hw & _ & _).
  split; [exact Hw|]. split; [apply disconnect_sockets|].
  split; [unfold isConnected, ws_is_open, open_socket; simp; rewrite Hw; reflexivity|].
  split; [exact Hflag'|]. split; [reflexivity|].
  intros sid Hws Hst.
  unfold socket_state in *.
  destruct (nth_error (sockets w) sid) as [k|] eqn:Hk; [|discriminate].
  cbn [option_map] in Hst. injection Hst as Hst.
  unfold disconnect, stopHealthChecks, clear_timer.
  destruct (healthCheckTimer (svc w)); simp;
    destruct (reconnectTimer (svc w)); simp; rewrite Hws; unfold ws_close; simp;
    rewrite nth_error_list_update_eq, Hk; cbn [option_map]; rewrite Hst; reflexivity.
Qed.

Lemma reconnect_while_connecting_witness :
  let w := run [CallConnect] (initial_world 0 []) in
  ws (svc (reconnect w)) = None /\ length (sockets (reconnect w)) = 1%nat /\
  socket_state (reconnect w) 0 = Some CLOSING.
Proof.
  cbn zeta.
  destruct (reconnect_while_connecting (run [CallConnect] (initial_world 0 [])))
    as (Hw & Hs & _ & _ & _ & Hst); [reflexivity|].
  split; [exact Hw|]. split; [exact Hs|]. apply Hst; reflexivity.
Defined.

(** ** send, the drain and the trim *)

(** A sendable message is never lost while the queue has room: [send] either
    hands its text to the open socket (one frame, counted in [txCount] and
    [txBytes], the queue untouched) or appends the message to the queue; it
    queues on an open socket only when [ws.send] raised, and then logs the
    error. *)
Theorem send_delivers_or_queues (m : Message) (w : World) :
  sendable m = true -> (length (messageQueue (svc w)) < MAX_QUEUE_SIZE)%nat ->
  exists w',
    send m w = Returns w' /\
    ((exists sid,
        open_socket w = Some sid /\
        transmitted w' sid = transmitted w sid ++ [frame_of m] /\
        messageQueue (svc w') = messageQueue (svc w) /\
        txCount (svc w') = S (txCount (svc w)) /\
        txBytes (svc w') = txBytes (svc w) + getMessageSize (frame_of m) /\
        console w' = console w) \/
     (messageQueue (svc w') = messageQueue (svc w) ++ [m] /\
      sockets w' = sockets w /\
      txCount (svc w') = txCount (svc w) /\
      txBytes (svc w') = txBytes (svc w) /\
      console w' = console w ++ (if ws_is_open w then [(error, LogSendError)] else []))).
Proof.
  intros Hm Hroom. apply Nat.ltb_lt in Hroom.
  unfold send, sendable, frame_of, ws_is_open in *.
  destruct (stringify m) as [str|]; [|discriminate].
  destruct (_ >? _); [discriminate|].
  destruct (open_socket w) as [sid|] eqn:Hopen.
  - apply open_socket_inv in Hopen. destruct Hopen as [Hws Hst].
    unfold socket_state in Hst.
    destruct (nth_error (sockets w) sid) as [k|] eqn:Hk; [|discriminate].
    unfold ws_send.
    destruct (sendScript w) as [|[] rest]; simp;
      try (eexists; split; [reflexivity|]; left; exists sid; simp;
           unfold transmitted; simp;
           rewrite nth_error_list_update_eq, Hk; cbn [option_map accept_frame sent];
           repeat split; reflexivity).
    unfold queueMessage. simp. rewrite Hroom.
    eexists. split; [reflexivity|]. right. simp. repeat split.
  - unfold queueMessage. rewrite Hroom.
    eexists. split; [reflexivity|]. right. simp. rewrite app_nil_r. repeat split.
Qed.

Lemma send_delivers_or_queues_witness :
  exists w',
    send (MText "A") (initial_world 0 []) = Returns w' /\
    messageQueue (svc w') = [MText "A"] /\ sockets w' = [].
Proof.
  destruct (send_delivers_or_queues (MText "A") (initial_world 0 []))
    as (w' & Hsend & [(sid & Hopen & _)|(Hq & Hs & _)]).
  - reflexivity.
  - apply Nat.ltb_lt. reflexivity.
  - discriminate Hopen.
  - exists w'. split; [exact Hsend|]. split; [exact Hq|exact Hs].
Defined.

Lemma send_queue_length (m : Message) (w : World) :
  (length (messageQueue (svc (world_of (send m w)))) <= S (length (messageQueue (svc w))))%nat.
Proof.
  assert (Hq : forall v, (length (messageQueue (svc (queueMessage m v)))
                          <= S (length (messageQueue (svc v))))%nat).
  { intro v. unfold queueMessage. destruct (_ <? _)%nat; simp;
      rewrite ?length_app; cbn [length]; lia. }
  unfold send.
  destruct (stringify m) as [str|]; [|cbn [world_of]; lia].
  destruct (_ >? _); [simp; lia|].
  destruct (open_socket w) as [sid|]; [|apply Hq].
  unfold ws_send. destruct (sendScript w) as [|[] rest]; simp; try lia.
  apply (Hq (log LogSendError error (set_sendScript rest w))).
Qed.

Lemma raises_le (script : list SendOutcome) : (raises script <= length script)%nat.
Proof.
  unfold raises. induction script as [|outcome script IH]; [apply le_n|].
  cbn [filter length]. destruct outcome; cbn [length]; lia.
Qed.

Lemma send_turns (m : Message) (w w' : World) (sid : nat) :
  open_socket w = Some sid -> send m w = Returns w' ->
  (drain_turns w' <= drain_turns w)%nat.
Proof.
  intros Hopen. unfold send, drain_turns. rewrite Hopen.
  destruct (stringify m) as [str|]; [|discriminate].
  destruct (_ >? _); [intro H; injection H as <-; simp; lia|].
  unfold ws_send, queueMessage, raises.
  destruct (sendScript w) as [|[] rest] eqn:Hs; simp;
    intro H; injection H as <-; simp; try rewrite Hs; cbn [filter length]; try lia.
  destruct (_ <? _)%nat; simp; try rewrite length_app; cbn [length]; lia.
Qed.

Lemma drain_within (b : nat) :
  forall w,
    (drain_turns w <= b)%nat -> queue_sendable w ->
    exists w',
      (forall fuel, (b <= fuel)%nat -> processMessageQueue_loop fuel w = Returns w') /\
      (messageQueue (svc w') = [] \/ ws_is_open w' = false) /\
      (length (messageQueue (svc w')) <= length (messageQueue (svc w)))%nat /\
      queue_sendable w'.
Proof.
  induction b as [|b IH]; intros w Hb Hq;
    unfold queue_sendable, drain_turns in *;
    destruct (messageQueue (svc w)) as [|m rest] eqn:Hqueue.
  - exists w. rewrite Hqueue. repeat split; auto.
    intros [|fuel] _; cbn [processMessageQueue_loop]; rewrite ?Hqueue; reflexivity.
  - cbn [length] in Hb. lia.
  - exists w. rewrite Hqueue. repeat split; auto.
    intros [|fuel] _; cbn [processMessageQueue_loop]; rewrite ?Hqueue; reflexivity.
  - destruct (ws_is_open w) eqn:Hopen.
    2:{ exists w. rewrite Hqueue. repeat split; auto.
        intros [|fuel] Hf; [lia|].
        cbn [processMessageQueue_loop]. rewrite Hqueue, Hopen. reflexivity. }
    pose proof Hopen as Hsid. apply ws_is_open_inv in Hsid. destruct Hsid as [sid Hsid].
    inversion Hq as [|? ? Hm Hrest]; subst.
    set (w1 := upd (set_messageQueue rest) w).
    assert (Hb1 : (length (messageQueue (svc w1)) + raises (sendScript w1) <= b)%nat)
      by (unfold w1; simp; cbn [length] in Hb; lia).
    destruct (truthy m) eqn:Htruthy.
    + assert (Hret : returns (send m w1) = true).
      { apply send_returns. unfold sendable in Hm. destruct (stringify m); congruence. }
      destruct (send m w1) as [w2|e w2] eqn:Hsend; [|discriminate].
      pose proof (send_turns m w1 w2 sid Hsid Hsend) as Hb2.
      pose proof (send_inv _ sendable_push m w1 Hrest) as Hq2.
      pose proof (send_queue_length m w1) as Hlen.
      rewrite Hsend in Hq2, Hlen. cbn [world_of] in Hq2, Hlen.
      destruct (IH w2) as (w' & Hrun & Hexit & Hshort & Hq');
        [unfold drain_turns in Hb2; lia | exact Hq2 |].
      exists w'. repeat split; auto.
      * intros [|fuel] Hf; [lia|].
        cbn [processMessageQueue_loop]. rewrite Hqueue, Hopen. cbn zeta. fold w1.
        rewrite Htruthy, Hsend. cbn [andThen]. apply Hrun. lia.
      * change (messageQueue (svc w1)) with rest in Hlen. cbn [length]. lia.
    + destruct (IH w1 Hb1 Hrest) as (w' & Hrun & Hexit & Hshort & Hq').
      exists w'. repeat split; auto.
      * intros [|fuel] Hf; [lia|].
        cbn [processMessageQueue_loop]. rewrite Hqueue, Hopen. cbn zeta. fold w1.
        rewrite Htruthy. apply Hrun. lia.
      * change (messageQueue (svc w1)) with rest in Hshort. cbn [length]. lia.
Qed.

(** On a transport whose [ws.send] raises only finitely often (the scripted
    outcomes, after which every call is accepted) the drain of a queue of
    sendable messages is over after at most one turn for each queued message
    and one more for each call that raises, whatever the other calls do
    (accept, or accept and close): from that many turns on the loop gives the
    same result, [processMessageQueue] returns it, the queue is then empty
    or the transport not open, and the queue is never longer than it was.  A
    transport whose [ws.send] raises for ever while it stays open has no
    script; on it the loop does not end. *)
Theorem drain_terminates (w : World) :
  queue_sendable w ->
  exists w',
    (forall fuel, (drain_turns w <= fuel)%nat ->
                  processMessageQueue_loop fuel w = Returns w') /\
    processMessageQueue w = Returns w' /\
    (messageQueue (svc w') = [] \/ ws_is_open w' = false) /\
    (length (messageQueue (svc w')) <= length (messageQueue (svc w)))%nat /\
    queue_sendable w'.
Proof.
  intro H. destruct (drain_within (drain_turns w) w (le_n _) H)
    as (w' & Hrun & Hexit & Hshort & Hq).
  exists w'. split; [exact Hrun|]. split; [|auto].
  unfold processMessageQueue. apply Hrun. unfold drain_turns.
  pose proof (raises_le (sendScript w)). lia.
Qed.

Lemma drain_terminates_witness :
  exists w',
    processMessageQueue_loop 5 (three_queued [SendThrows; SendThrows]) = Returns w' /\
    (messageQueue (svc w') = [] \/ ws_is_open w' = false).
Proof.
  destruct (drain_terminates (three_queued [SendThrows; SendThrows]))
    as (w' & Hrun & _ & Hexit & _).
  - unfold queue_sendable.
    replace (messageQueue (svc (three_queued [SendThrows; SendThrows])))
      with [MText "A"; MText "B"; MText "C"] by reflexivity.
    repeat constructor.
  - exists w'. split; [|exact Hexit]. apply Hrun. apply le_n.
Defined.

(** Only [send], the drain at an open, a timer callback and the telemetry
    tick can change the queue: connecting, disconnecting, reconnecting, close
    and error events, inbound messages, the subscriptions and the lifecycle
    signals leave every queued message where it is. *)
Theorem queue_untouched_by_lifecycle (e : Event) (w : World) :
  touches_queue e = false -> messageQueue (svc (step e w)) = messageQueue (svc w).
Proof.
  destruct e; cbn [touches_queue step]; intro H; try discriminate; try reflexivity.
  - apply connect_queue.
  - apply disconnect_queue.
  - apply reconnect_queue.
  - apply addMessageListener_queue.
  - destruct (socket_state w sid) as [[]|]; try reflexivity;
      rewrite handleClose_queue; reflexivity.
  - destruct (socket_state w sid) as [[]|]; reflexivity.
  - destruct (socket_state w sid) as [[]|]; try reflexivity; apply handleMessage_queue.
  - unfold handleNetworkChange. rewrite reconnect_queue. reflexivity.
  - unfold handleNetworkChange. rewrite disconnect_queue. reflexivity.
  - rewrite handleWindowFocus_inert. destruct (ws_is_open w); reflexivity.
  - unfold handleVisibilityChange. destruct visible; [|reflexivity].
    apply checkZombieConnection_queue.
  - apply handleNetworkQualityChange_queue.
Qed.

Lemma queue_untouched_by_lifecycle_witness :
  messageQueue (svc (step CallReconnect (three_queued []))) =
  [MText "A"; MText "B"; MText "C"].
Proof.
  rewrite (queue_untouched_by_lifecycle CallReconnect (three_queued []));
    reflexivity.
Defined.

Lemma checkPerformance_queue_cases (w : World) :
  messageQueue (svc (checkPerformance w)) =
    if (getMemoryUsage w >? MAX_MEMORY_USAGE) && (50 <? length (messageQueue (svc w)))%nat
    then skipn (length (messageQueue (svc w)) - 50) (messageQueue (svc w))
    else messageQueue (svc w).
Proof.
  unfold checkPerformance, cleanupResources, logPerformanceReport. simp.
  change (MAX_QUEUE_SIZE / 2)%nat with 50%nat.
  destruct (getMemoryUsage w >? MAX_MEMORY_USAGE); simp; [|reflexivity].
  destruct (50 <? length (messageQueue (svc w)))%nat; simp;
    destruct (100 <? _)%nat; reflexivity.
Qed.

Lemma checkPerformance_trim_logged (w : World) :
  getMemoryUsage w > MAX_MEMORY_USAGE -> (50 < length (messageQueue (svc w)))%nat ->
  In (warn, LogQueueTrimmed) (console (checkPerformance w)).
Proof.
  intros Hmem Hlen. unfold checkPerformance, cleanupResources, logPerformanceReport. simp.
  change (MAX_QUEUE_SIZE / 2)%nat with 50%nat.
  replace (getMemoryUsage w >? MAX_MEMORY_USAGE) with true
    by (symmetry; apply Z.gtb_lt; lia).
  apply Nat.ltb_lt in Hlen. simp. rewrite Hlen. simp.
  destruct (100 <? _)%nat; simp; rewrite !in_app_iff; cbn [In]; auto 10.
Qed.

(** The telemetry tick trims the queue only under memory pressure (a measured
    heap above 230 MiB, so never where the host exposes no heap figure) and
    only when more than 50 messages wait; the trim drops the oldest messages,
    keeps the newest 50 in their order and logs a warning.  Every tick zeroes
    the transmit and receive counts and records the measurement. *)
Theorem memory_trim_keeps_newest (w : World) :
  let q := messageQueue (svc w) in
  let w' := checkPerformance w in
  let q' := messageQueue (svc w') in
  (getMemoryUsage w <= MAX_MEMORY_USAGE -> q' = q) /\
  (usedJSHeapSize w = None -> q' = q) /\
  (getMemoryUsage w > MAX_MEMORY_USAGE -> (length q <= 50)%nat -> q' = q) /\
  (getMemoryUsage w > MAX_MEMORY_USAGE -> (50 < length q)%nat ->
     length q' = 50%nat /\ q = firstn (length q - 50) q ++ q' /\
     In (warn, LogQueueTrimmed) (console w')) /\
  txCount (svc w') = 0%nat /\ rxCount (svc w') = 0%nat /\
  memoryUsage (performanceMetrics (svc w')) = getMemoryUsage w.
Proof.
  cbn zeta. pose proof (checkPerformance_queue_cases w) as E.
  split; [|split; [|split; [|split]]].
  - intro H. rewrite E.
    replace (getMemoryUsage w >? MAX_MEMORY_USAGE) with false
      by (symmetry; rewrite Z.gtb_ltb; apply Z.ltb_ge; exact H).
    reflexivity.
  - intro H. rewrite E. unfold getMemoryUsage. rewrite H. reflexivity.
  - intros _ H. rewrite E.
    replace (50 <? length (messageQueue (svc w)))%nat with false
      by (symmetry; apply Nat.ltb_ge; exact H).
    rewrite andb_false_r. reflexivity.
  - intros Hmem Hlen. rewrite E.
    replace (getMemoryUsage w >? MAX_MEMORY_USAGE) with true
      by (symmetry; apply Z.gtb_lt; lia).
    replace (50 <? length (messageQueue (svc w)))%nat with true
      by (symmetry; apply Nat.ltb_lt; exact Hlen).
    cbn [andb]. split; [rewrite length_skipn; lia|].
    split; [symmetry; apply firstn_skipn|].
    apply checkPerformance_trim_logged; assumption.
  - unfold checkPerformance, cleanupResources, logPerformanceReport. simp.
    destruct (getMemoryUsage w >? MAX_MEMORY_USAGE); simp; [|repeat split].
    destruct (_ <? _)%nat; simp; destruct (100 <? _)%nat; simp; repeat split.
Qed.

(** ** The reconnect attempts *)

Lemma handleClose_counts (w : World) :
  let below := (reconnectCount (svc w) <? MAX_RECONNECT_ATTEMPTS)%nat in
  reconnectCount (svc (handleClose w)) =
    (if below then S (reconnectCount (svc w)) else reconnectCount (svc w)) /\
  nextTimerId (handleClose w) = (if below then S (nextTimerId w) else nextTimerId w) /\
  reconnectTimer (svc (handleClose w)) =
    (if below then Some (nextTimerId w) else reconnectTimer (svc w)).
Proof.
  cbn zeta. unfold handleClose, attemptReconnect, stopHealthChecks, set_timer, clear_timer.
  simp. destruct (healthCheckTimer (svc w)); simp;
    destruct (reconnectCount (svc w) <? MAX_RECONNECT_ATTEMPTS)%nat; simp; auto.
Qed.

Lemma step_attempts_capped (e : Event) (w : World) :
  (reconnectCount (svc w) <= MAX_RECONNECT_ATTEMPTS)%nat ->
  (reconnectCount (svc (step e w)) <= MAX_RECONNECT_ATTEMPTS)%nat.
Proof.
  intro H. destruct e; cbn [step]; try exact H.
  - rewrite connect_attempts. exact H.
  - rewrite disconnect_attempts. exact H.
  - rewrite reconnect_attempts. apply Nat.le_0_l.
  - rewrite send_attempts. exact H.
  - rewrite addMessageListener_attempts. exact H.
  - destruct (socket_state w sid) as [[]|]; try exact H.
    rewrite handleOpen_attempts. apply Nat.le_0_l.
  - assert (Hc : (reconnectCount (svc (handleClose (set_readyState sid CLOSED w)))
                  <= MAX_RECONNECT_ATTEMPTS)%nat).
    { destruct (handleClose_counts (set_readyState sid CLOSED w)) as (-> & _).
      cbn zeta. change (reconnectCount (svc (set_readyState sid CLOSED w)))
        with (reconnectCount (svc w)).
      destruct (Nat.ltb_spec (reconnectCount (svc w)) MAX_RECONNECT_ATTEMPTS); lia. }
    destruct (socket_state w sid) as [[]|]; try exact H; exact Hc.
  - destruct (socket_state w sid) as [[]|]; exact H.
  - destruct (socket_state w sid) as [[]|]; try exact H;
      rewrite handleMessage_attempts; exact H.
  - rewrite fire_timer_attempts. destruct (runs_reconnect _ _); [apply Nat.le_0_l|exact H].
  - unfold handleNetworkChange. rewrite reconnect_attempts. apply Nat.le_0_l.
  - unfold handleNetworkChange. rewrite disconnect_attempts. exact H.
  - rewrite handleWindowFocus_inert. destruct (ws_is_open w); exact H.
  - unfold handleVisibilityChange. destruct visible; [|exact H].
    rewrite checkZombieConnection_attempts. destruct (zombie w); [apply Nat.le_0_l|exact H].
  - rewrite handleNetworkQualityChange_attempts. exact H.
  - rewrite telemetry_attempts. exact H.
Qed.

(** Whatever has happened, at most 5 reconnect attempts are counted.  A close
    event below the cap counts one more attempt and sets one timer; a close
    event at the cap schedules nothing: the service has given up, and the
    timer handle it holds is the one of the last attempt. *)
Theorem reconnect_attempts_capped
  (t0 : Z) (script : list SendOutcome) (events : list Event) (sid : nat) :
  let w := run events (initial_world t0 script) in
  let w' := step (SocketClose sid) w in
  (reconnectCount (svc w) <= MAX_RECONNECT_ATTEMPTS)%nat /\
  (alive (socket_state w sid) = true ->
   (reconnectCount (svc w) < MAX_RECONNECT_ATTEMPTS)%nat ->
   reconnectCount (svc w') = S (reconnectCount (svc w)) /\
   nextTimerId w' = S (nextTimerId w) /\
   reconnectTimer (svc w') = Some (nextTimerId w)) /\
  (reconnectCount (svc w) = MAX_RECONNECT_ATTEMPTS ->
   reconnectCount (svc w') = MAX_RECONNECT_ATTEMPTS /\
   nextTimerId w' = nextTimerId w /\
   reconnectTimer (svc w') = reconnectTimer (svc w)).
Proof.
  cbn zeta. split.
  { assert (H0 : (reconnectCount (svc (initial_world t0 script))
                  <= MAX_RECONNECT_ATTEMPTS)%nat) by apply Nat.le_0_l.
    revert H0. generalize (initial_world t0 script).
    induction events as [|e events IH]; intros w Hw; [exact Hw|].
    cbn [run fold_left]. apply IH, step_attempts_capped, Hw. }
  generalize (run events (initial_world t0 script)). intro w.
  pose proof (handleClose_counts (set_readyState sid CLOSED w)) as Hc. cbn zeta in Hc.
  change (reconnectCount (svc (set_readyState sid CLOSED w)))
    with (reconnectCount (svc w)) in Hc.
  change (nextTimerId (set_readyState sid CLOSED w)) with (nextTimerId w) in Hc.
  change (reconnectTimer (svc (set_readyState sid CLOSED w)))
    with (reconnectTimer (svc w)) in Hc.
  cbn [step]. split.
  - intros Halive Hlt. apply Nat.ltb_lt in Hlt. rewrite Hlt in Hc.
    destruct (socket_state w sid) as [[]|]; try discriminate; exact Hc.
  - intro Hcap.
    replace (reconnectCount (svc w) <? MAX_RECONNECT_ATTEMPTS)%nat with false in Hc
      by (symmetry; apply Nat.ltb_ge; lia).
    destruct Hc as (H1 & H2 & H3). rewrite Hcap in H1.
    destruct (socket_state w sid) as [[]|]; auto.
Qed.

(** ** The rate limiter over whole runs *)

Lemma rate_step_same (w w' : World) :
  rate_view w' = rate_view w -> in_window w -> rate_step w w'.
Proof.
  unfold rate_view, in_window, rate_step. intros E [Hwin Hc].
  injection E as -> -> ->. repeat split; auto.
Qed.

Lemma rate_step_before (w w1 w' : World) :
  rate_view w1 = rate_view w -> rate_step w1 w' -> rate_step w w'.
Proof. unfold rate_view, rate_step. intros E H. injection E as <- <- <-. exact H. Qed.

Lemma in_window_same (w w' : World) :
  rate_view w' = rate_view w -> in_window w -> in_window w'.
Proof. unfold rate_view, in_window. intros E H. injection E as -> -> _. exact H. Qed.

Lemma connect_rate (w : World) : in_window w -> rate_step w (connect w).
Proof.
  intros [Hwin Hc]. unfold rate_step, connect.
  destruct (_ || _); [repeat split; auto|].
  destruct (negb _); [repeat split; auto|].
  rewrite (checkRateLimit_within_window w Hwin).
  destruct (Nat.leb_spec MAX_RATE_LIMIT_ATTEMPTS (count (rateLimitCounter (svc w))));
    simp; [repeat split; auto|].
  unfold handleError, new_WebSocket.
  destruct (constructorThrows w); simp; rewrite ?length_app; cbn [length];
    repeat split; lia.
Qed.

Lemma disconnect_rate_view (w : World) : rate_view (disconnect w) = rate_view w.
Proof.
  unfold rate_view. rewrite disconnect_sockets.
  unfold disconnect, stopHealthChecks, clear_timer, ws_close. by_cases.
Qed.

Lemma reconnect_rate (w : World) : in_window w -> rate_step w (reconnect w).
Proof.
  intro H. unfold reconnect.
  assert (E : rate_view (upd (set_reconnectCount 0%nat) (disconnect w)) = rate_view w)
    by apply disconnect_rate_view.
  apply (rate_step_before _ _ _ E), connect_rate, (in_window_same _ _ E H).
Qed.

Lemma send_rate_view (m : Message) (w : World) :
  rate_view (world_of (send m w)) = rate_view w.
Proof.
  unfold rate_view, send, ws_send, queueMessage.
  by_cases; simp; rewrite ?length_list_update; reflexivity.
Qed.

Lemma processMessageQueue_loop_rate_view (fuel : nat) (w : World) :
  rate_view (world_of (processMessageQueue_loop fuel w)) = rate_view w.
Proof.
  revert w. induction fuel as [|fuel IH]; intro w; [reflexivity|].
  cbn [processMessageQueue_loop].
  destruct (messageQueue (svc w)) as [|message rest]; [reflexivity|].
  destruct (ws_is_open w); [|reflexivity].
  destruct (truthy message).
  - pose proof (send_rate_view message (upd (set_messageQueue rest) w)) as Hs.
    destruct (send message (upd (set_messageQueue rest) w)) as [w'|e w']; simp.
    + rewrite IH. exact Hs.
    + exact Hs.
  - rewrite IH. reflexivity.
Qed.

Lemma handleOpen_rate_view (w : World) :
  rate_view (world_of (handleOpen w)) = rate_view w.
Proof.
  unfold handleOpen, processMessageQueue. rewrite processMessageQueue_loop_rate_view.
  unfold rate_view, startHealthChecks, stopHealthChecks, set_timer, clear_timer. by_cases.
Qed.

Lemma handleClose_rate_view (w : World) : rate_view (handleClose w) = rate_view w.
Proof.
  unfold rate_view, handleClose, attemptReconnect, stopHealthChecks, set_timer, clear_timer.
  by_cases.
Qed.

Lemma handleMessage_rate_view (data : Inbound) (w : World) :
  rate_view (handleMessage data w) = rate_view w.
Proof.
  unfold rate_view, handleMessage, handleBinaryMessage, handlePong, notifyListeners.
  by_cases.
Qed.

Lemma telemetry_rate_view (w : World) :
  rate_view (checkForMemoryLeaks (checkPerformance w)) = rate_view w.
Proof.
  unfold rate_view, checkForMemoryLeaks, checkPerformance, cleanupResources,
    logPerformanceReport, debugMemoryUsage.
  by_cases.
Qed.

Lemma handleNetworkQualityChange_rate_view effectiveType downlink (w : World) :
  rate_view (handleNetworkQualityChange effectiveType downlink w) = rate_view w.
Proof.
  unfold rate_view, handleNetworkQualityChange, adjustForPoorConnection,
    adjustForGoodConnection.
  by_cases.
Qed.

Lemma performHealthCheck_rate (w : World) :
  in_window w -> rate_step w (world_of (performHealthCheck w)).
Proof.
  intro H. unfold performHealthCheck.
  assert (Hping : forall w', rate_view w' = rate_view w ->
            rate_step w (world_of (if ws_is_open w'
                                   then send ping (log LogSendingPing info w')
                                   else Returns w'))).
  { intros w' E. apply rate_step_same; [|exact H].
    destruct (ws_is_open w'); [rewrite send_rate_view|]; exact E. }
  destruct (_ >? _); [|apply Hping; reflexivity].
  destruct (_ <=? _)%nat; [|apply Hping; reflexivity].
  cbn [world_of].
  match goal with
  | |- rate_step w (reconnect ?v) =>
      assert (E : rate_view v = rate_view w) by reflexivity;
      apply (rate_step_before _ _ _ E), reconnect_rate, (in_window_same _ _ E H)
  end.
Qed.

Lemma checkZombieConnection_rate (w : World) :
  in_window w -> rate_step w (checkZombieConnection w).
Proof.
  intro H. unfold checkZombieConnection.
  destruct (_ && _); [|apply rate_step_same; [reflexivity|exact H]].
  assert (E : rate_view (log LogZombie warn w) = rate_view w) by reflexivity.
  apply (rate_step_before _ _ _ E), reconnect_rate, (in_window_same _ _ E H).
Qed.

Lemma fire_timer_rate (id : nat) (w : World) :
  in_window w -> rate_step w (fire_timer id w).
Proof.
  intro H. unfold fire_timer.
  destruct (find _ (timers w)) as [t|]; [|apply rate_step_same; [reflexivity|exact H]].
  destruct (due t <=? now w); [|apply rate_step_same; [reflexivity|exact H]].
  match goal with
  | |- rate_step w (timer_callback _ ?v) =>
      assert (E : rate_view v = rate_view w) by (destruct (period t); reflexivity);
      generalize dependent v
  end.
  intros v E. apply (rate_step_before _ _ _ E).
  pose proof (in_window_same _ _ E H) as Hv.
  destruct (timerKind t); cbn [timer_callback].
  - assert (E' : rate_view (log (LogReconnecting (reconnectCount (svc v))) info v)
                 = rate_view v) by reflexivity.
    apply (rate_step_before _ _ _ E'), connect_rate, (in_window_same _ _ E' Hv).
  - apply performHealthCheck_rate, Hv.
Qed.

Lemma step_rate (e : Event) (w : World) :
  in_window w -> (forall ms, e <> TimePasses ms) -> rate_step w (step e w).
Proof.
  intros H Hclock.
  assert (Hsame : forall w', rate_view w' = rate_view w -> rate_step w w')
    by (intros w' E; apply rate_step_same; assumption).
  destruct e; cbn [step].
  - apply connect_rate, H.
  - apply Hsame, disconnect_rate_view.
  - apply reconnect_rate, H.
  - apply Hsame, send_rate_view.
  - apply Hsame. unfold rate_view, addMessageListener. by_cases.
  - apply Hsame. reflexivity.
  - destruct (socket_state w sid) as [[]|]; try (apply Hsame; reflexivity).
    apply Hsame. rewrite handleOpen_rate_view.
    unfold rate_view, set_readyState. simp. rewrite length_list_update. reflexivity.
  - assert (Hc : rate_view (handleClose (set_readyState sid CLOSED w)) = rate_view w).
    { rewrite handleClose_rate_view.
      unfold rate_view, set_readyState. simp. rewrite length_list_update. reflexivity. }
    destruct (socket_state w sid) as [[]|]; apply Hsame; try reflexivity; exact Hc.
  - destruct (socket_state w sid) as [[]|]; apply Hsame; reflexivity.
  - destruct (socket_state w sid) as [[]|]; apply Hsame; try reflexivity;
      apply handleMessage_rate_view.
  - apply fire_timer_rate, H.
  - exfalso. exact (Hclock ms eq_refl).
  - unfold handleNetworkChange.
    assert (E : rate_view (log LogNetworkOnline info w) = rate_view w) by reflexivity.
    apply (rate_step_before _ _ _ E), reconnect_rate, (in_window_same _ _ E H).
  - unfold handleNetworkChange. apply Hsame. rewrite disconnect_rate_view. reflexivity.
  - rewrite handleWindowFocus_inert. destruct (ws_is_open w); apply Hsame; reflexivity.
  - unfold handleVisibilityChange. destruct visible; [|apply Hsame; reflexivity].
    apply checkZombieConnection_rate, H.
  - apply Hsame, handleNetworkQualityChange_rate_view.
  - apply Hsame, telemetry_rate_view.
  - apply Hsame. reflexivity.
  - apply Hsame. reflexivity.
Qed.

Lemma elapsed_nonneg (events : list Event) : 0 <= elapsed events.
Proof.
  induction events as [|e events IH]; cbn [elapsed]; [lia|].
  destruct e; lia.
Qed.

Lemma run_rate (events : list Event) :
  forall w,
    (count (rateLimitCounter (svc w)) <= MAX_RATE_LIMIT_ATTEMPTS)%nat ->
    now w - timestamp (rateLimitCounter (svc w)) + elapsed events <= RATE_LIMIT_RESET ->
    (count (rateLimitCounter (svc (run events w))) <= MAX_RATE_LIMIT_ATTEMPTS)%nat /\
    (length (sockets (run events w)) + count (rateLimitCounter (svc w))
     <= length (sockets w) + count (rateLimitCounter (svc (run events w))))%nat.
Proof.
  induction events as [|e events IH]; intros w Hc Hwin; [cbn [run fold_left]; auto|].
  change (run (e :: events) w) with (run events (step e w)).
  pose proof (elapsed_nonneg events) as Hpos.
  destruct (match e with TimePasses ms => Some ms | _ => None end) as [ms|] eqn:He.
  - destruct e; try discriminate. injection He as ->.
    cbn [elapsed] in Hwin. cbn [step].
    destruct (IH (set_now (now w + ms) w)) as [H1 H2]; [exact Hc|simp; lia|].
    split; [exact H1|exact H2].
  - assert (Hclock : forall ms, e <> TimePasses ms) by (intros ms ->; discriminate).
    assert (Hel : elapsed (e :: events) = elapsed events) by (destruct e; try reflexivity; discriminate).
    rewrite Hel in Hwin.
    destruct (step_rate e w) as (Hnow & Hts & Hc' & Hsum); [split; [lia|exact Hc]|exact Hclock|].
    destruct (IH (step e w)) as [H1 H2]; [exact Hc'|rewrite Hnow, Hts; exact Hwin|].
    split; [exact H1|lia].
Qed.

(** While a rate window runs, no sequence of events makes the service create
    more sockets than the window has attempts left: every socket created is
    counted by the limiter, whichever path led to [connect] (the public
    calls, a reconnect timer, the network-online signal, zombie detection, a
    health check), and the count never exceeds 10. *)
Theorem rate_window_caps_sockets (w : World) (events : list Event) :
  (count (rateLimitCounter (svc w)) <= MAX_RATE_LIMIT_ATTEMPTS)%nat ->
  now w - timestamp (rateLimitCounter (svc w)) + elapsed events <= RATE_LIMIT_RESET ->
  let w' := run events w in
  (count (rateLimitCounter (svc w')) <= MAX_RATE_LIMIT_ATTEMPTS)%nat /\
  (length (sockets w') + count (rateLimitCounter (svc w))
   <= length (sockets w) + count (rateLimitCounter (svc w')))%nat /\
  (length (sockets w')
   <= length (sockets w) + (MAX_RATE_LIMIT_ATTEMPTS - count (rateLimitCounter (svc w))))%nat.
Proof.
  intros Hc Hwin. cbn zeta. destruct (run_rate events w Hc Hwin) as [H1 H2].
  repeat split; try assumption. lia.
Qed.

Lemma rate_window_caps_sockets_witness :
  (length (sockets (run (failed_attempts 12 0) (initial_world 0 []))) <= 10)%nat.
Proof.
  destruct (rate_window_caps_sockets (initial_world 0 []) (failed_attempts 12 0))
    as (_ & _ & H).
  - apply Nat.le_0_l.
  - vm_compute. discriminate.
  - exact H.
Defined.

(** ** One health-check interval at a time *)

Lemma pending_same (kind : TimerKind) (w w' : World) :
  timer_state w' = timer_state w -> pending kind w' = pending kind w.
Proof. unfold timer_state, pending. intro E. injection E as -> _ _. reflexivity. Qed.

Lemma health_single_same (w w' : World) :
  timer_state w' = timer_state w -> health_single w -> health_single w'.
Proof.
  intros E [Hok Hlen]. split; [exact (timers_ok_same w w' E Hok)|].
  rewrite (pending_same _ _ _ E). exact Hlen.
Qed.

Lemma health_single_none (w : World) :
  timers_ok w -> pending HealthInterval w = [] -> health_single w.
Proof. intros Hok E. split; [exact Hok|]. rewrite E. apply Nat.le_0_l. Qed.

Lemma disconnect_single (w : World) : timers_ok w -> health_single (disconnect w).
Proof.
  intro Hok. apply health_single_none; [apply disconnect_ok, Hok|].
  destruct (disconnect_timers w) as (_ & _ & Hin).
  apply filter_none. intros t Ht. destruct (Hin t Ht) as [Hold Huntracked].
  destruct (timerKind t) eqn:Hkind; [reflexivity|].
  exfalso. apply Huntracked, (proj2 Hok); assumption.
Qed.

Lemma reconnect_single (w : World) : timers_ok w -> health_single (reconnect w).
Proof.
  intro Hok. apply health_single_none; [apply reconnect_ok, Hok|].
  apply reconnect_stops_health_checks, (proj2 Hok).
Qed.

Lemma stopHealthChecks_frame (w : World) :
  now (stopHealthChecks w) = now w /\
  HEALTH_CHECK_INTERVAL (svc (stopHealthChecks w)) = HEALTH_CHECK_INTERVAL (svc w).
Proof. unfold stopHealthChecks, clear_timer. by_cases; auto. Qed.

Lemma startHealthChecks_pending (w : World) :
  timers_ok w -> pending HealthInterval (startHealthChecks w) = [health_interval_of w].
Proof.
  intro Hok. destruct (stopHealthChecks_ok w Hok) as [_ Hnone].
  destruct (stopHealthChecks_timers w) as (_ & Hnext & _).
  destruct (stopHealthChecks_frame w) as [Hnow Hint].
  unfold startHealthChecks, set_timer, health_interval_of, pending in *. simp.
  rewrite filter_app, Hnone, Hnext, Hnow, Hint. reflexivity.
Qed.

Lemma attemptReconnect_pending (w : World) :
  pending HealthInterval (attemptReconnect w) = pending HealthInterval w.
Proof.
  unfold attemptReconnect, set_timer, pending.
  destruct (_ <? _)%nat; simp; [|reflexivity].
  rewrite filter_app. cbn [filter timerKind]. apply app_nil_r.
Qed.

Lemma handleClose_single (w : World) : timers_ok w -> health_single (handleClose w).
Proof.
  intro Hok. apply health_single_none; [apply handleClose_ok, Hok|].
  unfold handleClose. rewrite attemptReconnect_pending.
  exact (proj2 (stopHealthChecks_ok
                  (log (LogClosed (now w - connectionStartTime (svc w))) warn w) Hok)).
Qed.

Lemma handleOpen_pending (w : World) :
  timers_ok w -> pending HealthInterval (world_of (handleOpen w)) = [health_interval_of w].
Proof.
  intro Hok. unfold handleOpen, processMessageQueue.
  rewrite (pending_same _ _ _ (processMessageQueue_loop_timer_state _ _)).
  match goal with
  | |- pending _ (startHealthChecks ?v) = _ =>
      rewrite (startHealthChecks_pending v) by exact Hok
  end.
  reflexivity.
Qed.

Lemma performHealthCheck_single (w : World) :
  health_single w -> health_single (world_of (performHealthCheck w)).
Proof.
  intro H. unfold performHealthCheck.
  assert (Hping : forall w', timer_state w' = timer_state w ->
            health_single (world_of (if ws_is_open w'
                                     then send ping (log LogSendingPing info w')
                                     else Returns w'))).
  { intros w' E. apply (health_single_same w); [|exact H].
    destruct (ws_is_open w'); [rewrite send_timer_state|]; exact E. }
  destruct (_ >? _); [|apply Hping; reflexivity].
  destruct (_ <=? _)%nat; [|apply Hping; reflexivity].
  cbn [world_of]. apply reconnect_single. exact (proj1 H).
Qed.

Lemma fire_timer_single (id : nat) (w : World) :
  health_single w -> health_single (fire_timer id w).
Proof.
  intros [Hok Hlen]. pose proof (fire_timer_ok id w Hok) as Hok'. unfold fire_timer in *.
  destruct (find _ (timers w)) as [t|]; [|split; assumption].
  destruct (due t <=? now w); [|split; assumption].
  assert (Hre : forall kind,
            (length (pending kind
                       match period t with
                       | Some p =>
                           set_timers
                             (map (fun t' => if Nat.eqb (timerId t') id
                                             then {| timerId := id; timerKind := timerKind t';
                                                     due := due t' + p; period := period t' |}
                                             else t') (timers w)) w
                       | None => clear_timer id w
                       end) <= length (pending kind w))%nat).
  { intro kind. unfold pending, clear_timer. destruct (period t) as [p|]; simp.
    - generalize (timers w). intro l. induction l as [|x l IH]; [apply le_n|].
      cbn [map filter].
      destruct (Nat.eqb (timerId x) id); cbn [timerKind];
        destruct (timerKind x), kind; cbn [length]; lia.
    - generalize (timers w). intro l. induction l as [|x l IH]; [apply le_n|].
      cbn [filter]. destruct (negb (Nat.eqb (timerId x) id)); cbn [filter];
        destruct (timerKind x), kind; cbn [length]; lia. }
  specialize (Hre HealthInterval).
  destruct (timerKind t); cbn [timer_callback] in *.
  - split; [exact Hok'|].
    rewrite (pending_same _ _ _ (connect_timer_state _)).
    match goal with
    | |- (length (pending _ (log _ _ ?v)) <= 1)%nat =>
        change (length (pending HealthInterval v) <= 1)%nat
    end.
    lia.
  - pose proof (performHealthCheck_single) as Hp.
    match goal with
    | |- health_single (world_of (performHealthCheck ?v)) =>
        apply (Hp v); split; [|lia]
    end.
    clear Hok' Hp. destruct Hok as [Hf Hh].
    destruct (period t) as [p|].
    + split; intros t2 Ht2; simp; apply in_map_iff in Ht2;
        destruct Ht2 as (t' & <- & Ht');
        [specialize (Hf t' Ht') | specialize (Hh t' Ht')];
        destruct (Nat.eqb_spec (timerId t') id); cbn [timerId timerKind] in *; subst; auto.
    + unfold clear_timer. split; intros t2 Ht2; simp;
        apply filter_In in Ht2; destruct Ht2 as [Ht2 _]; auto.
Qed.

Lemma step_health_single (e : Event) (w : World) :
  health_single w -> health_single (step e w).
Proof.
  intro H. pose proof (proj1 H) as Hok.
  destruct e; cbn [step]; try exact H.
  - apply (health_single_same w); [apply connect_timer_state|exact H].
  - apply disconnect_single, Hok.
  - apply reconnect_single, Hok.
  - apply (health_single_same w); [apply send_timer_state|exact H].
  - apply (health_single_same w); [apply addMessageListener_timer_state|exact H].
  - destruct (socket_state w sid) as [[]|]; try exact H.
    split; [apply handleOpen_ok, Hok|].
    rewrite (handleOpen_pending (set_readyState sid OPEN w) Hok). apply le_n.
  - destruct (socket_state w sid) as [[]|]; try exact H;
      apply (handleClose_single (set_readyState sid CLOSED w)), Hok.
  - destruct (socket_state w sid) as [[]|]; exact H.
  - destruct (socket_state w sid) as [[]|]; try exact H;
      (apply (health_single_same w); [apply handleMessage_timer_state|exact H]).
  - apply fire_timer_single, H.
  - apply reconnect_single, Hok.
  - apply disconnect_single, Hok.
  - rewrite handleWindowFocus_inert. destruct (ws_is_open w); exact H.
  - unfold handleVisibilityChange. destruct visible; [|exact H].
    unfold checkZombieConnection. destruct (_ && _); [|exact H].
    apply reconnect_single, Hok.
  - apply (health_single_same w); [apply handleNetworkQualityChange_timer_state|exact H].
  - apply (health_single_same w); [apply telemetry_timer_state|exact H].
Qed.

(** Whatever has happened, at most one health-check interval is pending, and
    none when the service holds no handle of one.  The open of a connecting
    socket leaves exactly one: a fresh interval whose period is the health
    check interval in force at that moment. *)
Theorem health_interval_is_single
  (t0 : Z) (script : list SendOutcome) (events : list Event) (sid : nat) :
  let w := run events (initial_world t0 script) in
  (length (pending HealthInterval w) <= 1)%nat /\
  (healthCheckTimer (svc w) = None -> pending HealthInterval w = []) /\
  (socket_state w sid = Some CONNECTING ->
   pending HealthInterval (step (SocketOpen sid) w) = [health_interval_of w]).
Proof.
  cbn zeta.
  assert (H : health_single (run events (initial_world t0 script))).
  { assert (H0 : health_single (initial_world t0 script)).
    { split; [split; intros t []|apply Nat.le_0_l]. }
    revert H0. generalize (initial_world t0 script).
    induction events as [|e events IH]; intros w Hw; [exact Hw|].
    cbn [run fold_left]. apply IH, step_health_single, Hw. }
  revert H. generalize (run events (initial_world t0 script)).
  intros w [Hok Hlen]. split; [exact Hlen|]. split.
  - intro Hnone. apply filter_none. intros t Ht.
    destruct (timerKind t) eqn:Hkind; [reflexivity|].
    pose proof (proj2 Hok t Ht Hkind) as Htracked. congruence.
  - intro Hst. cbn [step]. rewrite Hst.
    apply (handleOpen_pending (set_readyState sid OPEN w)). exact Hok.
Qed.

(** ** The close event of a socket that is no longer current *)

Lemma reachable_timers_ok (t0 : Z) (script : list SendOutcome) (events : list Event) :
  timers_ok (run events (initial_world t0 script)).
Proof.
  assert (H0 : timers_ok (initial_world t0 script)) by (split; intros t []).
  revert H0. generalize (initial_world t0 script).
  induction events as [|e events IH]; intros w Hw; [exact Hw|].
  cbn [run fold_left]. apply IH, step_timers_ok, Hw.
Qed.

Lemma handleClose_connection (w : World) :
  ws (svc (handleClose w)) = ws (svc w) /\ sockets (handleClose w) = sockets w /\
  healthCheckTimer (svc (handleClose w)) = None /\
  isReconnecting (svc (handleClose w)) = false.
Proof.
  unfold handleClose, attemptReconnect, stopHealthChecks, set_timer, clear_timer. simp.
  destruct (healthCheckTimer (svc w)) eqn:Hh; simp;
    destruct (_ <? _)%nat; simp; auto.
Qed.

(** [handleClose] does not ask which socket closed.  When a connection has
    been replaced and the replacement is open, the late close event of the old
    socket stops the health checks of the live connection: it stays open and
    current, but no health-check interval is pending any more, so it is no
    longer probed; the retry which that close schedules finds the connection
    open and does nothing. *)
Theorem stale_close_stops_health_checks (w : World) (cur sid : nat) :
  health_tracked w ->
  ws (svc w) = Some cur -> socket_state w cur = Some OPEN ->
  sid <> cur -> alive (socket_state w sid) = true ->
  let w' := step (SocketClose sid) w in
  ws (svc w') = Some cur /\
  isConnected w' = true /\
  healthCheckTimer (svc w') = None /\
  pending HealthInterval w' = [] /\
  connect w' = w'.
Proof.
  intros Htracked Hws Hopen Hneq Halive. cbn zeta.
  assert (E : step (SocketClose sid) w = handleClose (set_readyState sid CLOSED w)).
  { cbn [step]. destruct (socket_state w sid) as [[]|]; try reflexivity; discriminate. }
  rewrite E. set (v := set_readyState sid CLOSED w).
  destruct (handleClose_connection v) as (Hw' & Hs' & Hh' & _).
  assert (Hconn : isConnected (handleClose v) = true).
  { unfold isConnected, ws_is_open, open_socket, socket_state.
    rewrite Hw', Hs'. unfold v, set_readyState. simp. rewrite Hws.
    rewrite nth_error_list_update_neq by exact Hneq.
    unfold socket_state in Hopen. rewrite Hopen. reflexivity. }
  split; [rewrite Hw'; exact Hws|]. split; [exact Hconn|]. split; [exact Hh'|].
  split.
  - unfold handleClose. rewrite attemptReconnect_pending.
    set (v1 := log (LogClosed (now v - connectionStartTime (svc v))) warn v).
    destruct (stopHealthChecks_timers v1) as (_ & _ & Hin).
    apply filter_none. intros t Ht.
    change (In t (timers (stopHealthChecks v1))) in Ht.
    destruct (Hin t Ht) as [Hold Huntracked].
    destruct (timerKind t) eqn:Hkind; [reflexivity|].
    exfalso. apply Huntracked. exact (Htracked t Hold Hkind).
  - unfold connect. unfold isConnected in Hconn. rewrite Hconn, orb_true_r. reflexivity.
Qed.

Lemma stale_close_stops_health_checks_witness :
  pending HealthInterval replaced_connection <> [] /\
  isConnected (step (SocketClose 0) replaced_connection) = true /\
  pending HealthInterval (step (SocketClose 0) replaced_connection) = [].
Proof.
  split; [vm_compute; discriminate|].
  destruct (stale_close_stops_health_checks replaced_connection 1 0)
    as (_ & Hconn & _ & Hpend & _).
  - exact (proj2 (reachable_timers_ok 0 []
                    [CallConnect; SocketOpen 0; CallReconnect; SocketOpen 1])).
  - reflexivity.
  - reflexivity.
  - discriminate.
  - reflexivity.
  - split; [exact Hconn|exact Hpend].
Defined.

(** ** Inbound messages and the two liveness clocks *)

(** Every inbound message, whatever its kind, is counted and refreshes the
    clock of the zombie detector, so that the connection is no zombie right
    after it.  Only a pong refreshes the clock of the health monitor and clears
    the missed probes: any other traffic leaves the monitor's verdict as it
    was.  A text that does not parse adds one to the failure rate.  No
    message touches the connection, the timers or the outbound queue. *)
Theorem inbound_message_liveness (data : Inbound) (w : World) :
  let w' := handleMessage data w in
  lastMessageTime (svc w') = now w /\
  zombie w' = false /\
  match data with
  | InPong _ => missedPings (svc w') = 0%nat /\ lastPongTime (svc w') = now w
  | _ => missedPings (svc w') = missedPings (svc w) /\
         lastPongTime (svc w') = lastPongTime (svc w) /\
         strikes_out w' = strikes_out w
  end /\
  rxCount (svc w') = S (rxCount (svc w)) /\
  rxBytes (svc w') = rxBytes (svc w) + inbound_size data /\
  failureRate (performanceMetrics (svc w')) =
    match data with
    | InMalformed _ => S (failureRate (performanceMetrics (svc w)))
    | _ => failureRate (performanceMetrics (svc w))
    end /\
  ws (svc w') = ws (svc w) /\ sockets w' = sockets w /\
  timer_state w' = timer_state w /\ messageQueue (svc w') = messageQueue (svc w).
Proof.
  cbn zeta.
  assert (Hnow : now (handleMessage data w) = now w /\
                 lastMessageTime (svc (handleMessage data w)) = now w).
  { unfold handleMessage, handleBinaryMessage, handlePong, notifyListeners.
    destruct (_ >? _); destruct data; simp; auto. }
  destruct Hnow as [Hnow Hlast].
  split; [exact Hlast|]. split.
  { unfold zombie. rewrite Hnow, Hlast, Z.sub_diag. apply andb_false_r. }
  unfold strikes_out, timer_state, handleMessage, handleBinaryMessage, handlePong,
    notifyListeners.
  destruct (_ >? _); destruct data; simp; repeat split.
Qed.

(** ** The health check below the tolerance *)

Lemma performHealthCheck_below (w : World) :
  strikes_out w = false ->
  let late := now w - lastPongTime (svc w) >? HEALTH_CHECK_TIMEOUT (svc w) in
  let w1 := if late
            then log (LogMissedPing (S (missedPings (svc w)))) warn
                   (upd (set_missedPings (S (missedPings (svc w)))) w)
            else w in
  performHealthCheck w =
    if ws_is_open w then send ping (log LogSendingPing info w1) else Returns w1.
Proof.
  unfold strikes_out, performHealthCheck. intro H. cbn zeta.
  destruct (_ >? _); cbn [andb] in H; [|reflexivity].
  simp. rewrite H. reflexivity.
Qed.

Lemma send_accepted_console (m : Message) (w : World) (sid : nat) :
  open_socket w = Some sid -> sendable m = true ->
  hd SendOk (sendScript w) <> SendThrows ->
  console (world_of (send m w)) = console w.
Proof.
  intros Hopen Hm Hscript. unfold send, sendable, ws_send in *. rewrite Hopen.
  destruct (stringify m) as [str|]; [|discriminate].
  destruct (_ >? _); [discriminate|].
  destruct (sendScript w) as [|[] rest]; cbn [hd] in *; simp; congruence.
Qed.

(** A health check that stays below the tolerance probes the open connection
    once: the ping frame is the next frame on the current socket, after a
    "Sending ping" entry; a pong that is overdue counts one missed probe and
    logs the strike first.  The check changes neither the queue nor the
    timers nor the current socket. *)
Theorem health_check_probes_once (w : World) (sid : nat) :
  open_socket w = Some sid ->
  hd SendOk (sendScript w) <> SendThrows ->
  strikes_out w = false ->
  let late := now w - lastPongTime (svc w) >? HEALTH_CHECK_TIMEOUT (svc w) in
  let w' := world_of (performHealthCheck w) in
  returns (performHealthCheck w) = true /\
  transmitted w' sid = transmitted w sid ++ [ping_json] /\
  (forall other, other <> sid -> transmitted w' other = transmitted w other) /\
  missedPings (svc w') = (if late then S (missedPings (svc w)) else missedPings (svc w)) /\
  logged is_sending_ping w' = S (logged is_sending_ping w) /\
  (if late then In (warn, LogMissedPing (S (missedPings (svc w)))) (console w') else True) /\
  messageQueue (svc w') = messageQueue (svc w) /\
  ws (svc w') = Some sid /\
  timer_state w' = timer_state w.
Proof.
  intros Hopen Hscript Hbelow. cbn zeta.
  rewrite (performHealthCheck_below w Hbelow). cbn zeta.
  assert (Hisopen : ws_is_open w = true) by (apply ws_is_open_inv; eauto).
  rewrite Hisopen.
  set (late := now w - lastPongTime (svc w) >? HEALTH_CHECK_TIMEOUT (svc w)).
  set (w1 := if late
             then log (LogMissedPing (S (missedPings (svc w)))) warn
                    (upd (set_missedPings (S (missedPings (svc w)))) w)
             else w).
  set (w2 := log LogSendingPing info w1).
  assert (Hfacts : open_socket w2 = Some sid /\ sendScript w2 = sendScript w /\
                   (forall k, transmitted w2 k = transmitted w k) /\
                   messageQueue (svc w2) = messageQueue (svc w) /\
                   ws (svc w2) = ws (svc w) /\ timer_state w2 = timer_state w /\
                   missedPings (svc w2) =
                     (if late then S (missedPings (svc w)) else missedPings (svc w)) /\
                   logged is_sending_ping w2 = S (logged is_sending_ping w) /\
                   (if late
                    then In (warn, LogMissedPing (S (missedPings (svc w)))) (console w2)
                    else True)).
  { unfold w2, w1. destruct late.
    - repeat split; try exact Hopen.
      + rewrite !logged_log. cbn [is_sending_ping]. unfold logged. simp. lia.
      + simp. rewrite !in_app_iff. cbn [In]. auto.
    - repeat split; try exact Hopen.
      rewrite logged_log. cbn [is_sending_ping]. lia. }
  destruct Hfacts as (Hopen2 & Hscript2 & Htx2 & Hq2 & Hws2 & Hts2 & Hmp2 & Hlog2 & Hstrike2).
  destruct (send_accepted ping w2 sid Hopen2) as
    (w3 & Hsend & Hq3 & _ & Hws3 & _ & Htx3 & Hother3);
    [reflexivity | rewrite Hscript2; exact Hscript|].
  pose proof (send_timer_state ping w2) as Hts3.
  pose proof (send_missedPings ping w2) as Hmp3.
  assert (Hcons3 : console (world_of (send ping w2)) = console w2).
  { apply (send_accepted_console ping w2 sid Hopen2); [reflexivity|].
    rewrite Hscript2. exact Hscript. }
  rewrite Hsend in *. cbn [world_of returns] in *.
  split; [reflexivity|].
  split; [rewrite Htx3, Htx2; reflexivity|].
  split; [intros other Hne; rewrite (Hother3 other Hne); apply Htx2|].
  split; [rewrite Hmp3; exact Hmp2|].
  split; [unfold logged in *; rewrite Hcons3; exact Hlog2|].
  split; [destruct late; [rewrite Hcons3; exact Hstrike2|exact I]|].
  split; [rewrite Hq3; exact Hq2|].
  split; [rewrite Hws3, Hws2; apply open_socket_inv in Hopen; tauto|].
  rewrite Hts3. exact Hts2.
Qed.

Lemma health_check_probes_once_witness :
  let w := step (TimePasses 30000) answered_probe in
  transmitted (world_of (performHealthCheck w)) 0 = [ping_json; ping_json] /\
  missedPings (svc (world_of (performHealthCheck w))) = 1%nat.
Proof.
  cbn zeta.
  destruct (health_check_probes_once (step (TimePasses 30000) answered_probe) 0)
    as (_ & Htx & _ & Hmissed & _).
  - reflexivity.
  - vm_compute. discriminate.
  - reflexivity.
  - split; [exact Htx|exact Hmissed].
Defined.

Lemma send_console_grows (m : Message) (w : World) (entry : LogEntry) :
  In entry (console w) -> In entry (console (world_of (send m w))).
Proof.
  intro H. unfold send, ws_send, queueMessage.
  repeat (simp; rewrite ?in_app_iff; try tauto; break_match).
Qed.

(** The health monitor measures the age of the last pong, not of the last
    ping.  Because the timeout is shorter than the interval, a check that
    runs one interval (or more) after a pong was received counts a missed
    probe and logs strike 1, although every probe so far was answered; it
    stays below the tolerance, which therefore is reached as soon as a
    single probe goes unanswered. *)
Theorem answered_probe_still_counts_strike (w : World) (ms : Z) :
  0 < HEALTH_CHECK_TIMEOUT (svc w) < HEALTH_CHECK_INTERVAL (svc w) ->
  HEALTH_CHECK_INTERVAL (svc w) <= ms ->
  let w1 := step (TimePasses ms) (handlePong w) in
  let w' := world_of (performHealthCheck w1) in
  missedPings (svc w1) = 0%nat /\
  strikes_out w1 = false /\
  missedPings (svc w') = 1%nat /\
  In (warn, LogMissedPing 1) (console w') /\
  strikes_out (step (TimePasses ms) w') = true.
Proof.
  intros Hcadence Hms. cbn zeta. cbn [step].
  set (w1 := set_now (now (handlePong w) + ms) (handlePong w)).
  assert (Hlate : (now w1 - lastPongTime (svc w1) >? HEALTH_CHECK_TIMEOUT (svc w1)) = true).
  { unfold w1, handlePong. simp. apply Z.gtb_lt. lia. }
  assert (Hbelow : strikes_out w1 = false).
  { unfold strikes_out. rewrite Hlate. reflexivity. }
  split; [reflexivity|]. split; [exact Hbelow|].
  rewrite (performHealthCheck_below w1 Hbelow). cbn zeta. rewrite Hlate.
  change (missedPings (svc w1)) with 0%nat.
  set (w2 := log (LogMissedPing 1) warn (upd (set_missedPings 1%nat) w1)).
  assert (Hin : In (warn, LogMissedPing 1) (console w2)).
  { unfold w2. simp. rewrite in_app_iff. cbn [In]. auto. }
  assert (H : forall v : World,
            missedPings (svc v) = 1%nat -> In (warn, LogMissedPing 1) (console v) ->
            now v = now w1 -> lastPongTime (svc v) = lastPongTime (svc w1) ->
            HEALTH_CHECK_TIMEOUT (svc v) = HEALTH_CHECK_TIMEOUT (svc w1) ->
            missedPings (svc v) = 1%nat /\ In (warn, LogMissedPing 1) (console v) /\
            strikes_out (set_now (now v + ms) v) = true).
  { intros v Hm Hc Hn Hp Ht. split; [exact Hm|]. split; [exact Hc|].
    unfold strikes_out. simp. rewrite Hm, Hn, Hp, Ht.
    replace (now w1 + ms - lastPongTime (svc w1) >? HEALTH_CHECK_TIMEOUT (svc w1))
      with true; [reflexivity|].
    symmetry. apply Z.gtb_lt. unfold w1, handlePong. simp. lia. }
  destruct (ws_is_open w1).
  - apply H.
    + rewrite send_missedPings. reflexivity.
    + apply send_console_grows. simp. rewrite in_app_iff. left. exact Hin.
    + unfold send, ws_send, queueMessage. by_cases.
    + unfold send, ws_send, queueMessage. by_cases.
    + unfold send, ws_send, queueMessage. by_cases.
  - apply H; try reflexivity. exact Hin.
Qed.

Lemma answered_probe_still_counts_strike_witness :
  let w := run [CallConnect; SocketOpen 0; TimePasses 30000; TimerFires 1]
               (initial_world 0 []) in
  let w1 := step (TimePasses 30000) (handlePong w) in
  missedPings (svc (world_of (performHealthCheck w1))) = 1%nat.
Proof.
  cbn zeta.
  destruct (answered_probe_still_counts_strike
              (run [CallConnect; SocketOpen 0; TimePasses 30000; TimerFires 1]
                   (initial_world 0 []))
              30000) as (_ & _ & H & _).
  - vm_compute. split; reflexivity.
  - vm_compute. discriminate.
  - exact H.
Defined.

(** ** The adaptive cadence and the subscriptions *)

Lemma connect_settings (w : World) : settings (connect w) = settings w.
Proof. unfold settings, cadence, connect, checkRateLimit, handleError, new_WebSocket. by_cases. Qed.

Lemma disconnect_settings (w : World) : settings (disconnect w) = settings w.
Proof. unfold settings, cadence, disconnect, stopHealthChecks, clear_timer, ws_close. by_cases. Qed.

Lemma reconnect_settings (w : World) : settings (reconnect w) = settings w.
Proof.
  unfold reconnect. rewrite connect_settings.
  change (settings (upd (set_reconnectCount 0%nat) (disconnect w)))
    with (settings (disconnect w)).
  apply disconnect_settings.
Qed.

Lemma send_settings (m : Message) (w : World) :
  settings (world_of (send m w)) = settings w.
Proof. unfold settings, cadence, send, ws_send, queueMessage. by_cases. Qed.

Lemma processMessageQueue_loop_settings (fuel : nat) (w : World) :
  settings (world_of (processMessageQueue_loop fuel w)) = settings w.
Proof.
  revert w. induction fuel as [|fuel IH]; intro w; [reflexivity|].
  cbn [processMessageQueue_loop].
  destruct (messageQueue (svc w)) as [|message rest]; [reflexivity|].
  destruct (ws_is_open w); [|reflexivity].
  destruct (truthy message).
  - pose proof (send_settings message (upd (set_messageQueue rest) w)) as Hs.
    destruct (send message (upd (set_messageQueue rest) w)) as [w'|e w']; simp.
    + rewrite IH. exact Hs.
    + exact Hs.
  - rewrite IH. reflexivity.
Qed.

Lemma handleOpen_settings (w : World) : settings (world_of (handleOpen w)) = settings w.
Proof.
  unfold handleOpen, processMessageQueue. rewrite processMessageQueue_loop_settings.
  unfold settings, cadence, startHealthChecks, stopHealthChecks, set_timer, clear_timer.
  by_cases.
Qed.

Lemma handleClose_settings (w : World) : settings (handleClose w) = settings w.
Proof.
  unfold settings, cadence, handleClose, attemptReconnect, stopHealthChecks, set_timer,
    clear_timer.
  by_cases.
Qed.

Lemma handleMessage_settings (data : Inbound) (w : World) :
  settings (handleMessage data w) = settings w.
Proof.
  unfold settings, cadence, handleMessage, handleBinaryMessage, handlePong, notifyListeners.
  by_cases.
Qed.

Lemma telemetry_settings (w : World) :
  settings (checkForMemoryLeaks (checkPerformance w)) = settings w.
Proof.
  unfold settings, cadence, checkForMemoryLeaks, checkPerformance, cleanupResources,
    logPerformanceReport, debugMemoryUsage.
  by_cases.
Qed.

Lemma performHealthCheck_settings (w : World) :
  settings (world_of (performHealthCheck w)) = settings w.
Proof.
  unfold performHealthCheck.
  assert (Hping : forall w', settings w' = settings w ->
            settings (world_of (if ws_is_open w'
                                then send ping (log LogSendingPing info w')
                                else Returns w')) = settings w).
  { intros w' E. destruct (ws_is_open w'); [rewrite send_settings|]; exact E. }
  destruct (_ >? _); [|apply Hping; reflexivity].
  destruct (_ <=? _)%nat; [|apply Hping; reflexivity].
  cbn [world_of]. rewrite reconnect_settings. reflexivity.
Qed.

Lemma fire_timer_settings (id : nat) (w : World) :
  settings (fire_timer id w) = settings w.
Proof.
  unfold fire_timer.
  destruct (find _ (timers w)) as [t|]; [|reflexivity].
  destruct (due t <=? now w); [|reflexivity].
  destruct (timerKind t); cbn [timer_callback].
  - rewrite connect_settings. destruct (period t); reflexivity.
  - rewrite performHealthCheck_settings. destruct (period t); reflexivity.
Qed.

Lemma step_settings (e : Event) (w : World) :
  match e with
  | CallAddMessageListener _ | CallRemoveMessageListener _ | NetworkQualityChange _ _ => True
  | _ => settings (step e w) = settings w
  end.
Proof.
  destruct e; cbn [step]; try exact I; try reflexivity.
  - apply connect_settings.
  - apply disconnect_settings.
  - apply reconnect_settings.
  - apply send_settings.
  - destruct (socket_state w sid) as [[]|]; try reflexivity.
    rewrite handleOpen_settings. reflexivity.
  - destruct (socket_state w sid) as [[]|]; try reflexivity;
      rewrite handleClose_settings; reflexivity.
  - destruct (socket_state w sid) as [[]|]; reflexivity.
  - destruct (socket_state w sid) as [[]|]; try reflexivity; apply handleMessage_settings.
  - apply fire_timer_settings.
  - unfold handleNetworkChange. rewrite reconnect_settings. reflexivity.
  - unfold handleNetworkChange. rewrite disconnect_settings. reflexivity.
  - rewrite handleWindowFocus_inert. destruct (ws_is_open w); reflexivity.
  - unfold handleVisibilityChange, checkZombieConnection. destruct visible; [|reflexivity].
    destruct (_ && _); [|reflexivity]. rewrite reconnect_settings. reflexivity.
  - apply telemetry_settings.
Qed.

Lemma handleNetworkQualityChange_cadence effectiveType downlink (w : World) :
  let w' := handleNetworkQualityChange effectiveType downlink w in
  listeners (svc w') = listeners (svc w) /\
  (cadence (svc w') = cadence (svc w) \/
   cadence (svc w') = (good, 30000, 5000) \/
   cadence (svc w') = (poor, 45000, 10000)).
Proof.
  cbn zeta.
  unfold handleNetworkQualityChange, adjustForPoorConnection, adjustForGoodConnection,
    cadence.
  destruct (_ || _); simp; [auto|]. destruct downlink as [d|]; [|auto].
  destruct (Qltb _ d); simp; auto.
Qed.

Lemma subscription_cadence (l : nat) (w : World) :
  cadence (svc (addMessageListener l w)) = cadence (svc w) /\
  cadence (svc (removeMessageListener l w)) = cadence (svc w).
Proof.
  unfold addMessageListener, removeMessageListener, cadence.
  destruct (existsb _ _); auto.
Qed.

Lemma settings_inv (w w' : World) :
  settings w' = settings w ->
  cadence (svc w') = cadence (svc w) /\ listeners (svc w') = listeners (svc w).
Proof.
  unfold settings. intro E. split.
  - exact (f_equal fst E).
  - exact (f_equal snd E).
Qed.

Lemma step_cadence_ok (e : Event) (w : World) :
  cadence (svc w) = (good, 30000, 5000) \/ cadence (svc w) = (poor, 45000, 10000) ->
  cadence (svc (step e w)) = (good, 30000, 5000) \/
  cadence (svc (step e w)) = (poor, 45000, 10000).
Proof.
  intro H. pose proof (step_settings e w) as Hs.
  assert (Hsame : settings (step e w) = settings w ->
                  cadence (svc (step e w)) = (good, 30000, 5000) \/
                  cadence (svc (step e w)) = (poor, 45000, 10000)).
  { intro E. rewrite (proj1 (settings_inv _ _ E)). exact H. }
  destruct e; try (apply Hsame; exact Hs); cbn [step].
  - rewrite (proj1 (subscription_cadence listener w)). exact H.
  - rewrite (proj2 (subscription_cadence listener w)). exact H.
  - destruct (handleNetworkQualityChange_cadence effectiveType downlink w) as [_ [E|[E|E]]];
      cbn zeta in E; rewrite E; auto.
Qed.

(** The quality label, the health-check interval and the health-check timeout
    move together: whatever has happened they are "good", 30 s and 5 s, or
    "poor", 45 s and 10 s (the label is never "degraded", and the timeout is
    shorter than the interval).  Only the network-quality signal changes
    them, and it leaves the timers as they are: an interval that is running
    keeps its period. *)
Theorem cadence_follows_quality
  (t0 : Z) (script : list SendOutcome) (events : list Event) (e : Event) :
  let w := run events (initial_world t0 script) in
  (cadence (svc w) = (good, 30000, 5000) \/ cadence (svc w) = (poor, 45000, 10000)) /\
  connectionQuality (svc w) <> degraded /\
  0 < HEALTH_CHECK_TIMEOUT (svc w) < HEALTH_CHECK_INTERVAL (svc w) /\
  ((forall effectiveType downlink, e <> NetworkQualityChange effectiveType downlink) ->
   cadence (svc (step e w)) = cadence (svc w)) /\
  (forall effectiveType downlink,
     timer_state (step (NetworkQualityChange effectiveType downlink) w) = timer_state w).
Proof.
  cbn zeta.
  assert (H : cadence (svc (run events (initial_world t0 script))) = (good, 30000, 5000) \/
              cadence (svc (run events (initial_world t0 script))) = (poor, 45000, 10000)).
  { assert (H0 : cadence (svc (initial_world t0 script)) = (good, 30000, 5000) \/
                 cadence (svc (initial_world t0 script)) = (poor, 45000, 10000))
      by (left; reflexivity).
    revert H0. generalize (initial_world t0 script).
    induction events as [|e' events IH]; intros w Hw; [exact Hw|].
    cbn [run fold_left]. apply IH, step_cadence_ok, Hw. }
  revert H. generalize (run events (initial_world t0 script)). intros w H.
  split; [exact H|]. split; [|split; [|split]].
  - unfold cadence in H. destruct H as [H|H]; injection H as -> _ _; discriminate.
  - unfold cadence in H. destruct H as [H|H]; injection H as _ -> ->; lia.
  - intro Hother. pose proof (step_settings e w) as Hs.
    destruct e; try exact (proj1 (settings_inv _ _ Hs)).
    + apply subscription_cadence.
    + apply subscription_cadence.
    + exfalso. exact (Hother effectiveType downlink eq_refl).
  - intros effectiveType downlink. apply handleNetworkQualityChange_timer_state.
Qed.

Lemma existsb_eqb_In (l : nat) (ls : list nat) :
  existsb (Nat.eqb l) ls = true <-> In l ls.
Proof.
  rewrite existsb_exists. split.
  - intros (x & Hx & E). apply Nat.eqb_eq in E. subst. exact Hx.
  - intro H. exists l. split; [exact H|apply Nat.eqb_refl].
Qed.

Lemma addMessageListener_In (l l' : nat) (w : World) :
  In l' (listeners (svc (addMessageListener l w))) <-> l' = l \/ In l' (listeners (svc w)).
Proof.
  unfold addMessageListener.
  destruct (existsb (Nat.eqb l) (listeners (svc w))) eqn:E; simp.
  - apply existsb_eqb_In in E. split; [auto|]. intros [->|H]; assumption.
  - rewrite in_app_iff. cbn [In]. split; intros [H|H]; auto.
    destruct H as [H|[]]; auto.
Qed.

Lemma removeMessageListener_In (l l' : nat) (w : World) :
  In l' (listeners (svc (removeMessageListener l w))) <-> l' <> l /\ In l' (listeners (svc w)).
Proof.
  unfold removeMessageListener. simp. rewrite filter_In.
  destruct (Nat.eqb_spec l' l); cbn [negb]; split; intros [H1 H2]; split; auto;
    try discriminate; contradiction.
Qed.

Lemma addMessageListener_NoDup (l : nat) (w : World) :
  NoDup (listeners (svc w)) -> NoDup (listeners (svc (addMessageListener l w))).
Proof.
  intro H. unfold addMessageListener.
  destruct (existsb (Nat.eqb l) (listeners (svc w))) eqn:E; simp; [exact H|].
  assert (Hnot : ~ In l (listeners (svc w))).
  { intro Hin. apply existsb_eqb_In in Hin. congruence. }
  revert H Hnot. generalize (listeners (svc w)). intro ls.
  induction ls as [|x ls IH]; intros Hnd Hnot; cbn [app].
  - constructor; [intros []|constructor].
  - inversion Hnd as [|? ? Hx Hrest]; subst. constructor.
    + rewrite in_app_iff. cbn [In]. intros [Hin|[->|[]]]; [exact (Hx Hin)|].
      apply Hnot. left. reflexivity.
    + apply IH; [exact Hrest|]. intro Hin. apply Hnot. right. exact Hin.
Qed.

Lemma filter_all {A : Type} (f : A -> bool) (l : list A) :
  (forall x, In x l -> f x = true) -> filter f l = l.
Proof.
  induction l as [|x l IH]; intro H; [reflexivity|].
  cbn [filter]. rewrite (H x) by (left; reflexivity).
  f_equal. apply IH. intros y Hy. apply H. right. exact Hy.
Qed.

Lemma step_listeners_NoDup (e : Event) (w : World) :
  NoDup (listeners (svc w)) -> NoDup (listeners (svc (step e w))).
Proof.
  intro H. pose proof (step_settings e w) as Hs.
  destruct e; try (rewrite (proj2 (settings_inv _ _ Hs)); exact H); cbn [step].
  - apply addMessageListener_NoDup, H.
  - unfold removeMessageListener. simp. apply NoDup_filter, H.
  - rewrite (proj1 (handleNetworkQualityChange_cadence effectiveType downlink w)). exact H.
Qed.

(** The subscriptions behave as a set, whatever has happened: no callback is
    registered twice.  Mounting the component registers its callback (a
    second mount changes nothing), unmounting removes it and no other, and a
    mount followed by the unmount restores the subscriptions of before.  No
    event other than the two subscription calls changes them. *)
Theorem subscriptions_form_a_set
  (t0 : Z) (script : list SendOutcome) (events : list Event) (e : Event) (l l' : nat) :
  let w := run events (initial_world t0 script) in
  NoDup (listeners (svc w)) /\
  (In l' (listeners (svc (component_mount l w))) <-> l' = l \/ In l' (listeners (svc w))) /\
  (In l' (listeners (svc (component_unmount l w))) <->
   l' <> l /\ In l' (listeners (svc w))) /\
  component_mount l (component_mount l w) = component_mount l w /\
  (~ In l (listeners (svc w)) ->
   listeners (svc (component_unmount l (component_mount l w))) = listeners (svc w)) /\
  ((forall x, e <> CallAddMessageListener x) ->
   (forall x, e <> CallRemoveMessageListener x) ->
   listeners (svc (step e w)) = listeners (svc w)).
Proof.
  cbn zeta.
  assert (H : NoDup (listeners (svc (run events (initial_world t0 script))))).
  { assert (H0 : NoDup (listeners (svc (initial_world t0 script)))) by constructor.
    revert H0. generalize (initial_world t0 script).
    induction events as [|e' events IH]; intros w Hw; [exact Hw|].
    cbn [run fold_left]. apply IH, step_listeners_NoDup, Hw. }
  revert H. generalize (run events (initial_world t0 script)). intros w H.
  unfold component_mount, component_unmount.
  split; [exact H|]. split; [apply addMessageListener_In|].
  split; [apply removeMessageListener_In|]. split; [|split].
  - assert (Hin : existsb (Nat.eqb l) (listeners (svc (addMessageListener l w))) = true).
    { apply existsb_eqb_In, addMessageListener_In. left. reflexivity. }
    unfold addMessageListener at 1. rewrite Hin. reflexivity.
  - intro Hnot. unfold removeMessageListener, addMessageListener.
    destruct (existsb (Nat.eqb l) (listeners (svc w))) eqn:E.
    { apply existsb_eqb_In in E. contradiction. }
    simp. rewrite filter_app. cbn [filter]. rewrite Nat.eqb_refl. cbn [negb].
    rewrite app_nil_r. apply filter_all. intros x Hx.
    destruct (Nat.eqb_spec x l); [subst; contradiction|reflexivity].
  - intros Hadd Hremove. pose proof (step_settings e w) as Hs.
    destruct e; try exact (proj2 (settings_inv _ _ Hs)).
    + exfalso. exact (Hadd listener eq_refl).
    + exfalso. exact (Hremove listener eq_refl).
    + apply handleNetworkQualityChange_cadence.
Qed.

(** ** The provider *)

Lemma connect_creates (w : World) :
  isReconnecting (svc w) = false -> ws_is_open w = false ->
  hasWindow w = true -> constructorThrows w = false ->
  fst (checkRateLimit w) = true ->
  sockets (connect w) = sockets w ++ [{| readyState := CONNECTING; sent := [] |}] /\
  ws (svc (connect w)) = Some (length (sockets w)) /\
  isReconnecting (svc (connect w)) = true.
Proof.
  intros Hr Ho Hw Hc Hrl. unfold connect. rewrite Hr, Ho, Hw. cbn [orb negb].
  unfold checkRateLimit in *.
  destruct (_ >? _); simp; destruct (_ <=? _)%nat; simp; try discriminate;
    rewrite Hc; unfold new_WebSocket; simp; repeat split.
Qed.

Lemma disconnect_abandons_attempt (w : World) (sid : nat) :
  ws (svc w) = Some sid -> socket_state w sid = Some CONNECTING ->
  socket_state (disconnect w) sid = Some CLOSING /\
  isReconnecting (svc (disconnect w)) = isReconnecting (svc w).
Proof.
  intros Hws Hst. unfold socket_state in *.
  destruct (nth_error (sockets w) sid) as [k|] eqn:Hk; [|discriminate].
  cbn [option_map] in Hst. injection Hst as Hst.
  unfold disconnect, stopHealthChecks, clear_timer.
  destruct (healthCheckTimer (svc w)); simp;
    destruct (reconnectTimer (svc w)); simp; rewrite Hws; unfold ws_close; simp;
    rewrite nth_error_list_update_eq, Hk; cbn [option_map]; rewrite Hst; auto.
Qed.

(** The provider's effect run twice in a row (mount, cleanup, mount again, as
    a development build of React does) leaves the service without a socket:
    the first mount starts a connection attempt, the cleanup closes it but
    leaves the "connecting" flag set, and because of the flag the second
    mount's [connect] returns at once.  No transport exists until the close
    event of the abandoned attempt has arrived and its retry timer has run. *)
Theorem provider_remount_finds_no_socket (w : World) :
  isReconnecting (svc w) = false -> ws_is_open w = false ->
  hasWindow w = true -> constructorThrows w = false ->
  fst (checkRateLimit w) = true ->
  let sid := length (sockets w) in
  let w1 := provider_mount w in
  let w2 := provider_unmount w1 in
  let w3 := provider_mount w2 in
  ws (svc w1) = Some sid /\ socket_state w1 sid = Some CONNECTING /\
  w3 = w2 /\
  ws (svc w3) = None /\ isConnected w3 = false /\
  length (sockets w3) = S sid /\ socket_state w3 sid = Some CLOSING /\
  isReconnecting (svc w3) = true.
Proof.
  intros Hr Ho Hw Hc Hrl. cbn zeta.
  destruct (connect_creates w Hr Ho Hw Hc Hrl) as (Hs & Hws & Hflag).
  assert (E1 : provider_mount w = connect w).
  { unfold provider_mount, isConnected. rewrite Ho. reflexivity. }
  rewrite E1. unfold provider_unmount.
  assert (Hst : socket_state (connect w) (length (sockets w)) = Some CONNECTING).
  { unfold socket_state. rewrite Hs, nth_error_app2, Nat.sub_diag by apply le_n.
    reflexivity. }
  destruct (disconnect_handles (connect w)) as (Hnone & _ & _).
  destruct (disconnect_abandons_attempt (connect w) _ Hws Hst) as (Hclosing & Hflag').
  rewrite Hflag in Hflag'.
  assert (Hnot : isConnected (disconnect (connect w)) = false).
  { unfold isConnected, ws_is_open, open_socket. rewrite Hnone. reflexivity. }
  assert (E3 : provider_mount (disconnect (connect w)) = disconnect (connect w)).
  { unfold provider_mount. rewrite Hnot. apply connect_in_flight, Hflag'. }
  rewrite E3.
  split; [exact Hws|]. split; [exact Hst|]. split; [reflexivity|].
  split; [exact Hnone|]. split; [exact Hnot|].
  split; [|split; [exact Hclosing|exact Hflag']].
  rewrite disconnect_sockets, Hs, length_app. cbn [length]. lia.
Qed.

Lemma provider_remount_finds_no_socket_witness :
  let w3 := provider_mount (provider_unmount (provider_mount (initial_world 0 []))) in
  ws (svc w3) = None /\ socket_state w3 0 = Some CLOSING.
Proof.
  cbn zeta.
  destruct (provider_remount_finds_no_socket (initial_world 0 []))
    as (_ & _ & _ & Hws & _ & _ & Hst & _); try reflexivity.
  split; [exact Hws|exact Hst].
Defined.

(** ** reconnect on an open connection *)

Lemma disconnect_closes_open (w : World) (sid : nat) :
  ws (svc w) = Some sid -> socket_state w sid = Some OPEN ->
  socket_state (disconnect w) sid = Some CLOSING.
Proof.
  intros Hws Hst. unfold socket_state in *.
  destruct (nth_error (sockets w) sid) as [k|] eqn:Hk; [|discriminate].
  cbn [option_map] in Hst. injection Hst as Hst.
  unfold disconnect, stopHealthChecks, clear_timer.
  destruct (healthCheckTimer (svc w)); simp;
    destruct (reconnectTimer (svc w)); simp; rewrite Hws; unfold ws_close; simp;
    rewrite nth_error_list_update_eq, Hk; cbn [option_map]; rewrite Hst; auto.
Qed.

Lemma disconnect_environment (w : World) :
  isReconnecting (svc (disconnect w)) = isReconnecting (svc w) /\
  hasWindow (disconnect w) = hasWindow w /\
  constructorThrows (disconnect w) = constructorThrows w.
Proof. unfold disconnect, stopHealthChecks, clear_timer, ws_close. by_cases; auto. Qed.

Lemma checkRateLimit_verdict (w v : World) :
  rate_view v = rate_view w -> fst (checkRateLimit v) = fst (checkRateLimit w).
Proof.
  unfold rate_view. intro E. injection E as Hnow Hrl _.
  unfold checkRateLimit. rewrite Hnow, Hrl.
  destruct (_ >? _); cbn zeta; simp; rewrite ?Hrl;
    destruct (_ <=? _)%nat; reflexivity.
Qed.

Lemma connect_reconnectTimer (w : World) :
  reconnectTimer (svc (connect w)) = reconnectTimer (svc w).
Proof. unfold connect, checkRateLimit, handleError, new_WebSocket. by_cases. Qed.

(** [reconnect] on an open connection replaces it: the old socket is handed
    to [close] and a new one is created and made current, the attempt counter
    is zero, no health-check interval and no tracked reconnect timer is left,
    and the queue and everything transmitted so far are as before. *)
Theorem reconnect_replaces_open_connection (w : World) (cur : nat) :
  health_tracked w ->
  open_socket w = Some cur -> isReconnecting (svc w) = false ->
  hasWindow w = true -> constructorThrows w = false ->
  fst (checkRateLimit w) = true ->
  let w' := reconnect w in
  let fresh := length (sockets w) in
  ws (svc w') = Some fresh /\
  socket_state w' fresh = Some CONNECTING /\
  socket_state w' cur = Some CLOSING /\
  length (sockets w') = S fresh /\
  isConnected w' = false /\
  reconnectCount (svc w') = 0%nat /\
  healthCheckTimer (svc w') = None /\
  pending HealthInterval w' = [] /\
  reconnectTimer (svc w') = None /\
  messageQueue (svc w') = messageQueue (svc w) /\
  (forall sid, transmitted w' sid = transmitted w sid).
Proof.
  intros Htracked Hopen Hflag Hwin Hthrows Hpermit. cbn zeta.
  apply open_socket_inv in Hopen. destruct Hopen as [Hws Hst].
  destruct (reconnect_stops_health_checks w Htracked) as [Hnone Hpending].
  pose proof (reconnect_attempts w) as Hcount.
  pose proof (reconnect_queue w) as Hqueue.
  pose proof (fun sid => reconnect_transmitted w sid) as Htx.
  unfold reconnect in *.
  set (v := upd (set_reconnectCount 0%nat) (disconnect w)) in *.
  destruct (disconnect_handles w) as (Hvws & Hvrt & _).
  destruct (disconnect_environment w) as (Hvflag & Hvwin & Hvthrows).
  pose proof (disconnect_closes_open w cur Hws Hst) as Hclosing.
  pose proof (disconnect_sockets w) as Hlen.
  assert (Hvopen : ws_is_open v = false).
  { unfold ws_is_open, open_socket, v. simp. rewrite Hvws. reflexivity. }
  assert (Hvpermit : fst (checkRateLimit v) = true).
  { rewrite (checkRateLimit_verdict w v); [exact Hpermit|apply disconnect_rate_view]. }
  destruct (connect_creates v) as (Hs & Hnew & _);
    [unfold v; simp; congruence | exact Hvopen | unfold v; simp; congruence
    | unfold v; simp; congruence | exact Hvpermit |].
  change (sockets v) with (sockets (disconnect w)) in *.
  rewrite Hlen in Hnew.
  assert (Hcur : (cur < length (sockets (disconnect w)))%nat).
  { apply nth_error_Some. unfold socket_state in Hclosing.
    destruct (nth_error (sockets (disconnect w)) cur); [discriminate|discriminate]. }
  assert (Hfresh : socket_state (connect v) (length (sockets w)) = Some CONNECTING).
  { unfold socket_state. rewrite Hs, nth_error_app2 by lia.
    rewrite Hlen, Nat.sub_diag. reflexivity. }
  split; [exact Hnew|]. split; [exact Hfresh|].
  split.
  { unfold socket_state. rewrite Hs, nth_error_app1 by exact Hcur. exact Hclosing. }
  split; [rewrite Hs, length_app, Hlen; cbn [length]; lia|].
  split.
  { unfold isConnected, ws_is_open, open_socket. rewrite Hnew, Hfresh. reflexivity. }
  split; [exact Hcount|]. split; [exact Hnone|]. split; [exact Hpending|].
  split; [rewrite connect_reconnectTimer; unfold v; simp; exact Hvrt|].
  split; [exact Hqueue|exact Htx].
Qed.

Lemma reconnect_replaces_open_connection_witness :
  readyStates (reconnect open_connection) = [CLOSING; CONNECTING] /\
  ws (svc (reconnect open_connection)) = Some 1%nat /\
  pending HealthInterval (reconnect open_connection) = [].
Proof.
  split; [reflexivity|].
  destruct (reconnect_replaces_open_connection open_connection 0)
    as (Hws & _ & _ & _ & _ & _ & _ & Hpending & _); try reflexivity.
  - exact (reachable_health_tracked 0 [] [CallConnect; SocketOpen 0]).
  - split; [exact Hws|exact Hpending].
Defined.

(** ** The error event *)

(** An error event by itself only logs and clears the "connecting" flag: the
    socket is not closed and stays current, no retry is scheduled and the
    attempt counter does not move.  A [connect] that follows therefore
    creates a second socket and makes it current, while the first one is
    still alive. *)
Theorem error_event_abandons_socket (w : World) (sid : nat) :
  alive (socket_state w sid) = true -> ws_is_open w = false ->
  hasWindow w = true -> constructorThrows w = false ->
  fst (checkRateLimit w) = true ->
  let w1 := step (SocketError sid) w in
  let w2 := step CallConnect w1 in
  sockets w1 = sockets w /\ ws (svc w1) = ws (svc w) /\
  timer_state w1 = timer_state w /\
  reconnectCount (svc w1) = reconnectCount (svc w) /\
  isReconnecting (svc w1) = false /\
  ws (svc w2) = Some (length (sockets w)) /\
  length (sockets w2) = S (length (sockets w)) /\
  socket_state w2 sid = socket_state w sid.
Proof.
  intros Halive Hopen Hwin Hthrows Hpermit. cbn zeta.
  assert (E : step (SocketError sid) w = handleError w).
  { cbn [step]. destruct (socket_state w sid) as [[]|]; try reflexivity; discriminate. }
  rewrite E. cbn [step].
  assert (Hpermit' : fst (checkRateLimit (handleError w)) = true).
  { rewrite (checkRateLimit_verdict w (handleError w)); [exact Hpermit|reflexivity]. }
  destruct (connect_creates (handleError w)) as (Hs & Hws & _);
    try assumption; try reflexivity.
  change (sockets (handleError w)) with (sockets w) in *.
  repeat split; try assumption.
  - rewrite Hs, length_app. cbn [length]. lia.
  - unfold socket_state in *. rewrite Hs.
    destruct (nth_error (sockets w) sid) as [k|] eqn:Hk; [|discriminate].
    rewrite nth_error_app1; [rewrite Hk; reflexivity|].
    apply nth_error_Some. congruence.
Qed.

Lemma error_event_abandons_socket_witness :
  readyStates (run [SocketError 0; CallConnect] connecting) = [CONNECTING; CONNECTING] /\
  ws (svc (run [SocketError 0; CallConnect] connecting)) = Some 1%nat.
Proof.
  split; [reflexivity|].
  destruct (error_event_abandons_socket connecting 0)
    as (_ & _ & _ & _ & _ & Hws & _);
    [reflexivity | reflexivity | reflexivity | reflexivity | reflexivity | exact Hws].
Defined.

(** ** The missed probes *)

Lemma probes_ok_same (w w' : World) :
  timer_state w' = timer_state w -> (missedPings (svc w') <= missedPings (svc w))%nat ->
  probes_ok w -> probes_ok w'.
Proof.
  intros E Hm (Hok & Hle & Hlt). split; [exact (timers_ok_same w w' E Hok)|].
  split; [lia|]. rewrite (pending_same _ _ _ E). intro Hp. specialize (Hlt Hp). lia.
Qed.

Lemma probes_ok_stopped (w : World) :
  timers_ok w -> pending HealthInterval w = [] ->
  (missedPings (svc w) <= MAX_MISSED_PINGS)%nat -> probes_ok w.
Proof. intros Hok Hp Hm. split; [exact Hok|]. split; [exact Hm|]. congruence. Qed.

Lemma connect_missedPings (w : World) :
  missedPings (svc (connect w)) = missedPings (svc w).
Proof. unfold connect, checkRateLimit, handleError, new_WebSocket. by_cases. Qed.

Lemma disconnect_missedPings (w : World) :
  missedPings (svc (disconnect w)) = missedPings (svc w).
Proof. unfold disconnect, stopHealthChecks, clear_timer, ws_close. by_cases. Qed.

Lemma reconnect_missedPings (w : World) :
  missedPings (svc (reconnect w)) = missedPings (svc w).
Proof.
  unfold reconnect. rewrite connect_missedPings.
  change (missedPings (svc (upd (set_reconnectCount 0%nat) (disconnect w))))
    with (missedPings (svc (disconnect w))).
  apply disconnect_missedPings.
Qed.

Lemma handleClose_missedPings (w : World) :
  missedPings (svc (handleClose w)) = missedPings (svc w).
Proof.
  unfold handleClose, attemptReconnect, stopHealthChecks, set_timer, clear_timer. by_cases.
Qed.

Lemma handleMessage_missedPings (data : Inbound) (w : World) :
  (missedPings (svc (handleMessage data w)) <= missedPings (svc w))%nat.
Proof.
  unfold handleMessage, handleBinaryMessage, handlePong, notifyListeners.
  destruct (_ >? _); destruct data; simp; lia.
Qed.

Lemma telemetry_missedPings (w : World) :
  missedPings (svc (checkForMemoryLeaks (checkPerformance w))) = missedPings (svc w).
Proof.
  unfold checkForMemoryLeaks, checkPerformance, cleanupResources, logPerformanceReport,
    debugMemoryUsage.
  by_cases.
Qed.

Lemma handleNetworkQualityChange_missedPings effectiveType downlink (w : World) :
  missedPings (svc (handleNetworkQualityChange effectiveType downlink w)) =
  missedPings (svc w).
Proof.
  unfold handleNetworkQualityChange, adjustForPoorConnection, adjustForGoodConnection.
  by_cases.
Qed.

Lemma disconnect_probes (w : World) : probes_ok w -> probes_ok (disconnect w).
Proof.
  intros (Hok & Hle & _). destruct (disconnect_single w Hok) as [Hok' Hlen].
  apply probes_ok_stopped; [exact Hok'| |rewrite disconnect_missedPings; exact Hle].
  destruct (disconnect_timers w) as (_ & _ & Hin).
  apply filter_none. intros t Ht. destruct (Hin t Ht) as [Hold Huntracked].
  destruct (timerKind t) eqn:Hkind; [reflexivity|].
  exfalso. apply Huntracked, (proj2 Hok); assumption.
Qed.

Lemma reconnect_probes (w : World) :
  timers_ok w -> (missedPings (svc w) <= MAX_MISSED_PINGS)%nat -> probes_ok (reconnect w).
Proof.
  intros Hok Hle. apply probes_ok_stopped.
  - apply reconnect_ok, Hok.
  - apply reconnect_stops_health_checks, (proj2 Hok).
  - rewrite reconnect_missedPings. exact Hle.
Qed.

Lemma performHealthCheck_probes (w : World) :
  timers_ok w -> (missedPings (svc w) < MAX_MISSED_PINGS)%nat ->
  probes_ok (world_of (performHealthCheck w)).
Proof.
  intros Hok Hlt. unfold performHealthCheck.
  assert (Hping : forall w', timer_state w' = timer_state w ->
            (missedPings (svc w') < MAX_MISSED_PINGS)%nat ->
            probes_ok (world_of (if ws_is_open w'
                                 then send ping (log LogSendingPing info w')
                                 else Returns w'))).
  { intros w' E Hlt'.
    assert (Hw' : probes_ok w').
    { split; [exact (timers_ok_same w w' E Hok)|]. split; lia. }
    destruct (ws_is_open w'); [|exact Hw'].
    apply (probes_ok_same w'); [rewrite send_timer_state; reflexivity| |exact Hw'].
    rewrite send_missedPings. apply le_n. }
  destruct (_ >? _); [|apply Hping; [reflexivity|exact Hlt]].
  simp. destruct (Nat.leb_spec MAX_MISSED_PINGS (S (missedPings (svc w)))).
  - cbn [world_of]. apply reconnect_probes; [exact Hok|]. simp. lia.
  - apply Hping; [reflexivity|]. simp. exact H.
Qed.

Lemma fire_timer_probes (id : nat) (w : World) : probes_ok w -> probes_ok (fire_timer id w).
Proof.
  intros (Hok & Hle & Hlt).
  assert (Hw : probes_ok w) by (split; [exact Hok|split; assumption]).
  pose proof (fire_timer_single id w) as Hsingle.
  unfold fire_timer in *.
  destruct (find _ (timers w)) as [t|] eqn:Hfind; [|exact Hw].
  destruct (due t <=? now w); [|exact Hw].
  apply find_some in Hfind. destruct Hfind as [Hin _].
  set (v := match period t with
            | Some p =>
                set_timers
                  (map (fun t' => if Nat.eqb (timerId t') id
                                  then {| timerId := id; timerKind := timerKind t';
                                          due := due t' + p; period := period t' |}
                                  else t') (timers w)) w
            | None => clear_timer id w
            end) in *.
  assert (Hv : timers_ok v /\ missedPings (svc v) = missedPings (svc w) /\
               (pending HealthInterval v <> [] -> pending HealthInterval w <> [])).
  { unfold v. destruct Hok as [Hf Hh]. destruct (period t) as [p|].
    - split; [|split; [reflexivity|]].
      + split; intros t2 Ht2; simp; apply in_map_iff in Ht2;
          destruct Ht2 as (t' & <- & Ht');
          [specialize (Hf t' Ht') | specialize (Hh t' Ht')];
          destruct (Nat.eqb_spec (timerId t') id); cbn [timerId timerKind] in *; subst; auto.
      + unfold pending. simp. intros Hne Hnil. apply Hne.
        revert Hnil. generalize (timers w). intro l.
        induction l as [|x l IH]; [reflexivity|]. cbn [map filter].
        destruct (Nat.eqb (timerId x) id); cbn [timerKind];
          destruct (timerKind x); auto; discriminate.
    - unfold clear_timer. split; [|split; [reflexivity|]].
      + split; intros t2 Ht2; simp; apply filter_In in Ht2; destruct Ht2 as [Ht2 _]; auto.
      + unfold pending. simp. intros Hne Hnil. apply Hne.
        revert Hnil. generalize (timers w). intro l.
        induction l as [|x l IH]; [reflexivity|]. cbn [filter].
        destruct (negb (Nat.eqb (timerId x) id)); cbn [filter];
          destruct (timerKind x); auto; discriminate. }
  destruct Hv as (Hvok & Hvm & Hvp).
  destruct (timerKind t) eqn:Hkind; cbn [timer_callback].
  - apply (probes_ok_same v).
    + rewrite connect_timer_state. reflexivity.
    + rewrite connect_missedPings. simp. apply le_n.
    + split; [exact Hvok|]. rewrite Hvm. split; [exact Hle|].
      intro Hp. apply Hlt, Hvp, Hp.
  - apply performHealthCheck_probes; [exact Hvok|]. rewrite Hvm. apply Hlt.
    intro Hnil. unfold pending in Hnil.
    assert (Hin' : In t (filter (fun t0 => match timerKind t0 with
                                           | HealthInterval => true
                                           | ReconnectTimeout => false
                                           end) (timers w))).
    { apply filter_In. split; [exact Hin|]. rewrite Hkind. reflexivity. }
    rewrite Hnil in Hin'. exact Hin'.
Qed.

Lemma step_probes (e : Event) (w : World) : probes_ok w -> probes_ok (step e w).
Proof.
  intro H. pose proof H as (Hok & Hle & Hlt).
  destruct e; cbn [step]; try exact H.
  - apply (probes_ok_same w); [apply connect_timer_state| |exact H].
    rewrite connect_missedPings. apply le_n.
  - apply disconnect_probes, H.
  - apply reconnect_probes; assumption.
  - apply (probes_ok_same w); [apply send_timer_state| |exact H].
    rewrite send_missedPings. apply le_n.
  - apply (probes_ok_same w); [apply addMessageListener_timer_state| |exact H].
    unfold addMessageListener. destruct (existsb _ _); apply le_n.
  - destruct (socket_state w sid) as [[]|]; try exact H.
    pose proof (handleOpen_missedPings (set_readyState sid OPEN w)) as Hzero.
    split; [apply handleOpen_ok, Hok|]. rewrite Hzero. split; [apply Nat.le_0_l|].
    intros _. apply Nat.lt_0_succ.
  - assert (Hc : probes_ok (handleClose (set_readyState sid CLOSED w))).
    { destruct (handleClose_single (set_readyState sid CLOSED w) Hok) as [Hok' _].
      apply probes_ok_stopped; [exact Hok'| |rewrite handleClose_missedPings; exact Hle].
      unfold handleClose. rewrite attemptReconnect_pending.
      exact (proj2 (stopHealthChecks_ok
                      (log (LogClosed (now w - connectionStartTime (svc w))) warn
                         (set_readyState sid CLOSED w)) Hok)). }
    destruct (socket_state w sid) as [[]|]; try exact H; exact Hc.
  - destruct (socket_state w sid) as [[]|]; exact H.
  - destruct (socket_state w sid) as [[]|]; try exact H;
      (apply (probes_ok_same w);
       [apply handleMessage_timer_state|apply handleMessage_missedPings|exact H]).
  - apply fire_timer_probes, H.
  - apply reconnect_probes; assumption.
  - apply disconnect_probes, H.
  - rewrite handleWindowFocus_inert. destruct (ws_is_open w); exact H.
  - unfold handleVisibilityChange, checkZombieConnection. destruct visible; [|exact H].
    destruct (_ && _); [|exact H]. apply reconnect_probes; assumption.
  - apply (probes_ok_same w); [apply handleNetworkQualityChange_timer_state| |exact H].
    rewrite handleNetworkQualityChange_missedPings. apply le_n.
  - apply (probes_ok_same w); [apply telemetry_timer_state| |exact H].
    rewrite telemetry_missedPings. apply le_n.
Qed.

(** Whatever has happened, the count of missed probes is at most the
    tolerance of 2, and while it stands at 2 no health-check interval is
    pending: the check that reached the tolerance has reconnected and stopped
    the checks, so the strike-out cannot be counted a second time before an
    open or a pong resets the count. *)
Theorem missed_probes_bounded (t0 : Z) (script : list SendOutcome) (events : list Event) :
  let w := run events (initial_world t0 script) in
  (missedPings (svc w) <= MAX_MISSED_PINGS)%nat /\
  (missedPings (svc w) = MAX_MISSED_PINGS -> pending HealthInterval w = []).
Proof.
  cbn zeta.
  assert (H : probes_ok (run events (initial_world t0 script))).
  { assert (H0 : probes_ok (initial_world t0 script)).
    { split; [split; intros t []|]. split; [apply Nat.le_0_l|]. intros _. apply Nat.lt_0_succ. }
    revert H0. generalize (initial_world t0 script).
    induction events as [|e events IH]; intros w Hw; [exact Hw|].
    cbn [run fold_left]. apply IH, step_probes, Hw. }
  destruct H as (_ & Hle & Hlt). split; [exact Hle|].
  intro Hmax. destruct (pending HealthInterval _) as [|t l] eqn:Hp; [reflexivity|].
  exfalso. assert (Hne : t :: l <> []) by discriminate.
  specialize (Hlt Hne). lia.
Qed.

(** ** The health check at the tolerance *)

Lemma no_health_pending (w : World) :
  no_health w <-> pending HealthInterval w = [].
Proof.
  unfold no_health, pending. split.
  - intro H. apply filter_none. intros t Ht. rewrite (H t Ht). reflexivity.
  - intros H t Ht. destruct (timerKind t) eqn:Hkind; [reflexivity|].
    assert (Hin : In t (filter (fun t0 => match timerKind t0 with
                                          | HealthInterval => true
                                          | ReconnectTimeout => false
                                          end) (timers w))).
    { apply filter_In. split; [exact Ht|]. rewrite Hkind. reflexivity. }
    rewrite H in Hin. destruct Hin.
Qed.

Lemma calm_refl (w : World) : calm w w.
Proof. repeat split. auto. Qed.

Lemma calm_trans (w1 w2 w3 : World) : calm w1 w2 -> calm w2 w3 -> calm w1 w3.
Proof.
  intros (Hn1 & Hd1 & Hm1) (Hn2 & Hd2 & Hm2). repeat split; [auto|congruence|congruence].
Qed.

(** Split on every test of the methods unfolded, then settle the three parts
    of [calm] where the timers are untouched. *)
Ltac calm_by_cases :=
  unfold calm, no_health, logged;
  repeat (simp; break_match);
  simp;
  (split;
   [ intros Hn t Ht; auto
   | split;
     [ rewrite ?filter_app, ?length_app; cbn [filter snd is_degraded length];
       rewrite ?Nat.add_0_r; reflexivity
     | reflexivity ] ]).

Lemma connect_calm (w : World) : calm w (connect w).
Proof. unfold connect, checkRateLimit, handleError, new_WebSocket. calm_by_cases. Qed.

Lemma send_calm (m : Message) (w : World) : calm w (world_of (send m w)).
Proof. unfold send, ws_send, queueMessage. calm_by_cases. Qed.

Lemma handleError_calm (w : World) : calm w (handleError w).
Proof. unfold handleError. calm_by_cases. Qed.

Lemma telemetry_calm (w : World) : calm w (checkForMemoryLeaks (checkPerformance w)).
Proof.
  unfold checkForMemoryLeaks, checkPerformance, cleanupResources, logPerformanceReport,
    debugMemoryUsage.
  calm_by_cases.
Qed.

Lemma periodicCleanup_calm (w : World) : calm w (periodicCleanup w).
Proof. unfold periodicCleanup. calm_by_cases. Qed.

Lemma handleNetworkQualityChange_calm effectiveType downlink (w : World) :
  calm w (handleNetworkQualityChange effectiveType downlink w).
Proof.
  unfold handleNetworkQualityChange, adjustForPoorConnection, adjustForGoodConnection.
  calm_by_cases.
Qed.

Lemma subscription_calm (l : nat) (w : World) :
  calm w (addMessageListener l w) /\ calm w (removeMessageListener l w).
Proof.
  unfold addMessageListener, removeMessageListener. split; calm_by_cases.
Qed.

Lemma handleMessage_calm (data : Inbound) (w : World) :
  match data with InPong _ => True | _ => calm w (handleMessage data w) end.
Proof.
  destruct data; try exact I;
    unfold handleMessage, handleBinaryMessage, notifyListeners, inbound_size;
    calm_by_cases.
Qed.

Lemma disconnect_calm (w : World) : calm w (disconnect w).
Proof.
  split; [|split].
  - intros Hn t Ht. destruct (disconnect_timers w) as (_ & _ & Hin).
    apply Hn, (proj1 (Hin t Ht)).
  - unfold logged. rewrite disconnect_console. reflexivity.
  - apply disconnect_missedPings.
Qed.

Lemma reconnect_calm (w : World) : calm w (reconnect w).
Proof.
  unfold reconnect.
  apply (calm_trans w (upd (set_reconnectCount 0%nat) (disconnect w)));
    [exact (disconnect_calm w)|apply connect_calm].
Qed.

Lemma handleClose_calm (w : World) : calm w (handleClose w).
Proof.
  split; [|split].
  - intros Hn t Ht. unfold handleClose, attemptReconnect, set_timer in Ht.
    destruct (stopHealthChecks_timers
                (log (LogClosed (now w - connectionStartTime (svc w))) warn w))
      as (_ & _ & Hin).
    destruct (_ <? _)%nat; simp.
    + apply in_app_or in Ht. destruct Ht as [Ht|[<-|[]]]; [|reflexivity].
      apply Hn, (proj1 (Hin t Ht)).
    + apply Hn, (proj1 (Hin t Ht)).
  - unfold handleClose, attemptReconnect, stopHealthChecks, set_timer, clear_timer, logged.
    repeat (simp; break_match); simp;
      rewrite ?filter_app, ?length_app; cbn [filter snd is_degraded length];
      rewrite ?Nat.add_0_r; reflexivity.
  - apply handleClose_missedPings.
Qed.

Lemma log_calm (msg : LogMsg) (level : LogLevel) (w : World) :
  is_degraded msg = false -> calm w (log msg level w).
Proof.
  intro H. split; [auto|]. split; [|reflexivity].
  rewrite logged_log, H. lia.
Qed.

Lemma fire_timer_calm (id : nat) (w : World) : no_health w -> calm w (fire_timer id w).
Proof.
  intro Hn. unfold fire_timer.
  destruct (find _ (timers w)) as [t|] eqn:Hfind; [|apply calm_refl].
  destruct (due t <=? now w); [|apply calm_refl].
  apply find_some in Hfind. destruct Hfind as [Hin _].
  rewrite (Hn t Hin). cbn [timer_callback].
  set (v := match period t with
            | Some p =>
                set_timers
                  (map (fun t' => if Nat.eqb (timerId t') id
                                  then {| timerId := id; timerKind := timerKind t';
                                          due := due t' + p; period := period t' |}
                                  else t') (timers w)) w
            | None => clear_timer id w
            end).
  assert (Hv : calm w v).
  { unfold v, clear_timer. destruct (period t) as [p|]; (split; [|split; reflexivity]).
    - intros _ t2 Ht2. simp. apply in_map_iff in Ht2. destruct Ht2 as (t' & <- & Ht').
      specialize (Hn t' Ht').
      destruct (Nat.eqb (timerId t') id); cbn [timerKind]; exact Hn.
    - intros _ t2 Ht2. simp. apply filter_In in Ht2. apply Hn, (proj1 Ht2). }
  apply (calm_trans w v); [exact Hv|].
  apply (calm_trans v (log (LogReconnecting (reconnectCount (svc v))) info v));
    [apply log_calm; reflexivity|apply connect_calm].
Qed.

Lemma step_calm (e : Event) (w : World) :
  no_health w -> resets_probes e w = false -> calm w (step e w).
Proof.
  intros Hn Hquiet. unfold resets_probes in Hquiet.
  destruct e; cbn [step successful_open orb] in *; try apply calm_refl.
  - apply connect_calm.
  - apply disconnect_calm.
  - apply reconnect_calm.
  - apply send_calm.
  - apply subscription_calm.
  - apply subscription_calm.
  - destruct (socket_state w sid) as [[]|]; try apply calm_refl. discriminate.
  - assert (Hc : calm w (handleClose (set_readyState sid CLOSED w))).
    { apply (calm_trans w (set_readyState sid CLOSED w));
        [repeat split; auto|apply handleClose_calm]. }
    destruct (socket_state w sid) as [[]|]; try apply calm_refl; exact Hc.
  - destruct (socket_state w sid) as [[]|]; try apply calm_refl; apply handleError_calm.
  - pose proof (handleMessage_calm data w) as Hm.
    destruct data; try discriminate;
      destruct (socket_state w sid) as [[]|]; try apply calm_refl; exact Hm.
  - apply fire_timer_calm, Hn.
  - repeat split; auto.
  - unfold handleNetworkChange.
    apply (calm_trans w (log LogNetworkOnline info w));
      [apply log_calm; reflexivity|apply reconnect_calm].
  - unfold handleNetworkChange.
    apply (calm_trans w (log LogNetworkOffline warn w));
      [apply log_calm; reflexivity|apply disconnect_calm].
  - rewrite handleWindowFocus_inert. destruct (ws_is_open w); [apply calm_refl|].
    apply log_calm. reflexivity.
  - unfold handleVisibilityChange, checkZombieConnection.
    destruct visible; [|apply calm_refl]. destruct (_ && _); [|apply calm_refl].
    apply (calm_trans w (log LogZombie warn w));
      [apply log_calm; reflexivity|apply reconnect_calm].
  - apply handleNetworkQualityChange_calm.
  - apply telemetry_calm.
  - apply periodicCleanup_calm.
  - repeat split; auto.
Qed.

Lemma run_calm (events : list Event) :
  forall w, no_health w -> quiet events w = true ->
            no_health (run events w) /\ calm w (run events w).
Proof.
  induction events as [|e events IH]; intros w Hn Hq.
  - split; [exact Hn|apply calm_refl].
  - cbn [quiet] in Hq. apply andb_true_iff in Hq. destruct Hq as [He Hq].
    apply negb_true_iff in He.
    pose proof (step_calm e w Hn He) as Hstep.
    change (run (e :: events) w) with (run events (step e w)).
    destruct (IH (step e w) (proj1 Hstep Hn) Hq) as [Hn' Hc'].
    split; [exact Hn'|]. exact (calm_trans _ _ _ Hstep Hc').
Qed.

Lemma connect_ws (w : World) :
  ws (svc (connect w)) = ws (svc w) \/ ws (svc (connect w)) = Some (length (sockets w)).
Proof. unfold connect, checkRateLimit, handleError, new_WebSocket. by_cases; auto. Qed.

Lemma reconnect_closes_current (w : World) (cur : nat) :
  ws (svc w) = Some cur ->
  socket_state w cur = Some OPEN \/ socket_state w cur = Some CONNECTING ->
  socket_state (reconnect w) cur = Some CLOSING /\ ws (svc (reconnect w)) <> Some cur.
Proof.
  intros Hws Hst.
  assert (Hclosing : socket_state (disconnect w) cur = Some CLOSING).
  { destruct Hst as [Hst|Hst];
      [apply disconnect_closes_open|apply disconnect_abandons_attempt]; assumption. }
  destruct (disconnect_handles w) as (Hnone & _ & _).
  unfold reconnect. set (v := upd (set_reconnectCount 0%nat) (disconnect w)).
  assert (Hcur : (cur < length (sockets v))%nat).
  { apply nth_error_Some. unfold socket_state in Hclosing.
    change (sockets v) with (sockets (disconnect w)).
    destruct (nth_error (sockets (disconnect w)) cur); discriminate. }
  split.
  - unfold socket_state in *. destruct (connect_sockets_shape v) as [E|E]; rewrite E.
    + exact Hclosing.
    + rewrite nth_error_app1 by exact Hcur. exact Hclosing.
  - destruct (connect_ws v) as [E|E]; rewrite E.
    + unfold v. simp. rewrite Hnone. discriminate.
    + intro H. injection H as H. rewrite <- H in Hcur.
      exact (Nat.lt_irrefl _ Hcur).
Qed.

Lemma reconnect_creates (w : World) :
  isReconnecting (svc w) = false -> hasWindow w = true ->
  constructorThrows w = false -> fst (checkRateLimit w) = true ->
  ws (svc (reconnect w)) = Some (length (sockets w)) /\
  socket_state (reconnect w) (length (sockets w)) = Some CONNECTING /\
  length (sockets (reconnect w)) = S (length (sockets w)).
Proof.
  intros Hflag Hwin Hthrows Hpermit. unfold reconnect.
  set (v := upd (set_reconnectCount 0%nat) (disconnect w)).
  destruct (disconnect_handles w) as (Hvws & _ & _).
  destruct (disconnect_environment w) as (Hvflag & Hvwin & Hvthrows).
  pose proof (disconnect_sockets w) as Hlen.
  assert (Hvopen : ws_is_open v = false).
  { unfold ws_is_open, open_socket, v. simp. rewrite Hvws. reflexivity. }
  assert (Hvpermit : fst (checkRateLimit v) = true).
  { rewrite (checkRateLimit_verdict w v); [exact Hpermit|apply disconnect_rate_view]. }
  destruct (connect_creates v) as (Hs & Hnew & _);
    [unfold v; simp; congruence | exact Hvopen | unfold v; simp; congruence
    | unfold v; simp; congruence | exact Hvpermit |].
  change (sockets v) with (sockets (disconnect w)) in *.
  rewrite Hlen in Hnew.
  split; [exact Hnew|]. split.
  - unfold socket_state. rewrite Hs, nth_error_app2 by lia.
    rewrite Hlen, Nat.sub_diag. reflexivity.
  - rewrite Hs, length_app, Hlen. cbn [length]. lia.
Qed.

(** C8, as stated, fails: the tick that reaches the tolerance leaves the
    count of missed probes at 2, and there it stays, also much later, as long
    as no socket opens and no pong arrives. *)
Lemma missed_probes_not_reset_by_tick :
  let w' := world_of (performHealthCheck two_silent_ticks) in
  missedPings (svc two_silent_ticks) = 1%nat /\
  missedPings (svc w') = 2%nat /\
  missedPings (svc (run [TimePasses 60000; SocketClose 0; TimePasses 10000] w')) = 2%nat.
Proof. vm_compute. repeat split. Qed.

(** C8, amended: a health check that counts a missed probe and thereby
    reaches the tolerance of 2 runs [reconnect] once and returns.  The console
    gains one "initiating reconnect" entry and no "Sending ping" entry, no
    frame is transmitted and nothing is queued; the attempt counter is zero,
    the socket that was current is closing and no longer current, at most one
    socket is created (exactly one, which is made current, when [connect] is
    not turned down), and no health-check interval is left pending.  The tick
    leaves the count of missed probes at the value it reached.  In every run
    of events that follows in which no socket opens and no pong arrives, no
    further such reconnect is logged, no health-check interval is pending
    and the count keeps that value; the next open of a socket sets it to
    zero. *)
Theorem missed_probe_tolerance_forces_one_reconnect (w : World) :
  now w - lastPongTime (svc w) > HEALTH_CHECK_TIMEOUT (svc w) ->
  (MAX_MISSED_PINGS <= S (missedPings (svc w)))%nat ->
  health_tracked w ->
  let strike := S (missedPings (svc w)) in
  let w' := world_of (performHealthCheck w) in
  performHealthCheck w =
    Returns (reconnect
               (log LogDegraded error
                  (log (LogMissedPing strike) warn
                     (upd (set_missedPings strike) w)))) /\
  logged is_degraded w' = S (logged is_degraded w) /\
  logged is_sending_ping w' = logged is_sending_ping w /\
  (forall sid, transmitted w' sid = transmitted w sid) /\
  messageQueue (svc w') = messageQueue (svc w) /\
  reconnectCount (svc w') = 0%nat /\
  (forall cur, ws (svc w) = Some cur ->
     socket_state w cur = Some OPEN \/ socket_state w cur = Some CONNECTING ->
     socket_state w' cur = Some CLOSING /\ ws (svc w') <> Some cur) /\
  (length (sockets w') <= S (length (sockets w)))%nat /\
  (isReconnecting (svc w) = false -> hasWindow w = true ->
   constructorThrows w = false -> fst (checkRateLimit w) = true ->
   ws (svc w') = Some (length (sockets w)) /\
   socket_state w' (length (sockets w)) = Some CONNECTING /\
   length (sockets w') = S (length (sockets w))) /\
  healthCheckTimer (svc w') = None /\
  pending HealthInterval w' = [] /\
  missedPings (svc w') = strike /\
  (forall events, quiet events w' = true ->
     let v := run events w' in
     logged is_degraded v = logged is_degraded w' /\
     pending HealthInterval v = [] /\
     missedPings (svc v) = strike /\
     forall sid, socket_state v sid = Some CONNECTING ->
                 missedPings (svc (step (SocketOpen sid) v)) = 0%nat).
Proof.
  intros Hlate Hstrike Htracked strike w'.
  assert (E : performHealthCheck w =
              Returns (reconnect
                         (log LogDegraded error
                            (log (LogMissedPing strike) warn
                               (upd (set_missedPings strike) w))))).
  { unfold performHealthCheck.
    replace (now w - lastPongTime (svc w) >? HEALTH_CHECK_TIMEOUT (svc w)) with true
      by (symmetry; apply Z.gtb_lt; lia).
    simp. apply Nat.leb_le in Hstrike. rewrite Hstrike. reflexivity. }
  subst w'. rewrite E. cbn [world_of].
  set (w0 := log LogDegraded error
               (log (LogMissedPing strike) warn (upd (set_missedPings strike) w))).
  assert (Htracked0 : health_tracked w0) by exact Htracked.
  destruct (reconnect_stops_health_checks w0 Htracked0) as [Hnone Hpending].
  assert (Hmissed : missedPings (svc (reconnect w0)) = strike)
    by (rewrite reconnect_missedPings; reflexivity).
  split; [reflexivity|].
  split.
  { rewrite reconnect_logged by reflexivity.
    unfold w0. rewrite !logged_log. cbn [is_degraded].
    change (logged is_degraded (upd (set_missedPings strike) w))
      with (logged is_degraded w). lia. }
  split.
  { rewrite reconnect_logged by reflexivity.
    unfold w0. rewrite !logged_log. cbn [is_sending_ping].
    change (logged is_sending_ping (upd (set_missedPings strike) w))
      with (logged is_sending_ping w). lia. }
  split; [intro sid; rewrite reconnect_transmitted; reflexivity|].
  split; [rewrite reconnect_queue; reflexivity|].
  split; [apply reconnect_attempts|].
  split; [intros cur Hws Hst; exact (reconnect_closes_current w0 cur Hws Hst)|].
  split.
  { unfold reconnect.
    pose proof (connect_sockets (upd (set_reconnectCount 0%nat) (disconnect w0))) as Hc.
    pose proof (disconnect_sockets w0) as Hd.
    change (sockets (upd (set_reconnectCount 0%nat) (disconnect w0)))
      with (sockets (disconnect w0)) in Hc.
    change (sockets w0) with (sockets w) in Hd. lia. }
  split.
  { intros Hflag Hwin Hthrows Hpermit. apply (reconnect_creates w0); try assumption.
    rewrite (checkRateLimit_verdict w w0); [exact Hpermit|reflexivity]. }
  split; [exact Hnone|].
  split; [exact Hpending|].
  split; [exact Hmissed|].
  intros events Hquiet. cbn zeta.
  destruct (run_calm events (reconnect w0)) as (Hn & _ & Hd & Hm);
    [apply no_health_pending; exact Hpending | exact Hquiet |].
  split; [exact Hd|]. split; [apply no_health_pending; exact Hn|].
  split; [rewrite Hm; exact Hmissed|].
  intros sid Hconnecting. cbn [step]. rewrite Hconnecting.
  apply handleOpen_missedPings.
Qed.

(** [missed_probe_tolerance_forces_one_reconnect] at the second silent tick:
    one reconnect and no second ping; socket 0 is closing, socket 1 is the
    current one; the count stays 2 while the old socket closes and its retry
    timer runs, and the open of socket 1 sets it to zero. *)
Lemma missed_probe_tolerance_witness :
  let w' := world_of (performHealthCheck two_silent_ticks) in
  let v := run [TimePasses 1000; SocketClose 0; TimePasses 4500; TimerFires 2] w' in
  logged is_degraded w' = 1%nat /\
  logged is_sending_ping w' = 1%nat /\
  transmitted w' 0 = [ping_json] /\
  socket_state w' 0 = Some CLOSING /\
  ws (svc w') = Some 1%nat /\
  pending HealthInterval w' = [] /\
  missedPings (svc w') = 2%nat /\
  logged is_degraded v = 1%nat /\
  missedPings (svc v) = 2%nat /\
  missedPings (svc (step (SocketOpen 1) v)) = 0%nat.
Proof.
  cbn zeta.
  destruct (missed_probe_tolerance_forces_one_reconnect two_silent_ticks)
    as (_ & Hd & Hp & Htx & _ & _ & Hcur & _ & Hnew & _ & Hpend & Hm & Hrun).
  - reflexivity.
  - vm_compute. apply le_n.
  - intros t Hin Hkind. vm_compute in Hin. destruct Hin as [<-|[]]. reflexivity.
  - cbn zeta in *.
    destruct (Hcur 0%nat) as [Hclosing _]; [reflexivity|left; reflexivity|].
    destruct Hnew as (Hws & _ & _); try reflexivity.
    destruct (Hrun [TimePasses 1000; SocketClose 0; TimePasses 4500; TimerFires 2])
      as (Hdv & _ & Hmv & Hopen); [vm_compute; reflexivity|].
    split; [exact Hd|]. split; [exact Hp|]. split; [exact (Htx 0%nat)|].
    split; [exact Hclosing|]. split; [exact Hws|]. split; [exact Hpend|].
    split; [exact Hm|]. split; [rewrite Hdv; exact Hd|]. split; [exact Hmv|].
    apply Hopen. vm_compute. reflexivity.
Defined.
